(** * Bytebase: PostgreSQL driver, GitLab webhook and inbox summary

    A shallow embedding of parts of the repository:

    - [GoStrings]: the functions of Go's [strings], [strconv] and
      [path/filepath] packages that the code calls, on byte strings;
    - [Quote]: [quoteIdentifier] and the [ident] pattern of the PostgreSQL
      driver;
    - [Pg]: the driver object, [guessDSN] and [Open], [Execute],
      [NeedsSetupMigration] and [SetupMigrationIfNeeded],
      [FindMigrationHistoryList] and the stored-version backfill, over an
      abstract SQL server;
    - [History]: a server with a [migration_history] table, on which the
      backfill is followed row by row;
    - [Inbox]: [FindInboxSummary] of the inbox store;
    - [Webhook]: the handler of GitLab push events;
    - [Samples], [MoreSamples]: small instances of the environment;
    - [PgMore]: [Restore], [Dump] and the filter of the output of
      [pg_dump];
    - [InboxList]: [FindInboxList] and [FindInbox] of the inbox store;
    - [PgSync]: [SyncSchema] over the functions that read the catalog.

    Go strings are byte strings: they are modelled as [string], one [ascii]
    per byte.  Calls that leave the process (SQL statements, HTTP requests,
    other services) are answered by an explicit environment, so that every
    theorem holds for every behaviour of the outside world.  The
    definitions come first, the properties after them. *)

From Stdlib Require Import String Ascii List Bool Arith ZArith Lia DecimalString.
Import ListNotations.
Open Scope list_scope.
Open Scope string_scope.

(** ** Results of fallible calls *)

(** A Go [error] is identified with its message ([err.Error()]). *)
Definition error := string.

(** What a Go call that returns [(T, error)] produces.  [Panic] is a
    run-time panic (a nil dereference), which no caller here recovers. *)
Inductive result (A : Type) : Type :=
| Ok (a : A)
| Err (e : error)
| Panic.
Arguments Ok {A} a.
Arguments Err {A} e.
Arguments Panic {A}.

(** State passing with errors: a computation reads and updates a world of
    type [W]; the world changes made before an error stay made, as in Go. *)
Definition M (W A : Type) : Type := W -> result A * W.

Definition ret {W A} (a : A) : M W A := fun w => (Ok a, w).
Definition fail {W A} (e : error) : M W A := fun w => (Err e, w).
Definition panic {W A} : M W A := fun w => (Panic, w).
Definition bind {W A B} (m : M W A) (k : A -> M W B) : M W B :=
  fun w =>
    match m w with
    | (Ok a, w') => k a w'
    | (Err e, w') => (Err e, w')
    | (Panic, w') => (Panic, w')
    end.

Declare Scope go_scope.
Delimit Scope go_scope with go.
Notation "x <- m ;; k" := (bind m (fun x => k))
  (at level 61, m at next level, right associativity) : go_scope.
Notation "m ;;; k" := (bind m (fun _ => k))
  (at level 61, right associativity) : go_scope.

(** ** Go's [strings] and [path/filepath] on byte strings *)
Module GoStrings.

Definition byte (n : nat) : ascii := ascii_of_nat n.
Definition code (c : ascii) : nat := nat_of_ascii c.

(** The double quote and the strings made of it. *)
Definition dquote : ascii := byte 34.
Definition DQ : string := String dquote EmptyString.

Definition HasPrefix (s p : string) : bool := String.prefix p s.

(** [strings.Contains]: some suffix of [s] starts with [sub]. *)
Fixpoint Contains (s sub : string) : bool :=
  HasPrefix s sub ||
  match s with
  | EmptyString => false
  | String _ r => Contains r sub
  end.

(** [strings.TrimLeft(s, cutset)] for a cutset of single-byte characters. *)
Fixpoint TrimLeft (s : string) (cutset : list ascii) : string :=
  match s with
  | EmptyString => EmptyString
  | String c r =>
      if existsb (Ascii.eqb c) cutset then TrimLeft r cutset else s
  end.

(** [strings.TrimRight(s, cutset)] for a cutset of single-byte characters. *)
Fixpoint TrimRight (s : string) (cutset : list ascii) : string :=
  match s with
  | EmptyString => EmptyString
  | String c r =>
      match TrimRight r cutset with
      | EmptyString =>
          if existsb (Ascii.eqb c) cutset then EmptyString
          else String c EmptyString
      | r' => String c r'
      end
  end.

(** [strings.TrimPrefix]. *)
Definition TrimPrefix (s p : string) : string :=
  if HasPrefix s p then substring (String.length p) (String.length s - String.length p) s
  else s.

(** [strings.Split(s, sep)] for a separator of one byte: one more part than
    there are separators. *)
Fixpoint Split (s : string) (sep : ascii) : list string :=
  match s with
  | EmptyString => [EmptyString]
  | String c r =>
      if Ascii.eqb c sep then EmptyString :: Split r sep
      else match Split r sep with
           | [] => [String c EmptyString]
           | p :: ps => String c p :: ps
           end
  end.

(** [strings.Join]. *)
Definition Join (l : list string) (sep : string) : string := String.concat sep l.

(** [strings.ReplaceAll(s, old, new)] for [old] of one byte. *)
Fixpoint ReplaceAll (s : string) (old : ascii) (new : string) : string :=
  match s with
  | EmptyString => EmptyString
  | String c r =>
      if Ascii.eqb c old then new ++ ReplaceAll r old new
      else String c (ReplaceAll r old new)
  end.

Fixpoint forallbS (p : ascii -> bool) (s : string) : bool :=
  match s with
  | EmptyString => true
  | String c r => p c && forallbS p r
  end.

Fixpoint mapS (f : ascii -> ascii) (s : string) : string :=
  match s with
  | EmptyString => EmptyString
  | String c r => String (f c) (mapS f r)
  end.

(** Every byte is below [utf8.RuneSelf]. *)
Definition isASCII (s : string) : bool := forallbS (fun c => Nat.ltb (code c) 128) s.

Definition isLower (c : ascii) : bool := Nat.leb 97 (code c) && Nat.leb (code c) 122.
Definition isUpper (c : ascii) : bool := Nat.leb 65 (code c) && Nat.leb (code c) 90.
Definition isDigit (c : ascii) : bool := Nat.leb 48 (code c) && Nat.leb (code c) 57.

Definition upperByte (c : ascii) : ascii :=
  if isLower c then byte (code c - 32) else c.

Section Unicode.
(** Go's Unicode tables are not part of the repository: what
    [strings.ToUpper] and [strings.Fields] do to a string with a byte
    outside ASCII is left to the environment. *)
Variable unicodeToUpper : string -> string.
Variable unicodeFields : string -> list string.

(** [strings.ToUpper]: the ASCII fast path of the Go library, and the
    Unicode mapping otherwise. *)
Definition ToUpper (s : string) : string :=
  if isASCII s then mapS upperByte s else unicodeToUpper s.

(** The ASCII white space of [strings.Fields]. *)
Definition asciiSpace (c : ascii) : bool :=
  existsb (Nat.eqb (code c)) [9; 10; 11; 12; 13; 32].

(** Fields of an ASCII string: [cur] is the field being read, in reverse. *)
Fixpoint fieldsASCII (s : string) (cur : list ascii) : list string :=
  let flush := match cur with
               | [] => []
               | _ => [string_of_list_ascii (rev cur)]
               end in
  match s with
  | EmptyString => flush
  | String c r =>
      if asciiSpace c then flush ++ fieldsASCII r []
      else fieldsASCII r (c :: cur)
  end.

Definition Fields (s : string) : list string :=
  if isASCII s then fieldsASCII s [] else unicodeFields s.
End Unicode.

Definition newlineS : string := String (byte 10) EmptyString.

(** [strconv.Itoa], and [%d] of [fmt]. *)
Definition Itoa (z : Z) : string := NilZero.string_of_int (Z.to_int z).

(** [os.IsPathSeparator] on Unix. *)
Definition isPathSeparator (c : ascii) : bool := Nat.eqb (code c) 47.

(** [filepath.Ext]: the suffix that starts at the last dot of the last path
    element, or the empty string.  [extFrom s] is [None] when [s] holds a
    separator after which no dot follows, [Some e] otherwise. *)
Fixpoint extFrom (s : string) : option string :=
  match s with
  | EmptyString => Some EmptyString
  | String c r =>
      match extFrom r with
      | None => None
      | Some EmptyString =>
          if isPathSeparator c then None
          else if Nat.eqb (code c) 46 then Some s
          else Some EmptyString
      | Some e => Some e
      end
  end.

Definition Ext (path : string) : string :=
  match extFrom path with
  | Some e => e
  | None => EmptyString
  end.

(** The text after the last separator ([s] itself when there is none). *)
Fixpoint lastElement (s : string) : string :=
  match s with
  | EmptyString => EmptyString
  | String c r =>
      if forallbS (fun x => negb (isPathSeparator x)) r
      then (if isPathSeparator c then r else s)
      else lastElement r
  end.

(** [filepath.Base] on Unix. *)
Definition Base (path : string) : string :=
  if String.eqb path EmptyString then "."
  else
    let p := TrimRight path [byte 47] in
    let e := lastElement p in
    if String.eqb e EmptyString then "/" else e.

End GoStrings.

(** ** Identifier quoting of the PostgreSQL driver *)
Module Quote.
Import GoStrings.

(** A byte of [[a-z_]] under [(?i)]. *)
Definition identStartByte (c : ascii) : bool :=
  isLower c || isUpper c || Nat.eqb (code c) 95.

(** A byte of [[a-z0-9_$]] under [(?i)]. *)
Definition identByte (c : ascii) : bool :=
  identStartByte c || isDigit c || Nat.eqb (code c) 36.

(** Under [(?i)] Go's regexp closes a class under simple case folding, so
    [[a-z]] also holds the two runes that fold to a letter: U+017F (bytes
    C5 BF, folds to s) and U+212A (bytes E2 84 AA, folds to k). *)
Definition isFold2 (c1 c2 : ascii) : bool :=
  Nat.eqb (code c1) 197 && Nat.eqb (code c2) 191.
Definition isFold3 (c1 c2 c3 : ascii) : bool :=
  Nat.eqb (code c1) 226 && Nat.eqb (code c2) 132 && Nat.eqb (code c3) 170.

(** [[a-z0-9_$]*$]: every rune up to the end of the text is in the class. *)
Fixpoint identRest (s : string) : bool :=
  match s with
  | EmptyString => true
  | String c r =>
      if identByte c then identRest r
      else
        match r with
        | EmptyString => false
        | String c2 r2 =>
            if isFold2 c c2 then identRest r2
            else
              match r2 with
              | EmptyString => false
              | String c3 r3 => if isFold3 c c2 c3 then identRest r3 else false
              end
        end
  end.

(** [ident.MatchString(s)] for
    [ident = regexp.MustCompile(`(?i)^[a-z_][a-z0-9_$]*$`)]. *)
Definition ident_MatchString (s : string) : bool :=
  match s with
  | EmptyString => false
  | String c r =>
      if identStartByte c then identRest r
      else
        match r with
        | EmptyString => false
        | String c2 r2 =>
            if isFold2 c c2 then identRest r2
            else
              match r2 with
              | EmptyString => false
              | String c3 r3 => if isFold3 c c2 c3 then identRest r3 else false
              end
        end
  end.

(** The pattern of the specification read on bytes:
    [^[A-Za-z_][A-Za-z0-9_$]*$]. *)
Definition matchesIdentPattern (s : string) : bool :=
  match s with
  | EmptyString => false
  | String c r => identStartByte c && forallbS identByte r
  end.

Section QuoteIdentifier.
(** The Unicode part of [strings.ToUpper]. *)
Variable unicodeToUpper : string -> string.
(** The table [reserved] of the package is declared in a file that is not
    part of the sources at hand: a map from upper-case keywords to [true],
    read here as its lookup function. *)
Variable reserved : string -> bool.

(** The text between the quotes: every double quote doubled. *)
Definition escapeQuotes (s : string) : string := ReplaceAll s dquote (DQ ++ DQ).

Definition quoted (s : string) : string := DQ ++ escapeQuotes s ++ DQ.

(** Whether [quoteIdentifier] sets its flag [quote]. *)
Definition needsQuote (s : string) : bool :=
  let quote := false in
  let quote := if reserved (ToUpper unicodeToUpper s) then true else quote in
  let quote := if negb (ident_MatchString s) then true else quote in
  quote.

Definition quoteIdentifier (s : string) : string :=
  if needsQuote s then quoted s else s.
End QuoteIdentifier.

End Quote.

(** ** The PostgreSQL driver *)
Module Pg.
Import GoStrings.
Local Open Scope go_scope.

(** A row of [pg_database] as [getDatabases] scans it. *)
Record pgDatabaseSchema : Type := {
  name : string;
  encoding : string;
  collate : string
}.

(** A row of [migration_history] as the backfill reads it. *)
Record ver : Type := {
  id : Z;
  version : string
}.

Record TLSConfig : Type := {
  SslCA : string;
  SslCert : string;
  SslKey : string
}.

Record ConnectionConfig : Type := {
  Host : string;
  Port : string;
  Username : string;
  Password : string;
  Database : string;
  TLS : TLSConfig;
  ReadOnly : bool;
  StrictUseDb : bool
}.

(** The fields of [Driver] that the modelled methods read or write.  [db] is
    the [*sql.DB] handle, identified with the DSN it was opened on; [None]
    is the nil handle. *)
Record Driver : Type := {
  db : option string;
  baseDSN : string;
  databaseName : string;
  strictDatabase : string
}.

(** What the driver asks of [database/sql], in the order it asks. *)
Inductive event : Type :=
| EOpen (dsn : string)
| EClose (dsn : string)
| EPing (dsn : string)
| EQueryDatabases (dsn : string)
| EExec (dsn stmt : string)
| ENeedsSetupSchema (dsn : string)
| EQueryVersions (dsn : string)
| EUpdateVersion (dsn newVersion : string) (id : Z) (oldVersion : string)
| EBegin (dsn : string)
| ETxOwner
| ETxExec (stmt : string)
| ECommit
| ERollback.

(** The SQL server and the connection library, as far as the driver can
    tell: every call returns a result and leaves the server in a new state.
    Inside a transaction the calls run on the transaction's own copy of the
    state. *)
Record SqlServer (S : Type) : Type := {
  sqlOpen : string -> S -> result unit * S;
  sqlClose : string -> S -> result unit * S;
  sqlPing : string -> S -> result unit * S;
  sqlQueryDatabases : string -> S -> result (list pgDatabaseSchema) * S;
  sqlExec : string -> string -> S -> result unit * S;
  sqlBegin : string -> S -> result unit * S;
  (** the rows of the owner query, each with the outcome of its [Scan] *)
  sqlTxOwnerRows : string -> S -> result (list (result string)) * S;
  sqlTxExec : string -> string -> S -> result unit * S;
  (** the error of [COMMIT], if it fails *)
  sqlCommit : string -> S -> option error;
  (** [util.NeedsSetupMigrationSchema] on a handle *)
  sqlNeedsSetupSchema : string -> string -> S -> result bool * S;
  (** [SELECT id, version FROM migration_history] on a handle, with the
      scan of its rows *)
  sqlQueryVersions : string -> S -> result (list ver) * S;
  (** [UPDATE migration_history SET version = $1 WHERE id = $2 AND
      version = $3] on a handle *)
  sqlUpdateVersion : string -> string -> Z -> string -> S -> result unit * S
}.
Arguments sqlOpen {S}.
Arguments sqlClose {S}.
Arguments sqlPing {S}.
Arguments sqlQueryDatabases {S}.
Arguments sqlExec {S}.
Arguments sqlBegin {S}.
Arguments sqlTxOwnerRows {S}.
Arguments sqlTxExec {S}.
Arguments sqlCommit {S}.
Arguments sqlNeedsSetupSchema {S}.
Arguments sqlQueryVersions {S}.
Arguments sqlUpdateVersion {S}.

(** The filter of [FindMigrationHistoryList]: nil pointers are [None]. *)
Record MigrationHistoryFind : Type := {
  find_ID : option Z;
  find_Database : option string;
  find_Version : option string;
  find_Source : option string;
  find_Limit : option Z
}.

(** A query parameter. *)
Inductive param : Type :=
| PInt (z : Z)
| PString (s : string).

(** The world of a driver call: the committed state of the server, the open
    transaction (the DSN of its handle and its working copy of the state),
    the driver object and the calls made so far. *)
Record World (S : Type) : Type := {
  server : S;
  txn : option (string * S);
  driver : Driver;
  events : list event
}.
Arguments server {S}.
Arguments txn {S}.
Arguments driver {S}.
Arguments events {S}.
Arguments Build_World {S}.

Section Driver.
Variable S : Type.
Variable srv : SqlServer S.

(** Constants and helpers of the packages [db] and [util], whose files
    are not among the sources. *)
Variable BytebaseDatabase : string.
Variable migrationSchema : string.
Variable FormatErrorWithQuery : error -> string -> error.
(** [fmt]'s [%q] *)
Variable quoteQ : string -> string.
(** the Unicode part of [strings.Fields] *)
Variable unicodeFields : string -> list string.
(** the order in which this run of [guessDSN] visits the entries of its map
    (Go leaves it unspecified) *)
Variable mapOrder : list (string * string) -> list (string * string).
(** the statements into which [util.ApplyMultiStatements] cuts a script,
    and the error with which its scan ends, if any *)
Variable splitStatements : string -> list string * option error.
(** how [util.ApplyMultiStatements] reports the error of a statement *)
Variable wrapStatementError : string -> error -> error.

Local Abbreviation W := (World S).

Definition setDriver (d : Driver) : M W unit :=
  fun w => (Ok tt, Build_World (server w) (txn w) d (events w)).

Definition getDriver : M W Driver := fun w => (Ok (driver w), w).

(** A call on the server outside a transaction. *)
Definition call {A} (ev : event) (op : S -> result A * S) : M W A :=
  fun w =>
    let (r, s') := op (server w) in
    (r, Build_World s' (txn w) (driver w) (events w ++ [ev])).

(** A method of [driver.db]: a nil handle panics. *)
Definition withDb {A} (k : string -> M W A) : M W A :=
  fun w =>
    match db (driver w) with
    | Some dsn => k dsn w
    | None => (Panic, w)
    end.

Definition errTxDone : error :=
  "sql: transaction has already been committed or rolled back".

(** [driver.db.BeginTx]. *)
Definition BeginTx : M W unit :=
  withDb (fun dsn w =>
    let (r, s') := sqlBegin srv dsn (server w) in
    let tx := match r with Ok _ => Some (dsn, s') | _ => txn w end in
    (r, Build_World s' tx (driver w) (events w ++ [EBegin dsn]))).

(** A call on the open transaction. *)
Definition txCall {A} (ev : event) (op : string -> S -> result A * S) : M W A :=
  fun w =>
    match txn w with
    | Some (dsn, wk) =>
        let (r, wk') := op dsn wk in
        (r, Build_World (server w) (Some (dsn, wk')) (driver w) (events w ++ [ev]))
    | None => (Err errTxDone, w)
    end.

(** [tx.Commit]: the working copy becomes the state of the server. *)
Definition txCommit : M W unit :=
  fun w =>
    match txn w with
    | Some (dsn, wk) =>
        match sqlCommit srv dsn wk with
        | None => (Ok tt, Build_World wk None (driver w) (events w ++ [ECommit]))
        | Some e => (Err e, Build_World (server w) None (driver w) (events w ++ [ECommit]))
        end
    | None => (Err errTxDone, w)
    end.

(** [tx.Rollback]: the working copy is dropped; on a transaction that is
    over it does nothing (its error is not looked at). *)
Definition txRollback (w : W) : W :=
  match txn w with
  | Some _ => Build_World (server w) None (driver w) (events w ++ [ERollback])
  | None => w
  end.

(** [defer tx.Rollback()] around the rest of the function. *)
Definition deferRollback {A} (body : M W A) : M W A :=
  fun w => let (r, w') := body w in (r, txRollback w').

Definition strictUseDb : M W bool :=
  fun w => (Ok (negb (Nat.eqb (String.length (strictDatabase (driver w))) 0)), w).

Definition switchDatabase (dbName : string) : M W unit :=
  d <- getDriver ;;
  match db d with
  | Some old => call (EClose old) (sqlClose srv old)
  | None => ret tt
  end ;;;
  let dsn := (baseDSN d ++ " dbname=" ++ dbName)%string in
  call (EOpen dsn) (sqlOpen srv dsn) ;;;
  setDriver {| db := Some dsn; baseDSN := baseDSN d;
               databaseName := dbName; strictDatabase := strictDatabase d |}.

(** [GetDbConnection] returns [driver.db], here the DSN of the handle. *)
Definition GetDbConnection (database : string) : M W (option string) :=
  switchDatabase database ;;;
  d <- getDriver ;;
  ret (db d).

Definition getDatabases : M W (list pgDatabaseSchema) :=
  withDb (fun dsn => call (EQueryDatabases dsn) (sqlQueryDatabases srv dsn)).

(** [driver.db.ExecContext]. *)
Definition dbExecContext (stmt : string) : M W unit :=
  withDb (fun dsn => call (EExec dsn stmt) (sqlExec srv dsn stmt)).

Definition txExecContext (stmt : string) : M W unit :=
  txCall (ETxExec stmt) (fun dsn => sqlTxExec srv dsn stmt).

Definition liftResult {A} (r : result A) : M W A := fun w => (r, w).

(** [if err != nil { return f(err) }] around a call. *)
Definition mapErr {A} (f : error -> error) (m : M W A) : M W A :=
  fun w =>
    match m w with
    | (Err e, w') => (Err (f e), w')
    | r => r
    end.

Definition getDatabaseInCreateDatabaseStatement (createDatabaseStatement : string)
  : result string :=
  let raw := TrimRight createDatabaseStatement [byte 59] in
  let raw := TrimPrefix raw "CREATE DATABASE" in
  let tokens := Fields unicodeFields raw in
  match tokens with
  | [] => Err "database name not found"
  | t0 :: _ =>
      let databaseName := TrimLeft t0 [dquote] in
      let databaseName := TrimRight databaseName [dquote] in
      Ok databaseName
  end.

(** The loop over the rows of the owner query: the last row wins. *)
Fixpoint scanOwner (rows : list (result string)) (owner : string) : result string :=
  match rows with
  | [] => Ok owner
  | Ok o :: rest => scanOwner rest o
  | Err e :: _ => Err e
  | Panic :: _ => Panic
  end.

Definition getCurrentDatabaseOwner : M W string :=
  rows <- txCall ETxOwner (sqlTxOwnerRows srv) ;;
  owner <- liftResult (scanOwner rows "") ;;
  if String.eqb owner "" then fail "Owner not found for the current database"
  else ret owner.

(** ** Connection discovery *)

(** The DSN that [guessDSN] builds from its map [m], without a database. *)
Definition connectionDSN (username password hostname port sslCA sslCert sslKey : string)
  : string :=
  let m := [("host", hostname); ("port", port); ("user", username);
            ("password", password)] in
  let m :=
    if String.eqb sslCA "" then m
    else
      let m := (m ++ [("sslmode", "verify-ca"); ("sslrootcert", sslCA)])%list in
      if negb (String.eqb sslCert "") && negb (String.eqb sslKey "")
      then (m ++ [("sslcert", sslCert); ("sslkey", sslKey)])%list
      else m in
  let tokens :=
    flat_map (fun kv : string * string =>
                if negb (String.eqb (snd kv) "")
                then [fst kv ++ "=" ++ snd kv] else [])
             (mapOrder m) in
  Join tokens " ".

(** The DSN of one guess. *)
Definition dsnOfGuess (dsn guess : string) : string :=
  if negb (String.eqb guess "") then dsn ++ " dbname=" ++ guess else dsn.

Definition guessesFor (database : string) : list string :=
  if negb (String.eqb database "") then [database]
  else [""; "bytebase"; "postgres"; "template1"].

(** The loop of [guessDSN]: [sql.Open] and [db.Ping] on one guess after the
    other.  The handles that were opened are closed when [guessDSN] returns
    ([defer db.Close()]), the last one first. *)
Fixpoint tryGuesses (dsn : string) (guesses : list string) (opened : list string)
  : M W (option (string * string) * list string) :=
  match guesses with
  | [] => ret (None, opened)
  | guess :: rest =>
      let guessDSN := dsnOfGuess dsn guess in
      fun w =>
        match call (EOpen guessDSN) (sqlOpen srv guessDSN) w with
        | (Ok _, w1) =>
            match call (EPing guessDSN) (sqlPing srv guessDSN) w1 with
            | (Ok _, w2) => (Ok (Some (guess, guessDSN), guessDSN :: opened), w2)
            | (_, w2) => tryGuesses dsn rest (guessDSN :: opened) w2
            end
        | (_, w1) => tryGuesses dsn rest opened w1
        end
  end.

(** The deferred [db.Close()] calls; their errors are not looked at. *)
Fixpoint closeAll (opened : list string) : M W unit :=
  match opened with
  | [] => ret tt
  | d :: rest =>
      fun w => let (_, w1) := call (EClose d) (sqlClose srv d) w in closeAll rest w1
  end.

Definition guessDSN (username password hostname port database sslCA sslCert sslKey : string)
  : M W (string * string) :=
  let dsn := connectionDSN username password hostname port sslCA sslCert sslKey in
  let guesses := guessesFor database in
  found <- tryGuesses dsn guesses [] ;;
  closeAll (snd found) ;;;
  match fst found with
  | Some r => ret r
  | None =>
      if negb (String.eqb database "")
      then fail ("cannot connecting " ++ quoteQ database ++
                 ", make sure the connection info is correct and the database exists")
      else fail "cannot connecting instance, make sure the connection info is correct"
  end.

(** The words of the specification: a candidate accepts when a handle can
    be opened on its DSN and answers a ping. *)
Definition accepts (candidateDSN : string) (w : W) : bool * W :=
  match call (EOpen candidateDSN) (sqlOpen srv candidateDSN) w with
  | (Ok _, w1) =>
      match call (EPing candidateDSN) (sqlPing srv candidateDSN) w1 with
      | (Ok _, w2) => (true, w2)
      | (_, w2) => (false, w2)
      end
  | (_, w1) => (false, w1)
  end.

(** The words of the specification: the candidates are tried in order, and
    the first that accepts wins.  The result holds the candidates that were
    tried, the winner if there is one, and the world after the last try. *)
Fixpoint firstAccepting (dsn : string) (candidates : list string) (w : W)
  : list string * option string * W :=
  match candidates with
  | [] => ([], None, w)
  | c :: rest =>
      let (ok, w1) := accepts (dsnOfGuess dsn c) w in
      if ok then ([c], Some c, w1)
      else
        let '(tried, hit, w2) := firstAccepting dsn rest w1 in
        (c :: tried, hit, w2)
  end.

(** The DSNs on which [sql.Open] was called, in order. *)
Definition opensOf (evs : list event) : list string :=
  flat_map (fun ev => match ev with EOpen d => [d] | _ => [] end) evs.

(** [Open]; the driver it returns is the receiver, in the world. *)
Definition Open (config : ConnectionConfig) : M W unit :=
  let tls := TLS config in
  if (String.eqb (SslCert tls) "" && negb (String.eqb (SslKey tls) "")) ||
     (negb (String.eqb (SslCert tls) "") && String.eqb (SslKey tls) "")
  then fail "ssl-cert and ssl-key must be both set or unset"
  else
    r <- guessDSN (Username config) (Password config) (Host config) (Port config)
                  (Database config) (SslCA tls) (SslCert tls) (SslKey tls) ;;
    let databaseName := fst r in
    let dsn := snd r in
    let dsn := if ReadOnly config
               then (dsn ++ " default_transaction_read_only=true")%string else dsn in
    d <- getDriver ;;
    let d1 := {| db := db d; baseDSN := dsn; databaseName := databaseName;
                 strictDatabase := if StrictUseDb config then Database config
                                   else strictDatabase d |} in
    setDriver d1 ;;;
    call (EOpen dsn) (sqlOpen srv dsn) ;;;
    setDriver {| db := Some dsn; baseDSN := baseDSN d1;
                 databaseName := Pg.databaseName d1;
                 strictDatabase := strictDatabase d1 |}.

(** ** Statement execution *)

(** The closure [f] of [Execute]; [remainingStmts] is the variable it
    captures, passed in and out. *)
Definition executeStmt (stmt : string) (remainingStmts : list string)
  : M W (list string) :=
  let stmt := TrimLeft stmt [byte 32; byte 9] in
  if HasPrefix stmt "CREATE DATABASE " then
    databases <- getDatabases ;;
    databaseName <- liftResult (getDatabaseInCreateDatabaseStatement stmt) ;;
    let exist_ := existsb (fun database => String.eqb (name database) databaseName)
                         databases in
    if negb exist_ then dbExecContext stmt ;;; ret remainingStmts
    else ret remainingStmts
  else if HasPrefix stmt "ALTER DATABASE" && Contains stmt " OWNER TO " then
    dbExecContext stmt ;;; ret remainingStmts
  else if HasPrefix stmt "\connect " then
    let parts := Split stmt dquote in
    if negb (Nat.eqb (List.length parts) 3)
    then fail ("invalid statement " ++ quoteQ stmt)
    else GetDbConnection (nth 1 parts "") ;;; ret remainingStmts
  else ret (remainingStmts ++ [stmt])%list.

(** Modelled from the spec: [util.ApplyMultiStatements], whose file is not
    among the sources.  The script is split into statements and [f] is
    applied to each in turn; the first error stops the loop and is
    returned (in the wrapping of the helper); an error of the scan itself
    is returned after the statements before it. *)
Fixpoint applyStatements {A} (f : string -> A -> M W A) (stmts : list string) (acc : A)
  : M W A :=
  match stmts with
  | [] => ret acc
  | s :: rest =>
      acc' <- mapErr (wrapStatementError s) (f s acc) ;;
      applyStatements f rest acc'
  end.

Definition ApplyMultiStatements {A} (script : string) (f : string -> A -> M W A) (acc : A)
  : M W A :=
  acc' <- applyStatements f (fst (splitStatements script)) acc ;;
  match snd (splitStatements script) with
  | Some e => fail e
  | None => ret acc'
  end.

(** The part of [Execute] that runs inside the transaction. *)
Definition executeInTx (remainingStmts : list string) : M W unit :=
  owner <- getCurrentDatabaseOwner ;;
  txExecContext ("SET LOCAL ROLE " ++ owner) ;;;
  txExecContext (Join remainingStmts newlineS) ;;;
  txCommit.

Definition Execute (statement : string) : M W unit :=
  remainingStmts <- ApplyMultiStatements statement executeStmt [] ;;
  if Nat.eqb (List.length remainingStmts) 0 then ret tt
  else
    BeginTx ;;;
    deferRollback (executeInTx remainingStmts).

(** ** Migration schema bootstrap *)

Definition hasBytebaseDatabase : M W bool :=
  databases <- getDatabases ;;
  ret (existsb (fun database => String.eqb (name database) BytebaseDatabase) databases).

Definition needsSetupQuery : string :=
  "SELECT 1 FROM information_schema.tables WHERE table_name = 'migration_history'".

(** [util.NeedsSetupMigrationSchema(ctx, driver.db, query)]; the helper
    runs the query on the handle it is given. *)
Definition NeedsSetupMigrationSchema : M W bool :=
  withDb (fun dsn =>
    call (ENeedsSetupSchema dsn) (sqlNeedsSetupSchema srv dsn needsSetupQuery)).

Definition NeedsSetupMigration : M W bool :=
  strict <- strictUseDb ;;
  if negb strict then
    exist_ <- hasBytebaseDatabase ;;
    if negb exist_ then ret true
    else
      switchDatabase BytebaseDatabase ;;;
      NeedsSetupMigrationSchema
  else NeedsSetupMigrationSchema.

Definition createBytebaseDatabaseStmt : string := "CREATE DATABASE bytebase;".

(** The rest of [SetupMigrationIfNeeded] once [setup] is known.  Logging
    is left out. *)
Definition setupMigration (setup : bool) : M W unit :=
  if setup then
    strict <- strictUseDb ;;
    (if negb strict then
       exist_ <- mapErr (fun e => "failed to find bytebase database error: " ++ e)
                        hasBytebaseDatabase ;;
       (if negb exist_ then
          mapErr (fun e => FormatErrorWithQuery e createBytebaseDatabaseStmt)
                 (dbExecContext createBytebaseDatabaseStmt)
        else ret tt) ;;;
       mapErr (fun e => "failed to switch to bytebase database error: " ++ e)
              (switchDatabase BytebaseDatabase)
     else ret tt) ;;;
    mapErr (fun e => FormatErrorWithQuery e migrationSchema)
           (dbExecContext migrationSchema)
  else ret tt.

Definition SetupMigrationIfNeeded : M W unit :=
  fun w =>
    match NeedsSetupMigration w with
    | (Ok setup, w1) => setupMigration setup w1
    | (Err _, w1) => (Ok tt, w1)
    | (Panic, w1) => (Panic, w1)
    end.

(** ** Migration history *)

(** The record type and the helpers of [db] and [util] that the query path
    calls; their files are not among the sources. *)
Variable MigrationHistory : Type.
Variable ToStoredVersion : bool -> string -> string -> result string.
Variable FormatParamNameInNumberedPosition : list string -> string.
Variable NonSemanticPrefix : string.
(** [util.FindMigrationHistoryList(ctx, query, params, driver, database,
    find, baseQuery)]: it is handed the driver, so it works on the world. *)
Variable utilFindMigrationHistoryList :
  string -> list param -> string -> MigrationHistoryFind -> string ->
  M W (list MigrationHistory).

(** The column list of the query, on one line. *)
Definition baseQuery : string :=
  "SELECT id, created_by, created_ts, updated_by, updated_ts, release_version, namespace, sequence, source, type, status, version, description, statement, " ++ DQ ++ "schema" ++ DQ ++ ", schema_prev, execution_duration_ns, issue_id, payload FROM migration_history ".

(** The loop over the rows read by the backfill. *)
Fixpoint updateVersions (sqldb : string) (vers : list ver) : M W unit :=
  match vers with
  | [] => ret tt
  | v :: rest =>
      if HasPrefix (version v) NonSemanticPrefix then updateVersions sqldb rest
      else
        let newVersion := NonSemanticPrefix ++ version v in
        call (EUpdateVersion sqldb newVersion (id v) (version v))
             (sqlUpdateVersion srv sqldb newVersion (id v) (version v)) ;;;
        updateVersions sqldb rest
  end.

Definition updateMigrationHistoryStorageVersion : M W unit :=
  strict <- strictUseDb ;;
  sqldb <- (if negb strict then GetDbConnection BytebaseDatabase else ret None) ;;
  match sqldb with
  | None => panic (* [sqldb.Query] on the nil handle *)
  | Some dsn =>
      vers <- call (EQueryVersions dsn) (sqlQueryVersions srv dsn) ;;
      updateVersions dsn vers
  end.

(** The names and values of the filters that are set, in the order of the
    source. *)
Definition findParams (find : MigrationHistoryFind) : result (list string * list param) :=
  let pn : list string * list param := ([], []) in
  let pn := match find_ID find with
            | Some v => (fst pn ++ ["id"], snd pn ++ [PInt v])%list
            | None => pn
            end in
  let pn := match find_Database find with
            | Some v => (fst pn ++ ["namespace"], snd pn ++ [PString v])%list
            | None => pn
            end in
  let withSource (pn : list string * list param) :=
    match find_Source find with
    | Some v => (fst pn ++ ["source"], snd pn ++ [PString v])%list
    | None => pn
    end in
  match find_Version find with
  | Some v =>
      match ToStoredVersion false v "" with
      | Ok storedVersion =>
          Ok (withSource (fst pn ++ ["version"], snd pn ++ [PString storedVersion])%list)
      | Err e => Err e
      | Panic => Panic
      end
  | None => Ok (withSource pn)
  end.

Definition isBytebaseDatabase (d : Driver) : bool :=
  Contains (baseDSN d) "user=bb" && Contains (baseDSN d) "host=/tmp".

(** The text of the query for the filters that are set. *)
Definition historyQuery (find : MigrationHistoryFind) (paramNames : list string) : string :=
  let query := baseQuery ++ FormatParamNameInNumberedPosition paramNames ++
               "ORDER BY created_ts DESC" in
  match find_Limit find with
  | Some v => query ++ " LIMIT " ++ Itoa v
  | None => query
  end.

Definition FindMigrationHistoryList (find : MigrationHistoryFind)
  : M W (list MigrationHistory) :=
  pn <- liftResult (findParams find) ;;
  let query := historyQuery find (fst pn) in
  strict <- strictUseDb ;;
  d <- getDriver ;;
  let database := if strict then strictDatabase d else BytebaseDatabase in
  fun w =>
    let (history, w1) :=
      utilFindMigrationHistoryList query (snd pn) database find baseQuery w in
    match history with
    | Err e =>
        if negb (isBytebaseDatabase (driver w1)) then
          if negb (Contains e "invalid stored version") then (Err e, w1)
          else
            (updateMigrationHistoryStorageVersion ;;;
             utilFindMigrationHistoryList query (snd pn) BytebaseDatabase find baseQuery) w1
        else (Err e, w1)
    | _ => (history, w1)
    end.

End Driver.

(** ** Kinds of calls and of statements *)

(** Whether a call executes a statement outside a transaction. *)
Definition isExec (ev : event) : bool :=
  match ev with
  | EExec _ _ => true
  | _ => false
  end.

Definition notExec (ev : event) : bool := negb (isExec ev).

(** The statement as [Execute] looks at it. *)
Definition trimmed (stmt : string) : string := TrimLeft stmt [byte 32; byte 9].

(** The words of the specification: the statements that belong to none of
    the three buckets run outside a transaction. *)
Definition inTransaction (stmt : string) : bool :=
  negb (HasPrefix stmt "CREATE DATABASE ") &&
  negb (HasPrefix stmt "ALTER DATABASE" && Contains stmt " OWNER TO ") &&
  negb (HasPrefix stmt "\connect ").

(** Whether a call belongs to a transaction. *)
Definition isTx (ev : event) : bool :=
  match ev with
  | EBegin _ | ETxOwner | ETxExec _ | ECommit | ERollback => true
  | _ => false
  end.

Definition notTx (ev : event) : bool := negb (isTx ev).

(** A statement or a query of the open transaction. *)
Definition isTxStatement (ev : event) : bool :=
  match ev with
  | ETxOwner | ETxExec _ => true
  | _ => false
  end.

(** Every call that [m] adds to the log is of the kind [P]. *)
Definition adds (S : Type) (P : event -> bool) {A : Type} (m : M (World S) A) : Prop :=
  forall w, exists evs,
    events (snd (m w)) = (events w ++ evs)%list /\ forallb P evs = true.

End Pg.

(** ** A server with a [migration_history] table *)
Module History.
Import GoStrings Pg.

(** The table of the database the backfill is connected to, and the number
    of calls the server has answered. *)
Record Store : Type := {
  table : list ver;
  clock : nat
}.

(** What [UPDATE ... SET version = newVersion WHERE id = i AND version =
    oldVersion] does to the table. *)
Definition updateRows (newVersion : string) (i : Z) (oldVersion : string)
  (t : list ver) : list ver :=
  map (fun r => if Z.eqb (id r) i && String.eqb (version r) oldVersion
                then {| id := id r; version := newVersion |} else r) t.

Section Faulty.
(** Which calls fail, by their number, and with which error. *)
Variable fault : nat -> option error.

Definition answer {A} (a : A) (t : list ver) (s : Store) : result A * Store :=
  match fault (clock s) with
  | Some e => (Err e, {| table := table s; clock := Datatypes.S (clock s) |})
  | None => (Ok a, {| table := t; clock := Datatypes.S (clock s) |})
  end.

Definition faulty : SqlServer Store := {|
  sqlOpen := fun _ s => answer tt (table s) s;
  sqlClose := fun _ s => answer tt (table s) s;
  sqlPing := fun _ s => answer tt (table s) s;
  sqlQueryDatabases := fun _ s =>
    answer [{| name := "postgres"; encoding := "UTF8"; collate := "C" |}] (table s) s;
  sqlExec := fun _ _ s => answer tt (table s) s;
  sqlBegin := fun _ s => answer tt (table s) s;
  sqlTxOwnerRows := fun _ s => answer [Ok "postgres"] (table s) s;
  sqlTxExec := fun _ _ s => answer tt (table s) s;
  sqlCommit := fun _ s => fault (clock s);
  sqlNeedsSetupSchema := fun _ _ s => answer false (table s) s;
  sqlQueryVersions := fun _ s => answer (table s) (table s) s;
  sqlUpdateVersion := fun _ newVersion i oldVersion s =>
    answer tt (updateRows newVersion i oldVersion (table s)) s
|}.
End Faulty.

(** What the backfill is meant to do to a row. *)
Definition backfillRow (prefix : string) (r : ver) : ver :=
  if HasPrefix (version r) prefix then r
  else {| id := id r; version := prefix ++ version r |}.

(** What the statement issued for the row [v] of the snapshot does to a
    row [r] of the table. *)
Definition rewriteFor (prefix : string) (v r : ver) : ver :=
  if HasPrefix (version v) prefix then r
  else if Z.eqb (id r) (id v) && String.eqb (version r) (version v)
       then {| id := id r; version := prefix ++ version v |}
       else r.

Definition rewriteAll (prefix : string) (vs : list ver) (r : ver) : ver :=
  fold_left (fun r v => rewriteFor prefix v r) vs r.

(** The table after the statements for a snapshot. *)
Definition tableAfter (prefix : string) (vers t : list ver) : list ver :=
  fold_left
    (fun t v =>
       if HasPrefix (version v) prefix then t
       else updateRows (prefix ++ version v) (id v) (version v) t)
    vers t.

End History.

(** ** The inbox store *)
Module Inbox.
Local Open Scope go_scope.

Record InboxSummary : Type := {
  HasUnread : bool;
  HasUnreadError : bool
}.

Definition unreadQuery : string :=
  "SELECT EXISTS (SELECT 1 FROM inbox WHERE receiver_id = ? AND status = 'UNREAD')".
Definition unreadErrorQuery : string :=
  "SELECT EXISTS (SELECT 1 FROM inbox WHERE receiver_id = ? AND status = 'UNREAD' AND level = 'ERROR')".

Inductive event : Type :=
| EBegin
| EQuery (query : string) (principalId : Z)
| ERollback.

(** The database of the store: [dbQuery] answers [tx.QueryContext] with
    the outcome of [row.Next(); row.Scan(&b)] on the rows it returns. *)
Record DB (S : Type) : Type := {
  dbBegin : S -> result unit * S;
  dbQuery : string -> Z -> S -> result (result bool) * S
}.
Arguments dbBegin {S}.
Arguments dbQuery {S}.

Record World (S : Type) : Type := {
  database : S;
  events : list event
}.
Arguments database {S}.
Arguments events {S}.
Arguments Build_World {S}.

Section Service.
Variable S : Type.
Variable sdb : DB S.
(** [FormatError] of the package, declared in another file. *)
Variable FormatError : error -> error.

Local Abbreviation W := (World S).

Definition call {A} (ev : event) (op : S -> result A * S) : M W A :=
  fun w =>
    let (r, s') := op (database w) in
    (r, Build_World s' (events w ++ [ev])).

Definition formatErr {A} (m : M W A) : M W A :=
  fun w =>
    match m w with
    | (Err e, w') => (Err (FormatError e), w')
    | r => r
    end.

Definition liftResult {A} (r : result A) : M W A := fun w => (r, w).

(** [defer tx.Rollback()]: the transaction is never committed. *)
Definition deferRollback {A} (body : M W A) : M W A :=
  fun w =>
    let (r, w') := body w in
    (r, Build_World (database w') (events w' ++ [ERollback])).

(** [tx.QueryContext], [row.Next()] and [row.Scan] of one flag. *)
Definition queryFlag (query : string) (principalId : Z) : M W bool :=
  row <- formatErr (call (EQuery query principalId) (dbQuery sdb query principalId)) ;;
  formatErr (liftResult row).

Definition FindInboxSummary (principalId : Z) : M W InboxSummary :=
  formatErr (call EBegin (dbBegin sdb)) ;;;
  deferRollback (
    hasUnread <- queryFlag unreadQuery principalId ;;
    if hasUnread then
      hasUnreadError <- queryFlag unreadErrorQuery principalId ;;
      ret {| HasUnread := hasUnread; HasUnreadError := hasUnreadError |}
    else
      ret {| HasUnread := hasUnread; HasUnreadError := false |}).
End Service.

(** An inbox table and the answers it gives. *)
Record InboxRow : Type := {
  receiver_id : Z;
  status : string;
  level : string
}.

Definition isUnreadOf (principalId : Z) (r : InboxRow) : bool :=
  Z.eqb (receiver_id r) principalId && String.eqb (status r) "UNREAD".

Definition tableDB : DB (list InboxRow) := {|
  dbBegin := fun t => (Ok tt, t);
  dbQuery := fun query principalId t =>
    (Ok (Ok (if String.eqb query unreadQuery
             then existsb (isUnreadOf principalId) t
             else existsb (fun r => isUnreadOf principalId r &&
                                    String.eqb (level r) "ERROR") t)), t)
|}.

End Inbox.

(** ** The GitLab webhook *)
Module Webhook.
Import GoStrings.

(** What a call of another package returns: a value, or a non-nil error. *)
Inductive called (A : Type) : Type :=
| Returned (a : A)
| Failed (err : error).
Arguments Returned {A} a.
Arguments Failed {A} err.

Record WebhookProject : Type := {
  ProjectID : Z;
  WebURL : string;
  FullPath : string
}.

Record WebhookCommit : Type := {
  CommitID : string;
  Title : string;
  Message : string;
  Timestamp : string;
  URL : string;
  CommitAuthorName : string;
  AddedList : list string
}.

Record WebhookPushEvent : Type := {
  ObjectKind : string;
  Ref : string;
  AuthorName : string;
  Project : WebhookProject;
  CommitList : list WebhookCommit
}.

Record VCS : Type := {
  InstanceURL : string;
  AccessToken : string;
  VCSType : string
}.

Record Repository : Type := {
  Name : string;
  SecretToken : string;
  ExternalId : string;
  BaseDirectory : string;
  ProjectId : Z;
  RepoVCS : VCS
}.

(** The fields of [db.MigrationInfo] that the handler reads. *)
Record MigrationInfo : Type := {
  miDatabase : string;
  miDescription : string
}.

(** The fields of [api.Database] that the handler reads. *)
Record Database : Type := {
  DatabaseID : Z;
  InstanceId : Z;
  DatabaseProjectId : Z;
  EnvironmentId : Z;
  EnvironmentName : string
}.

Record VCSFileCommit : Type := {
  fcID : string;
  fcTitle : string;
  fcMessage : string;
  fcCreatedTs : Z;
  fcURL : string;
  fcAuthorName : string;
  fcAdded : string
}.

Record VCSPushEvent : Type := {
  peVCSType : string;
  peRef : string;
  peRepositoryID : string;
  peRepositoryURL : string;
  peRepositoryFullPath : string;
  peAuthorName : string;
  peFileCommit : VCSFileCommit
}.

Record TaskCreate : Type := {
  taskInstanceId : Z;
  taskDatabaseId : option Z;
  taskName : string;
  taskStatus : string;
  taskType : string;
  taskStatement : string;
  taskVCSPushEvent : option VCSPushEvent
}.

Record StageCreate : Type := {
  stageEnvironmentId : Z;
  stageTaskList : list TaskCreate;
  stageName : string
}.

Record PipelineCreate : Type := {
  pipelineStageList : list StageCreate;
  pipelineName : string
}.

Record IssueCreate : Type := {
  issueProjectId : Z;
  issuePipeline : PipelineCreate;
  issueName : string;
  issueType : string;
  issueDescription : string;
  issueAssigneeId : Z
}.

(** The request as the handler reads it: the outcome of reading the body,
    the [X-Gitlab-Token] header and the path parameter [id]. *)
Record Request : Type := {
  body : called string;
  gitlabToken : string;
  endpointId : string
}.

(** What the handler hands to echo: an [*echo.HTTPError], or the outcome of
    [c.String]. *)
Inductive reply : Type :=
| HTTPError (code : nat) (message : string)
| Text (code : nat) (text : string).

Definition status (r : reply) : nat :=
  match r with
  | HTTPError code _ => code
  | Text code _ => code
  end.

Definition StatusOK : nat := 200.
Definition StatusBadRequest : nat := 400.
Definition StatusNotFound : nat := 404.
Definition StatusInternalServerError : nat := 500.

(** [time.Time{}.Unix()], the time used when the timestamp does not parse. *)
Definition zeroTimeUnix : Z := (-62135596800)%Z.

Section Handler.
(** The issue type of package [api] and the name of an issue. *)
Variable Issue : Type.
Variable IssueName : Issue -> string.

(** Constants of the packages [gitlab] and [api]. *)
Variable WebhookPush : string.
Variable TaskDatabaseSchemaUpdate : string.
Variable IssueDatabaseSchemaUpdate : string.
Variable SYSTEM_BOT_ID : Z.

(** The services and libraries the handler calls. *)
Variable jsonUnmarshal : string -> called WebhookPushEvent.
Variable FindRepository : string -> called Repository.
(** [bytebase.ErrorCode(err) == bytebase.ENOTFOUND] *)
Variable isNotFound : error -> bool.
(** fills in the relations of the repository it is given *)
Variable ComposeRepositoryRelationship : Repository -> called Repository.
Variable ParseMigrationInfo : string -> called MigrationInfo.
Variable QueryEscape : string -> string.
(** [gitlab.GET] and, on its response, [io.ReadAll(resp.Body)] *)
Variable gitlabGET : string -> string -> string -> called (called string).
Variable ComposeDatabaseByFind : Z -> string -> called Database.
(** [time.Parse(time.RFC3339, s)], as seconds since the epoch *)
Variable timeParse : string -> called Z.
(** [s.CreateIssue], given the issues this request has created so far *)
Variable CreateIssue : IssueCreate -> Z -> list Issue -> called Issue.

(** The body of the inner loop: [createdMessageList] and the issues
    created so far go in and come out. *)
Definition processAdded (repository : Repository) (pushEvent : WebhookPushEvent)
  (commit : WebhookCommit) (added : string)
  (st : list string * list Issue) : list string * list Issue :=
  let (createdMessageList, issues) := st in
  if HasPrefix added (BaseDirectory repository) && String.eqb (Ext added) ".sql" then
    let filename := Base added in
    match ParseMigrationInfo filename with
    | Failed _ => st
    | Returned mi =>
    match gitlabGET (InstanceURL (RepoVCS repository))
                    ("projects/" ++ ExternalId repository ++ "/repository/files/" ++
                     QueryEscape added ++ "/raw?ref=" ++ CommitID commit)
                    (AccessToken (RepoVCS repository)) with
    | Failed _ => st
    | Returned (Failed _) => st
    | Returned (Returned b) =>
    match ComposeDatabaseByFind (ProjectId repository) (miDatabase mi) with
    | Failed _ => st
    | Returned database =>
        let createdTime := match timeParse (Timestamp commit) with
                           | Returned t => t
                           | Failed _ => zeroTimeUnix
                           end in
        let vcsPushEvent := {|
          peVCSType := VCSType (RepoVCS repository);
          peRef := Ref pushEvent;
          peRepositoryID := Itoa (ProjectID (Project pushEvent));
          peRepositoryURL := WebURL (Project pushEvent);
          peRepositoryFullPath := FullPath (Project pushEvent);
          peAuthorName := AuthorName pushEvent;
          peFileCommit := {|
            fcID := CommitID commit;
            fcTitle := Title commit;
            fcMessage := Message commit;
            fcCreatedTs := createdTime;
            fcURL := URL commit;
            fcAuthorName := CommitAuthorName commit;
            fcAdded := added |} |} in
        let task := {|
          taskInstanceId := InstanceId database;
          taskDatabaseId := Some (DatabaseID database);
          taskName := miDescription mi;
          taskStatus := "PENDING";
          taskType := TaskDatabaseSchemaUpdate;
          taskStatement := b;
          taskVCSPushEvent := Some vcsPushEvent |} in
        let stage := {|
          stageEnvironmentId := EnvironmentId database;
          stageTaskList := [task];
          stageName := EnvironmentName database |} in
        let pipeline := {|
          pipelineStageList := [stage];
          pipelineName := "Pipeline - " ++ Title commit |} in
        let issueCreate := {|
          issueProjectId := DatabaseProjectId database;
          issuePipeline := pipeline;
          issueName := Title commit;
          issueType := IssueDatabaseSchemaUpdate;
          issueDescription := Message commit;
          issueAssigneeId := SYSTEM_BOT_ID |} in
        match CreateIssue issueCreate SYSTEM_BOT_ID issues with
        | Failed _ => st
        | Returned issue =>
            let message :=
              "Created issue '" ++ IssueName issue ++ "' on adding " ++ filename in
            ((createdMessageList ++ [message])%list, (issues ++ [issue])%list)
        end
    end end end
  else st.

(** The two loops, over the commits and over the paths each one added. *)
Definition processCommits (repository : Repository) (pushEvent : WebhookPushEvent)
  (st : list string * list Issue) : list string * list Issue :=
  fold_left
    (fun st commit =>
       fold_left (fun st added => processAdded repository pushEvent commit added st)
                 (AddedList commit) st)
    (CommitList pushEvent) st.

(** The handler of [POST /gitlab/:id]; [issues] are the issues created so
    far. *)
Definition handler (c : Request) (issues : list Issue) : reply * list Issue :=
  match body c with
  | Failed _ => (HTTPError StatusBadRequest "Failed to read webhook request", issues)
  | Returned b =>
  match jsonUnmarshal b with
  | Failed _ => (HTTPError StatusBadRequest "Malformatted push event", issues)
  | Returned pushEvent =>
      if negb (String.eqb (ObjectKind pushEvent) WebhookPush) then
        (HTTPError StatusBadRequest
           ("Invalid webhook event type, got " ++ ObjectKind pushEvent ++ ", want push"),
         issues)
      else
        let webhookEndpointId := endpointId c in
        match FindRepository webhookEndpointId with
        | Failed err =>
            if isNotFound err then
              (HTTPError StatusNotFound ("Endpoint not found: " ++ webhookEndpointId), issues)
            else
              (HTTPError StatusInternalServerError
                 ("Failed to respond webhook event for endpoint: " ++ webhookEndpointId),
               issues)
        | Returned found =>
        match ComposeRepositoryRelationship found with
        | Failed _ =>
            (HTTPError StatusInternalServerError
               ("Failed to fetch repository relationship: " ++ Name found), issues)
        | Returned repository =>
            if negb (String.eqb (gitlabToken c) (SecretToken repository)) then
              (HTTPError StatusBadRequest "Secret token mismatch", issues)
            else if negb (String.eqb (Itoa (ProjectID (Project pushEvent)))
                                     (ExternalId repository)) then
              (HTTPError StatusBadRequest
                 ("Project mismatch, got " ++ Itoa (ProjectID (Project pushEvent)) ++
                  ", want " ++ ExternalId repository), issues)
            else
              let (createdMessageList, issues') :=
                processCommits repository pushEvent ([], issues) in
              (Text StatusOK (Join createdMessageList newlineS), issues')
        end end
  end end.
End Handler.

(** The line that reports an issue created for an added path. *)
Definition createdLine (Issue : Type) (IssueName : Issue -> string) (ip : Issue * string)
  : string :=
  "Created issue '" ++ IssueName (fst ip) ++ "' on adding " ++ Base (snd ip).

(** The test of the handler on an added path. *)
Definition isMigrationPath (repository : Repository) (added : string) : bool :=
  HasPrefix added (BaseDirectory repository) && String.eqb (Ext added) ".sql".

(** What has been added to the state: the issues created, each with the
    path it was created for, all of them migration paths among [paths]. *)
Definition extends (Issue : Type) (IssueName : Issue -> string)
  (repository : Repository) (paths : list string)
  (st st' : list string * list Issue) : Prop :=
  exists created : list (Issue * string),
    fst st' = (fst st ++ map (createdLine Issue IssueName) created)%list /\
    snd st' = (snd st ++ map fst created)%list /\
    Forall (fun ip => In (snd ip) paths /\ isMigrationPath repository (snd ip) = true)
           created.

End Webhook.

(** ** Small instances of the environment, for the examples *)
Module Samples.
Import GoStrings.

(** A few of the reserved keywords of PostgreSQL. *)
Definition someReserved (s : string) : bool :=
  existsb (String.eqb s) ["SELECT"; "TABLE"; "USER"; "WHERE"].

Definition noUnicode (s : string) : string := s.

(** A driver connected to the database [app] of a local server. *)
Definition appDriver : Pg.Driver := {|
  Pg.db := Some "host=localhost user=admin dbname=app";
  Pg.baseDSN := "host=localhost user=admin";
  Pg.databaseName := "app";
  Pg.strictDatabase := ""
|}.

(** A world on the server of [History], with the given table. *)
Definition storeWorld (d : Pg.Driver) (t : list Pg.ver) : Pg.World History.Store := {|
  Pg.server := {| History.table := t; History.clock := 0 |};
  Pg.txn := None;
  Pg.driver := d;
  Pg.events := []
|}.

(** A GitLab project with one repository, and a push that adds a migration
    file and a README. *)
Definition pushEvent : Webhook.WebhookPushEvent := {|
  Webhook.ObjectKind := "push";
  Webhook.Ref := "refs/heads/main";
  Webhook.AuthorName := "dev";
  Webhook.Project := {| Webhook.ProjectID := 42; Webhook.WebURL := "https://gitlab.example/app";
                        Webhook.FullPath := "team/app" |};
  Webhook.CommitList := [
    {| Webhook.CommitID := "c1"; Webhook.Title := "Add column";
       Webhook.Message := "Add column c"; Webhook.Timestamp := "2021-07-01T00:00:00Z";
       Webhook.URL := "https://gitlab.example/app/c1"; Webhook.CommitAuthorName := "dev";
       Webhook.AddedList := ["sql/0004__add_col.sql"; "sql/README.md"] |} ]
|}.

Definition repository : Webhook.Repository := {|
  Webhook.Name := "app";
  Webhook.SecretToken := "s3cret";
  Webhook.ExternalId := "42";
  Webhook.BaseDirectory := "sql";
  Webhook.ProjectId := 1;
  Webhook.RepoVCS := {| Webhook.InstanceURL := "https://gitlab.example";
                        Webhook.AccessToken := "token"; Webhook.VCSType := "GITLAB_SELF_HOST" |}
|}.

(** Services that know this repository and never fail; an issue is
    identified with its name. *)
Definition unmarshal (b : string) : Webhook.called Webhook.WebhookPushEvent :=
  if String.eqb b "{push}" then Webhook.Returned pushEvent
  else Webhook.Failed "unexpected end of JSON input".

Definition findRepository (endpoint : string) : Webhook.called Webhook.Repository :=
  if String.eqb endpoint "ep1" then Webhook.Returned repository
  else Webhook.Failed "not found".

Definition notFound (err : error) : bool := String.eqb err "not found".

Definition compose (r : Webhook.Repository) : Webhook.called Webhook.Repository :=
  Webhook.Returned r.

Definition parseInfo (filename : string) : Webhook.called Webhook.MigrationInfo :=
  Webhook.Returned {| Webhook.miDatabase := "app"; Webhook.miDescription := "add col" |}.

Definition escape (path : string) : string := path.

Definition fetch (url path token : string) : Webhook.called (Webhook.called string) :=
  Webhook.Returned (Webhook.Returned "ALTER TABLE t ADD COLUMN c INT;").

Definition findDatabase (projectId : Z) (name : string) : Webhook.called Webhook.Database :=
  Webhook.Returned {| Webhook.DatabaseID := 5; Webhook.InstanceId := 3;
                      Webhook.DatabaseProjectId := 1; Webhook.EnvironmentId := 2;
                      Webhook.EnvironmentName := "prod" |}.

Definition parseTime (t : string) : Webhook.called Z := Webhook.Returned 1625097600%Z.

Definition createIssue (create : Webhook.IssueCreate) (creator : Z) (issues : list string)
  : Webhook.called string :=
  Webhook.Returned (Webhook.issueName create).

Definition handlerOn : Webhook.Request -> list string -> Webhook.reply * list string :=
  Webhook.handler string (fun name => name) "push" "bb.task.database.schema.update"
    "bb.issue.database.schema.update" 1
    unmarshal findRepository notFound compose parseInfo escape fetch findDatabase
    parseTime createIssue.

Definition pushRequest (token : string) : Webhook.Request := {|
  Webhook.body := Webhook.Returned "{push}";
  Webhook.gitlabToken := token;
  Webhook.endpointId := "ep1"
|}.

(** [%q] and the Unicode fields, good enough for ASCII samples. *)
Definition quoteQ (s : string) : string := GoStrings.DQ ++ s ++ GoStrings.DQ.
Definition uniFields (s : string) : list string := [s].

(** A splitter that takes every line of the script for a statement. *)
Definition splitLines (script : string) : list string * option error :=
  (GoStrings.Split script (GoStrings.byte 10), None).

Definition wrapError (stmt : string) (e : error) : error :=
  "execute query failed: " ++ e.

Definition migrationScript : string :=
  "CREATE DATABASE app;" ++ GoStrings.newlineS ++
  "ALTER DATABASE app OWNER TO bob;" ++ GoStrings.newlineS ++
  "\connect " ++ GoStrings.DQ ++ "app" ++ GoStrings.DQ ++ ";" ++ GoStrings.newlineS ++
  "CREATE TABLE t(id INT);" ++ GoStrings.newlineS ++
  "INSERT INTO t VALUES (1);".

(** The helpers of the query path on the server of [History]: a stored
    version is valid when it carries the prefix, and the query fails on a
    table with a version that does not. *)
Definition storedPrefix : string := "0000.0000.0000-".

Definition toStored (semantic : bool) (v suffix : string) : result string :=
  Ok (storedPrefix ++ v).

Definition formatParams (names : list string) : string := "".

Definition findHistory (query : string) (params : list Pg.param) (database : string)
  (find : Pg.MigrationHistoryFind) (baseQuery : string)
  : M (Pg.World History.Store) (list Pg.ver) :=
  fun w =>
    let t := History.table (Pg.server w) in
    if forallb (fun r => GoStrings.HasPrefix (Pg.version r) storedPrefix) t
    then (Ok t, w)
    else (Err "invalid stored version, should be in semantic or non-semantic form", w).

Definition allHistory : Pg.MigrationHistoryFind := {|
  Pg.find_ID := None; Pg.find_Database := None; Pg.find_Version := None;
  Pg.find_Source := None; Pg.find_Limit := None
|}.

(** A table written before versions were stored with a prefix. *)
Definition oldTable : list Pg.ver :=
  [{| Pg.id := 1; Pg.version := "0001" |};
   {| Pg.id := 2; Pg.version := "0000.0000.0000-0002" |}].

(** The driver of the metadata database of Bytebase itself. *)
Definition metadataDriver : Pg.Driver := {|
  Pg.db := Some "host=/tmp user=bb dbname=bytebase";
  Pg.baseDSN := "host=/tmp user=bb";
  Pg.databaseName := "bytebase";
  Pg.strictDatabase := ""
|}.

(** Every call fails. *)
Definition allFail (n : nat) : option error := Some "connection refused".

(** No call fails. *)
Definition noFault (n : nat) : option error := None.

(** Only the call with the given number fails. *)
Definition failAt (k : nat) (n : nat) : option error :=
  if Nat.eqb n k then Some "statement failed" else None.

End Samples.

(** ** More of the PostgreSQL driver: restore and dump *)
Module PgMore.
Import GoStrings Pg.
Local Open Scope go_scope.

(** What a run of [pg_dump] gives the driver: the errors of
    [cmd.StdoutPipe], [cmd.Start] and [cmd.Wait], if any, the lines that
    the scanner reads from its standard output before it stops, and the
    error with which it stops, if any ([s.Err()], which the driver only
    logs). *)
Record PgDumpRun : Type := {
  pipeError : option error;
  startError : option error;
  stdoutLines : list string;
  scanError : option error;
  waitError : option error
}.

(** The world of [Dump]: the world of the driver, the writer [out], the
    strings written to it, and the commands started (path, arguments,
    environment). *)
Record DumpWorld (S O : Type) : Type := {
  pgWorld : World S;
  out : O;
  chunks : list string;
  started : list (string * list string * list string)
}.
Arguments pgWorld {S O}.
Arguments out {S O}.
Arguments chunks {S O}.
Arguments started {S O}.
Arguments Build_DumpWorld {S O}.

(** [systemDatabases[name]]. *)
Definition systemDatabases (name : string) : bool :=
  String.eqb name "template0" || String.eqb name "template1".

(** A call that strict mode allows during the setup: the check for the
    table and the run of the migration schema. *)
Definition strictSetupCall (migrationSchema : string) (ev : event) : bool :=
  match ev with
  | ENeedsSetupSchema _ => true
  | EExec _ stmt => String.eqb stmt migrationSchema
  | _ => false
  end.

(** The DSNs on which [Close] was called, in order. *)
Definition closesOf (evs : list event) : list string :=
  flat_map (fun ev => match ev with EClose d => [d] | _ => [] end) evs.

(** The DSNs of the handles on which [Ping] was called, in order. *)
Definition pingsOf (evs : list event) : list string :=
  flat_map (fun ev => match ev with EPing d => [d] | _ => [] end) evs.

(** The updates of the backfill in the log. *)
Definition isUpdateVersion (ev : event) : bool :=
  match ev with
  | EUpdateVersion _ _ _ _ => true
  | _ => false
  end.

(** A byte of a database name that needs no care: an ASCII byte that is
    not white space, not a double quote and not a semicolon. *)
Definition plainNameByte (c : ascii) : bool :=
  Nat.ltb (code c) 128 && negb (asciiSpace c) && negb (Ascii.eqb c dquote) &&
  negb (Ascii.eqb c (byte 59)).

(** A byte of a word: an ASCII byte that is not white space. *)
Definition wordByte (c : ascii) : bool :=
  Nat.ltb (code c) 128 && negb (asciiSpace c).

(** A string of ASCII white space. *)
Definition whiteSpace (gap : string) : bool := forallbS asciiSpace gap.

(** What follows the first word of a statement: the semicolons that end
    the statement, the word not ending in one itself; or white space and
    then any ASCII text. *)
Definition afterWord (word tail : string) : bool :=
  (forallbS (fun c => Ascii.eqb c (byte 59)) tail &&
   String.eqb (TrimRight word [byte 59]) word) ||
  match tail with
  | String c _ => asciiSpace c && isASCII tail
  | EmptyString => false
  end.

(** A word without the double quotes at its two ends. *)
Definition unquoteWord (word : string) : string :=
  TrimRight (TrimLeft word [dquote]) [dquote].

(** A line that the filter of the dump drops whatever comes before it. *)
Definition droppedLine (line : string) : bool :=
  HasPrefix line "SET SESSION AUTHORIZATION " || HasPrefix line "--".

(** The lines that are neither empty nor dropped, in order. *)
Definition passingLines (lines : list string) : list string :=
  filter (fun l => negb (String.eqb l "") && negb (droppedLine l)) lines.

Definition nonEmptyLines (lines : list string) : list string :=
  filter (fun l => negb (String.eqb l "")) lines.

(** No empty line follows an empty line; [previousEmpty] tells whether the
    line before the first one was empty. *)
Fixpoint singleBlanks (previousEmpty : bool) (lines : list string) : bool :=
  match lines with
  | [] => true
  | l :: rest =>
      negb (previousEmpty && String.eqb l "") && singleBlanks (String.eqb l "") rest
  end.

(** What is written for the lines that are kept: each line, then a
    newline. *)
Definition writtenFor (kept : list string) : list string :=
  flat_map (fun l => [l; newlineS]) kept.

(** The databases that [Dump] hands to [pg_dump], given the catalog. *)
Definition dumpable (database : string) (databases : list pgDatabaseSchema) : list string :=
  if negb (String.eqb database "") then
    if existsb (fun n => String.eqb (name n) database) databases then [database] else []
  else map name (filter (fun n => negb (systemDatabases (name n))) databases).

Section Restore.
Variable S : Type.
Variable srv : SqlServer S.
Variable splitStatements : string -> list string * option error.
Variable wrapStatementError : string -> error -> error.

(** [Restore]; [sc] is the script behind the scanner. *)
Definition Restore (sc : string) : M (World S) unit :=
  BeginTx S srv ;;;
  deferRollback S
    (ApplyMultiStatements S splitStatements wrapStatementError sc
       (fun stmt _ => txExecContext S srv stmt) tt ;;;
     txCommit S srv).
End Restore.

Section Dump.
Variable S : Type.
Variable srv : SqlServer S.
(** The writer: a write fails or not, and leaves the writer in a new state. *)
Variable O : Type.
Variable write : string -> O -> option error * O.
(** The run of the command with the given path, arguments and environment
    on the server as it is. *)
Variable runPgDump : string -> list string -> list string -> S -> PgDumpRun.
(** [filepath.Join]. *)
Variable filepathJoin : list string -> string.
(** The fields [config] and [pgInstanceDir] of the driver, set by [Open]
    and [newDriver]. *)
Variable config : ConnectionConfig.
Variable pgInstanceDir : string.

Local Abbreviation DW := (DumpWorld S O).

(** A call of the driver in the world of [Dump]. *)
Definition liftPg {A} (m : M (World S) A) : M DW A :=
  fun w =>
    let (r, pw) := m (pgWorld w) in
    (r, Build_DumpWorld pw (out w) (chunks w) (started w)).

(** [io.WriteString(out, s)]; a string whose write fails is not counted as
    written. *)
Definition WriteString (s : string) : M DW unit :=
  fun w =>
    match write s (out w) with
    | (None, o) => (Ok tt, Build_DumpWorld (pgWorld w) o (chunks w ++ [s]) (started w))
    | (Some e, o) => (Err e, Build_DumpWorld (pgWorld w) o (chunks w) (started w))
    end.

(** The loop over the lines of the dump. *)
Fixpoint writeFiltered (lines : list string) (previousLineComment previousLineEmpty : bool)
  : M DW unit :=
  match lines with
  | [] => ret tt
  | line :: rest =>
      if HasPrefix line "SET SESSION AUTHORIZATION " then
        writeFiltered rest previousLineComment previousLineEmpty
      else if HasPrefix line "--" then
        writeFiltered rest true previousLineEmpty
      else if previousLineComment && String.eqb line "" then
        writeFiltered rest false previousLineEmpty
      else if String.eqb line "" && previousLineEmpty then
        writeFiltered rest false previousLineEmpty
      else
        WriteString line ;;;
        WriteString newlineS ;;;
        writeFiltered rest false (String.eqb line "")
  end.

(** The arguments of [pg_dump]. *)
Definition pgDumpArgs (database : string) (schemaOnly : bool) : list string :=
  let args : list string := [] in
  let args := (args ++ [("--username=" ++ Username config)%string])%list in
  let args := if String.eqb (Password config) "" then (args ++ ["--no-password"])%list
              else args in
  let args := (args ++ [("--host=" ++ Host config)%string])%list in
  let args := (args ++ [("--port=" ++ Port config)%string])%list in
  let args := if schemaOnly then (args ++ ["--schema-only"])%list else args in
  let args := (args ++ ["--inserts"])%list in
  let args := (args ++ ["--use-set-session-authorization"])%list in
  (args ++ [database])%list.

(** [cmd.Env]. *)
Definition pgDumpEnv : list string :=
  if negb (String.eqb (Password config) "") then ["PGPASSWORD=" ++ Password config]
  else [].

Definition dumpOneDatabaseWithPgDump (database : string) (schemaOnly includeUseDatabase : bool)
  : M DW unit :=
  let args := pgDumpArgs database schemaOnly in
  let pgDumpPath := filepathJoin [pgInstanceDir; "bin"; "pg_dump"] in
  fun w =>
    let run := runPgDump pgDumpPath args pgDumpEnv (server (pgWorld w)) in
    match pipeError run with
    | Some e => (Err e, w)
    | None =>
        match startError run with
        | Some e => (Err e, w)
        | None =>
            (writeFiltered (stdoutLines run) false false ;;;
             match scanError run with
             | Some _ => ret tt (* [log.Warn] *)
             | None => ret tt
             end ;;;
             match waitError run with
             | Some e => fail e
             | None => ret tt
             end)
              (Build_DumpWorld (pgWorld w) (out w) (chunks w)
                 (started w ++ [(pgDumpPath, args, pgDumpEnv)]))
        end
    end.

(** The loop of [Dump] over the databases to dump. *)
Fixpoint dumpEach (dumpableDbNames : list string) (schemaOnly includeUseDatabase : bool)
  : M DW unit :=
  match dumpableDbNames with
  | [] => ret tt
  | dbName :: rest =>
      dumpOneDatabaseWithPgDump dbName schemaOnly includeUseDatabase ;;;
      dumpEach rest schemaOnly includeUseDatabase
  end.

Definition Dump (database : string) (schemaOnly : bool) : M DW string :=
  databases <- liftPg (mapErr S (fun e => "failed to get databases: " ++ e)
                              (getDatabases S srv)) ;;
  dumpableDbNames <-
    (if negb (String.eqb database "") then
       if existsb (fun n => String.eqb (name n) database) databases
       then ret [database]
       else fail ("database " ++ database ++ " not found")
     else
       ret (map name (filter (fun n => negb (systemDatabases (name n))) databases))) ;;
  dumpEach dumpableDbNames schemaOnly (Nat.ltb 1 (List.length dumpableDbNames)) ;;;
  ret "".
End Dump.

End PgMore.


(** ** More small instances of the environment *)
Module MoreSamples.
Import GoStrings.

(** A driver in strict database mode. *)
Definition strictDriver : Pg.Driver := {|
  Pg.db := Some "host=localhost user=admin dbname=app";
  Pg.baseDSN := "host=localhost user=admin dbname=app";
  Pg.databaseName := "app";
  Pg.strictDatabase := "app"
|}.

Definition schemaScript : string := "CREATE TABLE migration_history (id SERIAL);".

(** A server on which every handle opens, and only the database
    [postgres] answers a ping. *)
Definition onlyPostgres : Pg.SqlServer unit := {|
  Pg.sqlOpen := fun _ s => (Ok tt, s);
  Pg.sqlClose := fun _ s => (Ok tt, s);
  Pg.sqlPing := fun dsn s =>
    (if Contains dsn "dbname=postgres" then Ok tt else Err "database does not exist", s);
  Pg.sqlQueryDatabases := fun _ s =>
    (Ok [{| Pg.name := "template0"; Pg.encoding := "UTF8"; Pg.collate := "C" |};
         {| Pg.name := "postgres"; Pg.encoding := "UTF8"; Pg.collate := "C" |};
         {| Pg.name := "app"; Pg.encoding := "UTF8"; Pg.collate := "C" |}], s);
  Pg.sqlExec := fun _ _ s => (Ok tt, s);
  Pg.sqlBegin := fun _ s => (Ok tt, s);
  Pg.sqlTxOwnerRows := fun _ s => (Ok [], s);
  Pg.sqlTxExec := fun _ _ s => (Ok tt, s);
  Pg.sqlCommit := fun _ _ => None;
  Pg.sqlNeedsSetupSchema := fun _ _ s => (Ok false, s);
  Pg.sqlQueryVersions := fun _ s => (Ok [], s);
  Pg.sqlUpdateVersion := fun _ _ _ _ s => (Ok tt, s)
|}.

Definition unitWorld (d : Pg.Driver) : Pg.World unit := {|
  Pg.server := tt; Pg.txn := None; Pg.driver := d; Pg.events := []
|}.

Definition sameOrder (m : list (string * string)) : list (string * string) := m.

(** A configuration without a database name, read-only, in strict mode. *)
Definition readOnlyConfig : Pg.ConnectionConfig := {|
  Pg.Host := "localhost";
  Pg.Port := "5432";
  Pg.Username := "admin";
  Pg.Password := "";
  Pg.Database := "";
  Pg.TLS := {| Pg.SslCA := ""; Pg.SslCert := ""; Pg.SslKey := "" |};
  Pg.ReadOnly := true;
  Pg.StrictUseDb := false
|}.

(** A server like [onlyPostgres] whose catalog holds one database, with
    a space in its name. *)
Definition spaceCatalog : Pg.SqlServer unit := {|
  Pg.sqlOpen := fun _ s => (Ok tt, s);
  Pg.sqlClose := fun _ s => (Ok tt, s);
  Pg.sqlPing := fun _ s => (Ok tt, s);
  Pg.sqlQueryDatabases := fun _ s =>
    (Ok [{| Pg.name := "app db"; Pg.encoding := "UTF8"; Pg.collate := "C" |}], s);
  Pg.sqlExec := fun _ _ s => (Ok tt, s);
  Pg.sqlBegin := fun _ s => (Ok tt, s);
  Pg.sqlTxOwnerRows := fun _ s => (Ok [], s);
  Pg.sqlTxExec := fun _ _ s => (Ok tt, s);
  Pg.sqlCommit := fun _ _ => None;
  Pg.sqlNeedsSetupSchema := fun _ _ s => (Ok false, s);
  Pg.sqlQueryVersions := fun _ s => (Ok [], s);
  Pg.sqlUpdateVersion := fun _ _ _ _ s => (Ok tt, s)
|}.

(** The statement that creates the database [app db]. *)
Definition createAppDb : string :=
  "CREATE DATABASE " ++ DQ ++ "app db" ++ DQ ++ ";".

(** A push that adds a file beside the base directory [sql], under a
    directory whose name starts with it. *)
Definition siblingPushEvent : Webhook.WebhookPushEvent := {|
  Webhook.ObjectKind := "push";
  Webhook.Ref := "refs/heads/main";
  Webhook.AuthorName := "dev";
  Webhook.Project := {| Webhook.ProjectID := 42; Webhook.WebURL := "https://gitlab.example/app";
                        Webhook.FullPath := "team/app" |};
  Webhook.CommitList := [
    {| Webhook.CommitID := "c2"; Webhook.Title := "Drop all";
       Webhook.Message := "Drop all tables"; Webhook.Timestamp := "2021-07-01T00:00:00Z";
       Webhook.URL := "https://gitlab.example/app/c2"; Webhook.CommitAuthorName := "dev";
       Webhook.AddedList := ["sql_archive/0001__drop_all.sql"] |} ]
|}.

Definition siblingHandler : Webhook.Request -> list string -> Webhook.reply * list string :=
  Webhook.handler string (fun name => name) "push" "bb.task.database.schema.update"
    "bb.issue.database.schema.update" 1
    (fun _ => Webhook.Returned siblingPushEvent) Samples.findRepository Samples.notFound
    Samples.compose Samples.parseInfo Samples.escape Samples.fetch Samples.findDatabase
    Samples.parseTime Samples.createIssue.

(** The services of [Samples.handlerOn], except that the relations of the
    repository cannot be composed. *)
Definition composeFails (r : Webhook.Repository) : Webhook.called Webhook.Repository :=
  Webhook.Failed "project not found".

Definition brokenHandler : Webhook.Request -> list string -> Webhook.reply * list string :=
  Webhook.handler string (fun name => name) "push" "bb.task.database.schema.update"
    "bb.issue.database.schema.update" 1
    Samples.unmarshal Samples.findRepository Samples.notFound composeFails
    Samples.parseInfo Samples.escape Samples.fetch Samples.findDatabase
    Samples.parseTime Samples.createIssue.

(** A writer that takes everything. *)
Definition bufferWrite (s : string) (o : unit) : option error * unit := (None, o).

(** A run of [pg_dump] that prints a header, a setting of the session
    authorization and one statement. *)
Definition pgDumpOutput (path : string) (args env : list string) (s : unit)
  : PgMore.PgDumpRun := {|
  PgMore.pipeError := None;
  PgMore.startError := None;
  PgMore.stdoutLines :=
    ["--"; "-- PostgreSQL database dump"; "--"; "";
     "SET SESSION AUTHORIZATION 'admin';"; "";
     "CREATE TABLE t (id int);"; ""; ""; "-- done"];
  PgMore.scanError := None;
  PgMore.waitError := None
|}.

Definition joinSlash (parts : list string) : string := Join parts "/".

Definition dumpWorld : PgMore.DumpWorld unit unit := {|
  PgMore.pgWorld := unitWorld strictDriver;
  PgMore.out := tt;
  PgMore.chunks := [];
  PgMore.started := []
|}.

End MoreSamples.


(** ** The inbox store: lists of inboxes *)
Module InboxList.
Import GoStrings.
Local Open Scope go_scope.

(** [api.InboxFind]: nil pointers are [None]. *)
Record InboxFind : Type := {
  ID : option Z;
  ReceiverId : option Z;
  ReadCreatedAfterTs : option Z
}.

Inductive event : Type :=
| EBegin
| EQuery (query : string) (args : list Z)
| ERollback.

(** The database of the store: [dbQuery] answers [tx.QueryContext] with
    the rows that [rows.Next()] yields, each with the outcome of its
    [Scan], and with [rows.Err()]. *)
Record DB (S Inbox : Type) : Type := {
  dbBegin : S -> result unit * S;
  dbQuery : string -> list Z -> S -> result (list (result Inbox) * option error) * S
}.
Arguments dbBegin {S Inbox}.
Arguments dbQuery {S Inbox}.

Record World (S : Type) : Type := {
  database : S;
  events : list event
}.
Arguments database {S}.
Arguments events {S}.
Arguments Build_World {S}.

(** The number of bytes [c] in [s]. *)
Fixpoint countByte (c : ascii) (s : string) : nat :=
  match s with
  | EmptyString => 0
  | String x r => (if Ascii.eqb x c then 1 else 0) + countByte c r
  end.

(** The filters that are set, in the order of the fields. *)
Definition setFilters (find : InboxFind) : list Z :=
  flat_map (fun o : option Z => match o with Some v => [v] | None => [] end)
           [ID find; ReceiverId find; ReadCreatedAfterTs find].

(** The [WHERE] clause and the arguments of [findInboxList]. *)
Definition whereArgs (find : InboxFind) : list string * list Z :=
  let wa : list string * list Z := (["1 = 1"], []) in
  let wa := ((fst wa ++ ["inbox.activity_id = activity.id"])%list, snd wa) in
  let wa := match ID find with
            | Some v => ((fst wa ++ ["inbox.id = ?"])%list, (snd wa ++ [v])%list)
            | None => wa
            end in
  let wa := match ReceiverId find with
            | Some v => ((fst wa ++ ["receiver_id = ?"])%list, (snd wa ++ [v])%list)
            | None => wa
            end in
  match ReadCreatedAfterTs find with
  | Some v => ((fst wa ++ ["(status != 'READ' OR created_ts >= ?)"])%list,
               (snd wa ++ [v])%list)
  | None => wa
  end.

(** The text of the query, its layout put on one line. *)
Definition listQuery (find : InboxFind) : string :=
  "SELECT inbox.id, receiver_id, `status`, `level`, activity.id, activity.creator_id, activity.created_ts, activity.updater_id, activity.updated_ts, activity.container_id, activity.type, activity.comment, activity.payload FROM inbox, activity WHERE "
  ++ Join (fst (whereArgs find)) " AND " ++ " ORDER BY activity.created_ts DESC".

Section Service.
Variable S : Type.
(** [api.Inbox], with its activity. *)
Variable Inbox : Type.
Variable sdb : DB S Inbox.
(** [FormatError] of the package, declared in another file. *)
Variable FormatError : error -> error.
(** Package [bytebase], declared in other files: the error codes, and the
    error [&bytebase.Error{Code: code, Message: message}]. *)
Variable ENOTFOUND : string.
Variable ECONFLICT : string.
Variable bytebaseError : string -> string -> error.
(** [%+v] of [fmt] on a filter. *)
Variable showFind : InboxFind -> string.

Local Abbreviation W := (World S).

Definition call {A} (ev : event) (op : S -> result A * S) : M W A :=
  fun w =>
    let (r, s') := op (database w) in
    (r, Build_World s' (events w ++ [ev])).

Definition formatErr {A} (m : M W A) : M W A :=
  fun w =>
    match m w with
    | (Err e, w') => (Err (FormatError e), w')
    | r => r
    end.

Definition liftResult {A} (r : result A) : M W A := fun w => (r, w).

(** [defer tx.Rollback()]: the transaction is never committed. *)
Definition deferRollback {A} (body : M W A) : M W A :=
  fun w =>
    let (r, w') := body w in
    (r, Build_World (database w') (events w' ++ [ERollback])).

(** The loop over the rows: the first [Scan] that fails ends it. *)
Fixpoint scanRows (rows : list (result Inbox)) (list_ : list Inbox) : result (list Inbox) :=
  match rows with
  | [] => Ok list_
  | Ok inbox :: rest => scanRows rest (list_ ++ [inbox])%list
  | Err e :: _ => Err (FormatError e)
  | Panic :: _ => Panic
  end.

Definition findInboxList (find : InboxFind) : M W (list Inbox) :=
  let args := snd (whereArgs find) in
  rows <- formatErr (call (EQuery (listQuery find) args) (dbQuery sdb (listQuery find) args)) ;;
  list_ <- liftResult (scanRows (fst rows) []) ;;
  match snd rows with
  | Some e => fail (FormatError e)
  | None => ret list_
  end.

(** [FindInboxList]; with an error the caller is handed an empty list,
    which [result] leaves out. *)
Definition FindInboxList (find : InboxFind) : M W (list Inbox) :=
  formatErr (call EBegin (dbBegin sdb)) ;;;
  deferRollback (findInboxList find).

Definition FindInbox (find : InboxFind) : M W Inbox :=
  formatErr (call EBegin (dbBegin sdb)) ;;;
  deferRollback (
    list_ <- findInboxList find ;;
    if Nat.eqb (List.length list_) 0 then
      fail (bytebaseError ENOTFOUND ("inbox not found: " ++ showFind find))
    else if Nat.ltb 1 (List.length list_) then
      fail (bytebaseError ECONFLICT
              ("found " ++ Itoa (Z.of_nat (List.length list_)) ++ " inboxes with filter " ++
               showFind find ++ ", expect 1"))
    else
      match list_ with
      | inbox :: _ => ret inbox
      | [] => panic
      end).
End Service.

(** A table of inboxes, identified with their ids, all of the receiver 7;
    the query of a filter with an id finds the rows with that id. *)
Definition idTable : DB (list Z) Z := {|
  dbBegin := fun t => (Ok tt, t);
  dbQuery := fun query args t =>
    (Ok (match args with
         | [] => map (fun i => Ok i) t
         | i :: _ => map (fun i => Ok i) (filter (Z.eqb i) t)
         end, None), t)
|}.

End InboxList.


(** ** More of the PostgreSQL driver: the schema sync *)
Module PgSync.
Import GoStrings Pg PgMore.
Local Open Scope go_scope.

(** The structures of the driver that [SyncSchema] reads.  The fields are
    those of the source, with the name of the structure in front where
    two structures share a field name. *)
Record columnSchema : Type := {
  columnName : string;
  dataType : string;
  ordinalPosition : Z;
  characterMaximumLength : string;
  columnDefault : string;
  isNullable : bool;
  collationName : string;
  column_comment : string
}.

Record tableConstraint : Type := {
  constraint_name : string;
  constraint_schemaName : string;
  constraint_tableName : string;
  constraint : string
}.

Record tableSchema : Type := {
  table_schemaName : string;
  table_name : string;
  tableowner : string;
  table_comment : string;
  rowCount : Z;
  tableSizeByte : Z;
  indexSizeByte : Z;
  columns : list columnSchema;
  constraints : list tableConstraint
}.

Record viewSchema : Type := {
  view_schemaName : string;
  view_name : string;
  definition : string;
  view_comment : string
}.

Record indexSchema : Type := {
  index_schemaName : string;
  index_name : string;
  index_tableName : string;
  statement : string;
  unique : bool;
  methodType : string;
  columnExpressions : list string;
  index_comment : string
}.

(** The structures of package [db], with the fields that [SyncSchema]
    sets. *)
Record User : Type := {
  User_Name : string;
  User_Grant : string
}.

Record Column : Type := {
  Column_Name : string;
  Column_Position : Z;
  Column_Default : option string;
  Column_Type : string;
  Column_Nullable : bool;
  Column_Collation : string;
  Column_Comment : string
}.

Record Index : Type := {
  Index_Name : string;
  Index_Expression : string;
  Index_Position : Z;
  Index_Type : string;
  Index_Unique : bool;
  Index_Comment : string
}.

Record Table : Type := {
  Table_Name : string;
  Table_Type : string;
  Table_Comment : string;
  Table_RowCount : Z;
  Table_DataSize : Z;
  Table_IndexSize : Z;
  Table_ColumnList : list Column;
  Table_IndexList : list Index
}.

Record View : Type := {
  View_Name : string;
  View_CreatedTs : Z;
  View_Definition : string;
  View_Comment : string
}.

Record Schema (Extension : Type) : Type := {
  Schema_Name : string;
  Schema_CharacterSet : string;
  Schema_Collation : string;
  Schema_TableList : list Table;
  Schema_ViewList : list View;
  Schema_ExtensionList : list Extension
}.
Arguments Schema_Name {Extension}.
Arguments Schema_CharacterSet {Extension}.
Arguments Schema_Collation {Extension}.
Arguments Schema_TableList {Extension}.
Arguments Schema_ViewList {Extension}.
Arguments Schema_ExtensionList {Extension}.
Arguments Build_Schema {Extension}.

(** The functions that read the catalog for [SyncSchema], as far as it can
    tell: [getUserList] on the handle of the driver, and [getIndices],
    [getPgTables], [getViews] and [getExtensions] on the transaction, each
    with its result or its error; and the clock. *)
Record Catalog (S Extension : Type) : Type := {
  readUserList : string -> S -> result (list User) * S;
  readIndices : string -> S -> result (list indexSchema) * S;
  readPgTables : string -> S -> result (list tableSchema) * S;
  readViews : string -> S -> result (list viewSchema) * S;
  readExtensions : string -> S -> result (list Extension) * S;
  (** [time.Now().Unix()] for the view of the given number *)
  timeNowUnix : S -> nat -> Z
}.
Arguments readUserList {S Extension}.
Arguments readIndices {S Extension}.
Arguments readPgTables {S Extension}.
Arguments readViews {S Extension}.
Arguments readExtensions {S Extension}.
Arguments timeNowUnix {S Extension}.

(** [excludedDatabaseList]: the three names of the literal and the keys
    of [systemDatabases]. *)
Definition excludedDatabaseList (k : string) : bool :=
  existsb (String.eqb k) ["bytebase"; "rdsadmin"; "cloudsql"] || systemDatabases k.

(** The key of an index in [indicesMap]. *)
Definition indexKey (idx : indexSchema) : string :=
  index_schemaName idx ++ "." ++ index_tableName idx.

(** [indicesMap], a map from keys to lists of indices: an index is put at
    the end of the list of its key. *)
Definition indicesMapOf (indices : list indexSchema) : string -> list indexSchema :=
  fold_left
    (fun (indicesMap : string -> list indexSchema) idx =>
       fun key =>
         if String.eqb key (indexKey idx) then (indicesMap key ++ [idx])%list
         else indicesMap key)
    indices (fun _ => []).

Definition toColumn (col : columnSchema) : Column := {|
  Column_Name := columnName col;
  Column_Position := ordinalPosition col;
  Column_Default := Some (columnDefault col);
  Column_Type := dataType col;
  Column_Nullable := isNullable col;
  Column_Collation := collationName col;
  Column_Comment := column_comment col
|}.

(** The loop over the column expressions of an index, from position [i]. *)
Fixpoint indexEntries (idx : indexSchema) (i : Z) (exprs : list string) : list Index :=
  match exprs with
  | [] => []
  | colExp :: rest =>
      {| Index_Name := index_name idx;
         Index_Expression := colExp;
         Index_Position := (i + 1)%Z;
         Index_Type := methodType idx;
         Index_Unique := unique idx;
         Index_Comment := index_comment idx |} :: indexEntries idx (i + 1)%Z rest
  end.

Definition toTable (indicesMap : string -> list indexSchema) (tbl : tableSchema) : Table :=
  let tableName := table_schemaName tbl ++ "." ++ table_name tbl in
  {| Table_Name := tableName;
     Table_Type := "BASE TABLE";
     Table_Comment := table_comment tbl;
     Table_RowCount := rowCount tbl;
     Table_DataSize := tableSizeByte tbl;
     Table_IndexSize := indexSizeByte tbl;
     Table_ColumnList := map toColumn (columns tbl);
     Table_IndexList :=
       flat_map (fun idx => indexEntries idx 0 (columnExpressions idx))
                (indicesMap tableName) |}.

(** The loop over the views; [now] reads the clock for the view of the
    given number. *)
Fixpoint toViews (now : nat -> Z) (i : nat) (views : list viewSchema) : list View :=
  match views with
  | [] => []
  | view :: rest =>
      {| View_Name := view_schemaName view ++ "." ++ view_name view;
         View_CreatedTs := now i;
         View_Definition := definition view;
         View_Comment := view_comment view |} :: toViews now (Datatypes.S i) rest
  end.

Section Sync.
Variable S : Type.
Variable Extension : Type.
Variable srv : SqlServer S.
Variable cat : Catalog S Extension.
(** [fmt]'s [%q] *)
Variable quoteQ : string -> string.

Local Abbreviation W := (World S).

(** A read on the handle of the driver; a nil handle panics. *)
Definition dbRead {A} (op : string -> S -> result A * S) : M W A :=
  withDb S (fun dsn w =>
    let (r, s') := op dsn (server w) in
    (r, Build_World s' (txn w) (driver w) (events w))).

(** A read on the open transaction. *)
Definition txRead {A} (op : string -> S -> result A * S) : M W A :=
  fun w =>
    match txn w with
    | Some (dsn, wk) =>
        let (r, wk') := op dsn wk in
        (r, Build_World (server w) (Some (dsn, wk')) (driver w) (events w))
    | None => (Err errTxDone, w)
    end.

(** The clock, as the transaction sees it. *)
Definition clock : M W (nat -> Z) :=
  fun w =>
    (Ok (timeNowUnix cat (match txn w with Some (_, wk) => wk | None => server w end)), w).

(** The body of the loop of [SyncSchema] for a database that is not
    excluded.  The deferred rollbacks run when [SyncSchema] returns; the
    transaction of an iteration that went through is over by then, so only
    the rollback of the iteration that returned can do anything: it stands
    here around the rest of its iteration. *)
Definition syncDatabase (database : pgDatabaseSchema) : M W (Schema Extension) :=
  let dbName := name database in
  mapErr S (fun e => "failed to get database connection for " ++ quoteQ dbName ++ ": " ++ e)
         (GetDbConnection S srv dbName) ;;;
  BeginTx S srv ;;;
  deferRollback S (
    indices <- mapErr S (fun e => "failed to get indices from database " ++ quoteQ dbName ++
                                  ": " ++ e)
                      (txRead (readIndices cat)) ;;
    let indicesMap := indicesMapOf indices in
    tables <- mapErr S (fun e => "failed to get tables from database " ++ quoteQ dbName ++
                                 ": " ++ e)
                     (txRead (readPgTables cat)) ;;
    let tableList := map (toTable indicesMap) tables in
    views <- mapErr S (fun e => "failed to get views from database " ++ quoteQ dbName ++
                                ": " ++ e)
                    (txRead (readViews cat)) ;;
    now <- clock ;;
    let viewList := toViews now 0 views in
    extensions <- mapErr S (fun e => "failed to get extensions from database " ++
                                     quoteQ dbName ++ ": " ++ e)
                         (txRead (readExtensions cat)) ;;
    txCommit S srv ;;;
    ret {| Schema_Name := dbName;
           Schema_CharacterSet := encoding database;
           Schema_Collation := collate database;
           Schema_TableList := tableList;
           Schema_ViewList := viewList;
           Schema_ExtensionList := extensions |}).

(** The loop of [SyncSchema] over the databases. *)
Fixpoint syncEach (databases : list pgDatabaseSchema) (schemaList : list (Schema Extension))
  : M W (list (Schema Extension)) :=
  match databases with
  | [] => ret schemaList
  | database :: rest =>
      if excludedDatabaseList (name database) then syncEach rest schemaList
      else
        schema <- syncDatabase database ;;
        syncEach rest (schemaList ++ [schema])%list
  end.

Definition SyncSchema : M W (list User * list (Schema Extension)) :=
  userList <- dbRead (readUserList cat) ;;
  databases <- mapErr S (fun e => "failed to get databases: " ++ e) (getDatabases S srv) ;;
  schemaList <- syncEach databases [] ;;
  ret (userList, schemaList).
End Sync.

(** On a driver whose base DSN is [base], the handles that [m] opens are
    on DSNs of the kind [P], and [m] leaves the base DSN as it is. *)
Definition opensOnly (S : Type) (base : string) (P : string -> Prop) {A : Type}
  (m : M (World S) A) : Prop :=
  forall w, baseDSN (driver w) = base ->
    exists evs,
      events (snd (m w)) = (events w ++ evs)%list /\
      Forall P (opensOf evs) /\
      baseDSN (driver (snd (m w))) = base.

(** A catalog without tables, views, indices or extensions, and a user. *)
Definition emptyCatalog : Catalog unit string := {|
  readUserList := fun _ s => (Ok [{| User_Name := "admin"; User_Grant := "superuser" |}], s);
  readIndices := fun _ s => (Ok [], s);
  readPgTables := fun _ s => (Ok [], s);
  readViews := fun _ s => (Ok [], s);
  readExtensions := fun _ s => (Ok [], s);
  timeNowUnix := fun _ _ => 1625097600%Z
|}.

End PgSync.


(** * Properties *)

(** ** Identifier quoting *)
Section QuoteFacts.
Import GoStrings Quote.
Variable unicodeToUpper : string -> string.
Variable reserved : string -> bool.

Local Abbreviation quoteIdentifier := (Quote.quoteIdentifier unicodeToUpper reserved).
Local Abbreviation needsQuote := (Quote.needsQuote unicodeToUpper reserved).

Lemma needsQuote_eq (s : string) :
  needsQuote s = reserved (ToUpper unicodeToUpper s) || negb (ident_MatchString s).
Proof.
  unfold Quote.needsQuote.
  destruct (reserved _), (ident_MatchString s); reflexivity.
Qed.

Lemma length_append (a b : string) :
  String.length (a ++ b) = String.length a + String.length b.
Proof. induction a as [|c a IH]; simpl; [reflexivity | now rewrite IH]. Qed.

Lemma length_ReplaceAll (s : string) (old : ascii) (new : string) :
  1 <= String.length new -> String.length s <= String.length (ReplaceAll s old new).
Proof.
  intros Hn. induction s as [|c s IH]; simpl; [lia|].
  destruct (Ascii.eqb c old); simpl; [rewrite length_append|]; lia.
Qed.

(** A byte below 128 starts none of the two folded runes. *)
Lemma ascii_not_fold2 (c c2 : ascii) : Nat.ltb (code c) 128 = true -> isFold2 c c2 = false.
Proof.
  intros H. apply Nat.ltb_lt in H. unfold isFold2.
  destruct (Nat.eqb_spec (code c) 197); [lia | reflexivity].
Qed.

Lemma ascii_not_fold3 (c c2 c3 : ascii) :
  Nat.ltb (code c) 128 = true -> isFold3 c c2 c3 = false.
Proof.
  intros H. apply Nat.ltb_lt in H. unfold isFold3.
  destruct (Nat.eqb_spec (code c) 226); [lia | reflexivity].
Qed.

Lemma identRest_ascii (s : string) :
  isASCII s = true -> identRest s = forallbS identByte s.
Proof.
  induction s as [|c r IH]; simpl; [reflexivity|].
  intros H. apply andb_prop in H. destruct H as [Hc Hr].
  destruct (identByte c); simpl; [now apply IH|].
  destruct r as [|c2 r2]; [reflexivity|].
  rewrite (ascii_not_fold2 c c2 Hc).
  destruct r2 as [|c3 r3]; [reflexivity|].
  now rewrite (ascii_not_fold3 c c2 c3 Hc).
Qed.

(** On ASCII strings [ident] is the pattern of the specification. *)
Lemma ident_ascii (s : string) :
  isASCII s = true -> ident_MatchString s = matchesIdentPattern s.
Proof.
  destruct s as [|c r]; simpl; [reflexivity|].
  intros H. apply andb_prop in H. destruct H as [Hc Hr].
  destruct (identStartByte c); simpl; [now apply identRest_ascii|].
  destruct r as [|c2 r2]; [reflexivity|].
  rewrite (ascii_not_fold2 c c2 Hc).
  destruct r2 as [|c3 r3]; [reflexivity|].
  now rewrite (ascii_not_fold3 c c2 c3 Hc).
Qed.

(** A string that starts with a double quote is not an identifier. *)
Lemma ident_quoted (s : string) : ident_MatchString (DQ ++ s) = false.
Proof.
  simpl. destruct s as [|c2 r2]; [reflexivity|].
  simpl. destruct r2; reflexivity.
Qed.

(** C4. For every string [s], [quoteIdentifier s] is [s] between double
    quotes with each double quote of [s] doubled exactly when the upper
    case of [s] is in the reserved set or [s] does not match the pattern
    [ident], and is [s] itself otherwise; on ASCII strings the pattern is
    [^[A-Za-z_][A-Za-z0-9_$]*$]; Select is quoted when SELECT is
    reserved, plain is left alone when PLAIN is not, and the string made
    of a, a double quote and b comes back between double quotes with its
    double quote doubled. *)
Theorem quoteIdentifier_spec :
  (forall s,
      quoteIdentifier s =
      if reserved (ToUpper unicodeToUpper s) || negb (ident_MatchString s)
      then DQ ++ ReplaceAll s dquote (DQ ++ DQ) ++ DQ
      else s) /\
  (forall s, isASCII s = true -> ident_MatchString s = matchesIdentPattern s) /\
  (reserved "SELECT" = true -> quoteIdentifier "Select" = DQ ++ "Select" ++ DQ) /\
  (reserved "PLAIN" = false -> quoteIdentifier "plain" = "plain") /\
  quoteIdentifier ("a" ++ DQ ++ "b") = DQ ++ "a" ++ DQ ++ DQ ++ "b" ++ DQ.
Proof.
  split; [|split; [|split; [|split]]].
  - intros s. unfold Quote.quoteIdentifier. rewrite needsQuote_eq. reflexivity.
  - exact ident_ascii.
  - intros H. unfold Quote.quoteIdentifier. rewrite needsQuote_eq.
    change (ToUpper unicodeToUpper "Select") with "SELECT". rewrite H. reflexivity.
  - intros H. unfold Quote.quoteIdentifier. rewrite needsQuote_eq.
    change (ToUpper unicodeToUpper "plain") with "PLAIN". rewrite H. reflexivity.
  - unfold Quote.quoteIdentifier. rewrite needsQuote_eq.
    change (ident_MatchString ("a" ++ DQ ++ "b")) with false.
    rewrite orb_true_r. reflexivity.
Qed.

(** C5 (amended). [quoteIdentifier] returns its own output only when that
    output needed no quoting: if [s] needs no quoting, quoting it twice
    gives [s]; if [s] needed quoting, quoting its output [q] again gives
    [q] between a further pair of double quotes with every double quote of
    [q] doubled, which is never [q]. *)
Theorem quoteIdentifier_twice (s : string) :
  (needsQuote s = false ->
     quoteIdentifier (quoteIdentifier s) = quoteIdentifier s /\ quoteIdentifier s = s) /\
  (needsQuote s = true ->
     quoteIdentifier (quoteIdentifier s) = quoted (quoteIdentifier s) /\
     quoteIdentifier (quoteIdentifier s) <> quoteIdentifier s).
Proof.
  split; intros H.
  - assert (Hs : quoteIdentifier s = s)
      by (unfold Quote.quoteIdentifier; now rewrite H).
    split; [|exact Hs]. rewrite !Hs. reflexivity.
  - assert (Hq : quoteIdentifier s = quoted s)
      by (unfold Quote.quoteIdentifier; now rewrite H).
    assert (Hn : needsQuote (quoted s) = true).
    { rewrite needsQuote_eq. unfold quoted. rewrite ident_quoted.
      apply orb_true_r. }
    rewrite Hq.
    assert (Hqq : quoteIdentifier (quoted s) = quoted (quoted s))
      by (unfold Quote.quoteIdentifier; now rewrite Hn).
    split; [exact Hqq|].
    rewrite Hqq. intros E. apply (f_equal String.length) in E.
    unfold quoted at 1 in E. unfold escapeQuotes at 1 in E.
    rewrite !length_append in E.
    pose proof (length_ReplaceAll (quoted s) dquote (DQ ++ DQ)) as L.
    simpl in L, E. specialize (L ltac:(lia)). lia.
Qed.
End QuoteFacts.

(** The examples of C4 on a sample of the reserved keywords. *)
Lemma quoteIdentifier_spec_witness :
  Quote.quoteIdentifier Samples.noUnicode Samples.someReserved "Select"
    = GoStrings.DQ ++ "Select" ++ GoStrings.DQ /\
  Quote.quoteIdentifier Samples.noUnicode Samples.someReserved "plain" = "plain".
Proof.
  destruct (quoteIdentifier_spec Samples.noUnicode Samples.someReserved)
    as (_ & _ & H1 & H2 & _).
  split; [apply H1; reflexivity | apply H2; reflexivity].
Defined.

(** The string [a b] needs quoting, and quoting its output again changes it. *)
Lemma quoteIdentifier_twice_witness :
  Quote.needsQuote Samples.noUnicode Samples.someReserved "a b" = true /\
  Quote.quoteIdentifier Samples.noUnicode Samples.someReserved
    (Quote.quoteIdentifier Samples.noUnicode Samples.someReserved "a b")
  <> Quote.quoteIdentifier Samples.noUnicode Samples.someReserved "a b".
Proof.
  split; [reflexivity|].
  apply (quoteIdentifier_twice Samples.noUnicode Samples.someReserved "a b").
  reflexivity.
Defined.

(** C5 as stated fails: [my table] needs quoting, its quoted form is quoted
    once more by a second call, and the two outputs differ. *)
Lemma quoteIdentifier_not_idempotent :
  Quote.needsQuote Samples.noUnicode Samples.someReserved "my table" = true /\
  Quote.quoteIdentifier Samples.noUnicode Samples.someReserved
    (Quote.quoteIdentifier Samples.noUnicode Samples.someReserved "my table")
  = GoStrings.DQ ++ GoStrings.DQ ++ GoStrings.DQ ++ "my table" ++
    GoStrings.DQ ++ GoStrings.DQ ++ GoStrings.DQ /\
  Quote.quoteIdentifier Samples.noUnicode Samples.someReserved
    (Quote.quoteIdentifier Samples.noUnicode Samples.someReserved "my table")
  <> Quote.quoteIdentifier Samples.noUnicode Samples.someReserved "my table".
Proof.
  split; [reflexivity|]. split; [reflexivity|]. vm_compute. discriminate.
Qed.

(** ** Connection discovery *)
Section GuessFacts.
Import GoStrings Pg.
Variable S : Type.
Variable srv : SqlServer S.
Variable quoteQ : string -> string.
Variable mapOrder : list (string * string) -> list (string * string).

Local Abbreviation W := (World S).

Lemma opensOf_app (a b : list event) : opensOf (a ++ b) = (opensOf a ++ opensOf b)%list.
Proof. unfold opensOf. apply flat_map_app. Qed.

Lemma call_events {A} (ev : event) (op : S -> result A * S) (w : W) :
  events (snd (call S ev op w)) = (events w ++ [ev])%list.
Proof. unfold call. destruct (op (server w)); reflexivity. Qed.

Lemma accepts_opens (d : string) (w : W) :
  opensOf (events (snd (accepts S srv d w))) = (opensOf (events w) ++ [d])%list.
Proof.
  unfold accepts.
  pose proof (call_events (EOpen d) (sqlOpen srv d) w) as H1.
  destruct (call S (EOpen d) (sqlOpen srv d) w) as [r1 w1]. simpl in H1.
  assert (E1 : opensOf (events w1) = (opensOf (events w) ++ [d])%list)
    by (rewrite H1, opensOf_app; reflexivity).
  destruct r1; try exact E1.
  pose proof (call_events (EPing d) (sqlPing srv d) w1) as H2.
  destruct (call S (EPing d) (sqlPing srv d) w1) as [r2 w2]. simpl in H2.
  assert (E2 : opensOf (events w2) = (opensOf (events w) ++ [d])%list).
  { rewrite H2, opensOf_app, E1. simpl. now rewrite app_nil_r. }
  destruct r2; exact E2.
Qed.

(** The loop of the source finds what the words of the specification say. *)
Lemma tryGuesses_firstAccepting (dsn : string) (guesses opened : list string) (w : W) :
  exists opened',
    tryGuesses S srv dsn guesses opened w =
    (Ok (option_map (fun g => (g, dsnOfGuess dsn g))
                    (snd (fst (firstAccepting S srv dsn guesses w))), opened'),
     snd (firstAccepting S srv dsn guesses w)).
Proof.
  revert opened w. induction guesses as [|g rest IH]; intros opened w; simpl.
  - eexists. reflexivity.
  - unfold accepts.
    destruct (call S (EOpen (dsnOfGuess dsn g)) (sqlOpen srv (dsnOfGuess dsn g)) w)
      as [r1 w1].
    destruct r1.
    + destruct (call S (EPing (dsnOfGuess dsn g)) (sqlPing srv (dsnOfGuess dsn g)) w1)
        as [r2 w2].
      destruct r2; simpl.
      * eexists. reflexivity.
      * destruct (IH (dsnOfGuess dsn g :: opened) w2) as [o Ho]. rewrite Ho.
        destruct (firstAccepting S srv dsn rest w2) as [[tried hit] w3]. eexists. reflexivity.
      * destruct (IH (dsnOfGuess dsn g :: opened) w2) as [o Ho]. rewrite Ho.
        destruct (firstAccepting S srv dsn rest w2) as [[tried hit] w3]. eexists. reflexivity.
    + destruct (IH opened w1) as [o Ho]. rewrite Ho.
      destruct (firstAccepting S srv dsn rest w1) as [[tried hit] w3]. eexists. reflexivity.
    + destruct (IH opened w1) as [o Ho]. rewrite Ho.
      destruct (firstAccepting S srv dsn rest w1) as [[tried hit] w3]. eexists. reflexivity.
Qed.

Lemma firstAccepting_opens (dsn : string) (cands : list string) (w : W) :
  opensOf (events (snd (firstAccepting S srv dsn cands w))) =
  (opensOf (events w) ++ map (dsnOfGuess dsn) (fst (fst (firstAccepting S srv dsn cands w))))%list.
Proof.
  revert w. induction cands as [|c rest IH]; intros w; simpl.
  - now rewrite app_nil_r.
  - pose proof (accepts_opens (dsnOfGuess dsn c) w) as Ha.
    destruct (accepts S srv (dsnOfGuess dsn c) w) as [ok w1]. simpl in Ha.
    destruct ok; simpl; [exact Ha|].
    specialize (IH w1).
    destruct (firstAccepting S srv dsn rest w1) as [[tried hit] w2]. simpl in *.
    rewrite IH, Ha, <- app_assoc. reflexivity.
Qed.

(** The candidates tried are the first ones of the list, up to the winner. *)
Lemma firstAccepting_tried (dsn : string) (cands : list string) (w : W) :
  let r := firstAccepting S srv dsn cands w in
  (exists rest, cands = (fst (fst r) ++ rest)%list) /\
  (snd (fst r) = None -> fst (fst r) = cands) /\
  (forall g, snd (fst r) = Some g -> exists pre, fst (fst r) = (pre ++ [g])%list).
Proof.
  revert w. induction cands as [|c rest IH]; intros w; simpl.
  - split; [exists []; reflexivity|]. split; [reflexivity | discriminate].
  - destruct (accepts S srv (dsnOfGuess dsn c) w) as [ok w1].
    destruct ok; simpl.
    + split; [exists rest; reflexivity|]. split; [discriminate|].
      intros g Hg. injection Hg as <-. exists []. reflexivity.
    + specialize (IH w1). simpl in IH.
      destruct (firstAccepting S srv dsn rest w1) as [[tried hit] w2]. simpl in *.
      destruct IH as ([rest' Hr] & Hn & Hs).
      split; [exists rest'; now rewrite Hr at 1|].
      split; [intros H; now rewrite (Hn H)|].
      intros g Hg. destruct (Hs g Hg) as [pre Hp]. exists (c :: pre). now rewrite Hp.
Qed.

Lemma closeAll_ok (opened : list string) (w : W) :
  fst (closeAll S srv opened w) = Ok tt /\
  opensOf (events (snd (closeAll S srv opened w))) = opensOf (events w).
Proof.
  revert w. induction opened as [|d rest IH]; intros w; simpl.
  - split; reflexivity.
  - pose proof (call_events (EClose d) (sqlClose srv d) w) as H.
    destruct (call S (EClose d) (sqlClose srv d) w) as [r w1]. simpl in H.
    destruct (IH w1) as [I1 I2]. split; [exact I1|].
    rewrite I2, H, opensOf_app. simpl. now rewrite app_nil_r.
Qed.

(** C3. Without a database name the driver tries, in this order, the DSN
    without a database and then the databases bytebase, postgres and
    template1; with a database name it tries that database only.  It
    returns the first candidate on which a handle opens and answers a ping,
    with its DSN, and an error when no candidate does; [sql.Open] is called
    on the candidates up to the winner, in the order of the list, and on no
    other DSN. *)
Theorem guessDSN_order
  (username password hostname port database sslCA sslCert sslKey : string) (w : W) :
  let dsn := connectionDSN mapOrder username password hostname port sslCA sslCert sslKey in
  let candidates :=
    if String.eqb database "" then [""; "bytebase"; "postgres"; "template1"]
    else [database] in
  let tried := fst (fst (firstAccepting S srv dsn candidates w)) in
  let hit := snd (fst (firstAccepting S srv dsn candidates w)) in
  let run := guessDSN S srv quoteQ mapOrder
               username password hostname port database sslCA sslCert sslKey w in
  fst run =
    match hit with
    | Some g => Ok (g, if String.eqb g "" then dsn else (dsn ++ " dbname=" ++ g)%string)
    | None =>
        if String.eqb database ""
        then Err "cannot connecting instance, make sure the connection info is correct"
        else Err ("cannot connecting " ++ quoteQ database ++
                  ", make sure the connection info is correct and the database exists")
    end /\
  opensOf (events (snd run)) =
    (opensOf (events w) ++
     map (fun g => if String.eqb g "" then dsn else (dsn ++ " dbname=" ++ g)%string) tried)%list /\
  (exists rest, candidates = (tried ++ rest)%list) /\
  (hit = None -> tried = candidates) /\
  (forall g, hit = Some g -> exists pre, tried = (pre ++ [g])%list).
Proof.
  intros dsn candidates tried hit run.
  assert (Hc : guessesFor database = candidates).
  { unfold guessesFor, candidates. destruct (String.eqb database ""); reflexivity. }
  assert (Hd : forall g, dsnOfGuess dsn g =
                         if String.eqb g "" then dsn else (dsn ++ " dbname=" ++ g)%string).
  { intros g. unfold dsnOfGuess. destruct (String.eqb g ""); reflexivity. }
  pose proof (firstAccepting_tried dsn candidates w) as (Hpre & Hnone & Hsome).
  pose proof (firstAccepting_opens dsn candidates w) as Hopens.
  destruct (tryGuesses_firstAccepting dsn candidates [] w) as [opened' Htry].
  fold tried in Hpre, Hnone, Hsome, Hopens. fold hit in Hnone, Hsome, Htry.
  unfold run, guessDSN. fold dsn. rewrite Hc.
  unfold bind. rewrite Htry. simpl.
  destruct (closeAll_ok opened' (snd (firstAccepting S srv dsn candidates w)))
    as [Hok Hcl].
  destruct (closeAll S srv opened' (snd (firstAccepting S srv dsn candidates w)))
    as [rc wc]. simpl in Hok, Hcl. subst rc.
  assert (Hev : opensOf (events wc) =
                (opensOf (events w) ++
                 map (fun g => if String.eqb g "" then dsn else (dsn ++ " dbname=" ++ g)%string)
                     tried)%list).
  { rewrite Hcl, Hopens. f_equal. apply map_ext. exact Hd. }
  destruct hit as [g|]; simpl.
  - rewrite Hd. repeat split; auto.
  - destruct (String.eqb database ""); simpl; repeat split; auto.
Qed.

(** [Open] hands the discovery to [guessDSN] once the TLS material is
    consistent: an error of [guessDSN] is the error of [Open], and the
    database that [guessDSN] found is the one the driver is on. *)
Lemma Open_guesses (config : ConnectionConfig) (w : W) :
  (String.eqb (SslCert (TLS config)) "" && negb (String.eqb (SslKey (TLS config)) "")) ||
  (negb (String.eqb (SslCert (TLS config)) "") && String.eqb (SslKey (TLS config)) "") = false ->
  let guess :=
    guessDSN S srv quoteQ mapOrder (Username config) (Password config) (Host config)
      (Port config) (Database config) (SslCA (TLS config)) (SslCert (TLS config))
      (SslKey (TLS config)) w in
  (forall e, fst guess = Err e -> Open S srv quoteQ mapOrder config w = (Err e, snd guess)) /\
  (forall g dsn, fst guess = Ok (g, dsn) ->
                 databaseName (driver (snd (Open S srv quoteQ mapOrder config w))) = g).
Proof.
  intros Htls. cbv zeta. unfold Open. rewrite Htls. unfold bind.
  destruct (guessDSN S srv quoteQ mapOrder _ _ _ _ _ _ _ _ w) as [r w1]. simpl. split.
  - intros e ->. reflexivity.
  - intros g dsn ->. unfold getDriver, setDriver, call. simpl.
    match goal with |- context [sqlOpen srv ?d ?x] => destruct (sqlOpen srv d x) as [ro so] end.
    destruct ro; reflexivity.
Qed.
End GuessFacts.

(** ** The inbox summary *)
Section InboxFacts.
Import Inbox.
Variable S : Type.
Variable sdb : DB S.
Variable FormatError : error -> error.

Local Abbreviation FindInboxSummary := (Inbox.FindInboxSummary S sdb FormatError).

(** What [queryFlag] returns is what the scan of the row gave. *)
Lemma queryFlag_inv (query : string) (principalId : Z) (w w' : World S) (b : bool) :
  queryFlag S sdb FormatError query principalId w = (Ok b, w') ->
  exists s', dbQuery sdb query principalId (database w) = (Ok (Ok b), s') /\
             w' = Build_World s' (events w ++ [EQuery query principalId])%list.
Proof.
  unfold queryFlag, bind, formatErr, Inbox.call, Inbox.liftResult.
  destruct (dbQuery sdb query principalId (database w)) as [r s'].
  destruct r as [row| |]; try discriminate.
  destruct row; try discriminate.
  intros H. injection H as <- <-. exists s'. split; reflexivity.
Qed.

Lemma queryFlag_ok (query : string) (principalId : Z) (w : World S) (b : bool) (s' : S) :
  dbQuery sdb query principalId (database w) = (Ok (Ok b), s') ->
  queryFlag S sdb FormatError query principalId w =
  (Ok b, Build_World s' (events w ++ [EQuery query principalId])%list).
Proof.
  intros H. unfold queryFlag, bind, formatErr, Inbox.call, Inbox.liftResult.
  rewrite H. reflexivity.
Qed.

(** C10. A summary returned by [FindInboxSummary] never has
    [HasUnreadError] without [HasUnread]; when the first query answers that
    the receiver has no unread row, the summary has both flags false and no
    second query is made; and on a table without an unread row for the
    receiver that is what happens. *)
Theorem FindInboxSummary_error_implies_unread (principalId : Z) (w : World S) :
  (forall summary w',
      FindInboxSummary principalId w = (Ok summary, w') ->
      HasUnreadError summary = true -> HasUnread summary = true) /\
  (forall s1 s2,
      dbBegin sdb (database w) = (Ok tt, s1) ->
      dbQuery sdb unreadQuery principalId s1 = (Ok (Ok false), s2) ->
      FindInboxSummary principalId w =
      (Ok {| HasUnread := false; HasUnreadError := false |},
       Build_World s2
         (events w ++ [EBegin; EQuery unreadQuery principalId; ERollback])%list)) /\
  (forall t : list InboxRow,
      existsb (isUnreadOf principalId) t = false ->
      Inbox.FindInboxSummary (list InboxRow) tableDB FormatError principalId
        (Build_World t []) =
      (Ok {| HasUnread := false; HasUnreadError := false |},
       Build_World t [EBegin; EQuery unreadQuery principalId; ERollback])).
Proof.
  split; [|split].
  - intros summary w' H He.
    unfold Inbox.FindInboxSummary, bind, formatErr, deferRollback in H.
    destruct (Inbox.call S EBegin (dbBegin sdb) w) as [rb wb].
    destruct rb; try discriminate.
    destruct (queryFlag S sdb FormatError unreadQuery principalId wb) as [r1 w1].
    destruct r1 as [hasUnread| |]; try discriminate.
    destruct hasUnread.
    + destruct (queryFlag S sdb FormatError unreadErrorQuery principalId w1) as [r2 w2].
      destruct r2; try discriminate.
      simpl in H. injection H as <- _. reflexivity.
    + simpl in H. injection H as <- _. simpl in He. discriminate.
  - intros s1 s2 Hb Hq.
    unfold Inbox.FindInboxSummary, bind, formatErr, deferRollback, Inbox.call.
    rewrite Hb.
    rewrite (queryFlag_ok unreadQuery principalId
               (Build_World s1 (events w ++ [EBegin])%list) false s2 Hq).
    simpl. rewrite <- !app_assoc. reflexivity.
  - intros t Ht.
    unfold Inbox.FindInboxSummary, bind, formatErr, deferRollback, Inbox.call.
    unfold queryFlag, bind, formatErr, Inbox.call, Inbox.liftResult.
    cbn. rewrite Ht. reflexivity.
Qed.
End InboxFacts.

(** A receiver whose only row is read gets the summary without unread
    rows, after one query. *)
Lemma FindInboxSummary_error_implies_unread_witness :
  Inbox.FindInboxSummary (list Inbox.InboxRow) Inbox.tableDB (fun e => e) 7%Z
    (Inbox.Build_World
       [{| Inbox.receiver_id := 7%Z; Inbox.status := "READ"; Inbox.level := "ERROR" |}] []) =
  (Ok {| Inbox.HasUnread := false; Inbox.HasUnreadError := false |},
   Inbox.Build_World
     [{| Inbox.receiver_id := 7%Z; Inbox.status := "READ"; Inbox.level := "ERROR" |}]
     [Inbox.EBegin; Inbox.EQuery Inbox.unreadQuery 7%Z; Inbox.ERollback]).
Proof.
  apply (FindInboxSummary_error_implies_unread (list Inbox.InboxRow) Inbox.tableDB
           (fun e => e) 7%Z (Inbox.Build_World [] [])).
  reflexivity.
Defined.


(** ** The calls a computation adds to the log *)
Section EventFacts.
Import GoStrings Pg.
Variable S : Type.
Variable srv : SqlServer S.
(** The kind of calls that are allowed. *)
Variable P : event -> bool.
Hypothesis P_open : forall d, P (EOpen d) = true.
Hypothesis P_close : forall d, P (EClose d) = true.
Hypothesis P_databases : forall d, P (EQueryDatabases d) = true.

Local Abbreviation W := (World S).
Local Abbreviation adds := (Pg.adds S P).

Lemma adds_silent {A} (m : M W A) :
  (forall w, events (snd (m w)) = events w) -> adds m.
Proof. intros H w. exists []. rewrite H, app_nil_r. split; reflexivity. Qed.

Lemma adds_ret {A} (a : A) : adds (ret a).
Proof. now apply adds_silent. Qed.

Lemma adds_fail {A} (e : error) : adds (@fail W A e).
Proof. now apply adds_silent. Qed.

Lemma adds_bind {A B} (m : M W A) (k : A -> M W B) :
  adds m -> (forall a, adds (k a)) -> adds (bind m k).
Proof.
  intros Hm Hk w. unfold bind. destruct (Hm w) as (e1 & E1 & F1).
  destruct (m w) as [r w1]. simpl in E1.
  destruct r; try (exists e1; split; assumption).
  destruct (Hk a w1) as (e2 & E2 & F2). exists (e1 ++ e2)%list.
  rewrite E2, E1, app_assoc. split; [reflexivity|].
  rewrite forallb_app, F1, F2. reflexivity.
Qed.

Lemma adds_call {A} (ev : event) (op : S -> result A * S) :
  P ev = true -> adds (call S ev op).
Proof.
  intros H w. exists [ev]. unfold call. destruct (op (server w)). simpl.
  rewrite H. split; reflexivity.
Qed.

Lemma adds_withDb {A} (k : string -> M W A) :
  (forall dsn, adds (k dsn)) -> adds (withDb S k).
Proof.
  intros H w. unfold withDb. destruct (db (driver w)) as [dsn|]; [apply H|].
  exists []. simpl. now rewrite app_nil_r.
Qed.

Lemma adds_mapErr {A} (f : error -> error) (m : M W A) : adds m -> adds (mapErr S f m).
Proof.
  intros H w. unfold mapErr. destruct (H w) as (evs & E & F).
  destruct (m w) as [r w1]. exists evs. destruct r; split; assumption.
Qed.

Lemma adds_switchDatabase (dbName : string) : adds (switchDatabase S srv dbName).
Proof.
  unfold switchDatabase. apply adds_bind; [now apply adds_silent|].
  intros d. apply adds_bind.
  - destruct (db d); [apply adds_call, P_close | apply adds_ret].
  - intros _. apply adds_bind; [apply adds_call, P_open | intros _; now apply adds_silent].
Qed.

Lemma adds_GetDbConnection (database : string) : adds (GetDbConnection S srv database).
Proof.
  unfold GetDbConnection. apply adds_bind; [apply adds_switchDatabase|].
  intros _. apply adds_bind; [now apply adds_silent | intros d; apply adds_ret].
Qed.

Lemma adds_getDatabases : adds (getDatabases S srv).
Proof. apply adds_withDb. intros dsn. apply adds_call, P_databases. Qed.
End EventFacts.

(** ** Migration schema bootstrap *)
Section SetupFacts.
Import GoStrings Pg.
Variable S : Type.
Variable srv : SqlServer S.
Variable BytebaseDatabase : string.
Variable migrationSchema : string.
Variable FormatErrorWithQuery : error -> string -> error.

Local Abbreviation W := (World S).
Local Abbreviation NeedsSetupMigration := (Pg.NeedsSetupMigration S srv BytebaseDatabase).
Local Abbreviation SetupMigrationIfNeeded :=
  (Pg.SetupMigrationIfNeeded S srv BytebaseDatabase migrationSchema FormatErrorWithQuery).

Lemma NeedsSetupMigration_notExec : adds S notExec NeedsSetupMigration.
Proof.
  assert (Hs : adds S notExec (NeedsSetupMigrationSchema S srv)).
  { apply adds_withDb. intros dsn. now apply adds_call. }
  unfold Pg.NeedsSetupMigration. apply adds_bind; [now apply adds_silent|].
  intros strict. destruct strict; simpl; [exact Hs|].
  apply adds_bind.
  - unfold hasBytebaseDatabase. apply adds_bind.
    + now apply adds_getDatabases.
    + intros a. apply adds_ret.
  - intros e. destruct e; simpl; [|apply adds_ret].
    apply adds_bind; [now apply adds_switchDatabase | intros _; exact Hs].
Qed.

(** C9. Whenever [NeedsSetupMigration] returns an error,
    [SetupMigrationIfNeeded] returns nil and leaves the world as
    [NeedsSetupMigration] left it: the error is dropped, and no statement
    has been executed (neither [CREATE DATABASE] nor the migration
    schema). *)
Theorem SetupMigrationIfNeeded_swallows_error (w w1 : W) (e : error) :
  NeedsSetupMigration w = (Err e, w1) ->
  SetupMigrationIfNeeded w = (Ok tt, w1) /\
  exists evs, events w1 = (events w ++ evs)%list /\
              forallb (fun ev => negb (isExec ev)) evs = true.
Proof.
  intros H. split.
  - unfold Pg.SetupMigrationIfNeeded. rewrite H. reflexivity.
  - destruct (NeedsSetupMigration_notExec w) as (evs & E & F).
    rewrite H in E. exists evs. split; assumption.
Qed.
End SetupFacts.

(** On a server that refuses every call, the check fails and the setup
    reports success. *)
Lemma SetupMigrationIfNeeded_swallows_error_witness :
  Pg.SetupMigrationIfNeeded History.Store (History.faulty Samples.allFail) "bytebase"
    "CREATE TABLE migration_history (id SERIAL);" (fun e _ => e)
    (Samples.storeWorld Samples.appDriver []) =
  (Ok tt,
   {| Pg.server := {| History.table := []; History.clock := 1 |};
      Pg.txn := None;
      Pg.driver := Samples.appDriver;
      Pg.events := [Pg.EQueryDatabases "host=localhost user=admin dbname=app"] |}).
Proof.
  apply (SetupMigrationIfNeeded_swallows_error History.Store
           (History.faulty Samples.allFail) "bytebase"
           "CREATE TABLE migration_history (id SERIAL);" (fun e _ => e)
           (Samples.storeWorld Samples.appDriver []) _ "connection refused").
  reflexivity.
Defined.


(** ** The GitLab webhook *)
Section WebhookFacts.
Import GoStrings Webhook.
Variable Issue : Type.
Variable IssueName : Issue -> string.
Variable WebhookPush : string.
Variable TaskDatabaseSchemaUpdate : string.
Variable IssueDatabaseSchemaUpdate : string.
Variable SYSTEM_BOT_ID : Z.
Variable jsonUnmarshal : string -> called WebhookPushEvent.
Variable FindRepository : string -> called Repository.
Variable isNotFound : error -> bool.
Variable ComposeRepositoryRelationship : Repository -> called Repository.
Variable ParseMigrationInfo : string -> called MigrationInfo.
Variable QueryEscape : string -> string.
Variable gitlabGET : string -> string -> string -> called (called string).
Variable ComposeDatabaseByFind : Z -> string -> called Database.
Variable timeParse : string -> called Z.
Variable CreateIssue : IssueCreate -> Z -> list Issue -> called Issue.

Local Abbreviation handler :=
  (Webhook.handler Issue IssueName WebhookPush TaskDatabaseSchemaUpdate
     IssueDatabaseSchemaUpdate SYSTEM_BOT_ID jsonUnmarshal FindRepository isNotFound
     ComposeRepositoryRelationship ParseMigrationInfo QueryEscape gitlabGET
     ComposeDatabaseByFind timeParse CreateIssue).
Local Abbreviation processAdded :=
  (Webhook.processAdded Issue IssueName TaskDatabaseSchemaUpdate
     IssueDatabaseSchemaUpdate SYSTEM_BOT_ID ParseMigrationInfo QueryEscape gitlabGET
     ComposeDatabaseByFind timeParse CreateIssue).
Local Abbreviation processCommits :=
  (Webhook.processCommits Issue IssueName TaskDatabaseSchemaUpdate
     IssueDatabaseSchemaUpdate SYSTEM_BOT_ID ParseMigrationInfo QueryEscape gitlabGET
     ComposeDatabaseByFind timeParse CreateIssue).
Local Abbreviation createdLine := (Webhook.createdLine Issue IssueName).
Local Abbreviation extends := (Webhook.extends Issue IssueName).

(** C7 (amended). Once the body of the request is read and parsed as an
    event, the handler answers 400 and creates no issue when the kind of
    the event is not a push, and also when the repository of the endpoint
    is loaded and either the [X-Gitlab-Token] header differs from its
    secret token or the project id of the event, in decimal, differs from
    its external id.  The token and the project id are compared only once
    the repository is loaded: for a push whose repository cannot be found
    the answer is 404, or 500 when the lookup fails otherwise, and for a
    push whose repository is found but whose relations cannot be composed
    it is 500, whatever the token; no issue is created then either. *)
Theorem handler_rejects_mismatch (c : Request) (issues : list Issue)
  (b : string) (pushEvent : WebhookPushEvent) :
  body c = Returned b ->
  jsonUnmarshal b = Returned pushEvent ->
  (ObjectKind pushEvent <> WebhookPush \/
   (exists found repository,
       FindRepository (endpointId c) = Returned found /\
       ComposeRepositoryRelationship found = Returned repository /\
       (gitlabToken c <> SecretToken repository \/
        Itoa (ProjectID (Project pushEvent)) <> ExternalId repository)) ->
   status (fst (handler c issues)) = 400 /\ snd (handler c issues) = issues) /\
  (ObjectKind pushEvent = WebhookPush ->
   (forall err,
       FindRepository (endpointId c) = Failed err ->
       status (fst (handler c issues)) = (if isNotFound err then 404 else 500) /\
       snd (handler c issues) = issues) /\
   (forall found err,
       FindRepository (endpointId c) = Returned found ->
       ComposeRepositoryRelationship found = Failed err ->
       status (fst (handler c issues)) = 500 /\ snd (handler c issues) = issues)).
Proof.
  intros Hb Hj. split.
  - intros H. unfold Webhook.handler. rewrite Hb, Hj.
    destruct (String.eqb_spec (ObjectKind pushEvent) WebhookPush) as [Hk|Hk]; simpl;
      [|split; reflexivity].
    destruct H as [H|(found & repository & Hf & Hc & H)]; [contradiction|].
    rewrite Hf, Hc.
    destruct (String.eqb_spec (gitlabToken c) (SecretToken repository)) as [Ht|Ht]; simpl;
      [|split; reflexivity].
    destruct (String.eqb_spec (Itoa (ProjectID (Project pushEvent))) (ExternalId repository))
      as [Hp|Hp]; simpl; [|split; reflexivity].
    destruct H; contradiction.
  - intros Hk. split.
    + intros err Hf. unfold Webhook.handler.
      rewrite Hb, Hj, Hk, String.eqb_refl. cbn [negb]. rewrite Hf.
      destruct (isNotFound err); split; reflexivity.
    + intros found err Hf Hc. unfold Webhook.handler.
      rewrite Hb, Hj, Hk, String.eqb_refl. cbn [negb]. rewrite Hf, Hc.
      split; reflexivity.
Qed.

(** One added path leaves the state alone or adds one issue and its line. *)
Lemma processAdded_cases (repository : Repository) (pushEvent : WebhookPushEvent)
  (commit : WebhookCommit) (added : string) (st : list string * list Issue) :
  processAdded repository pushEvent commit added st = st \/
  (isMigrationPath repository added = true /\
   exists issue,
     processAdded repository pushEvent commit added st =
     ((fst st ++ [createdLine (issue, added)])%list, (snd st ++ [issue])%list)).
Proof.
  unfold Webhook.processAdded, isMigrationPath. destruct st as [msgs issues].
  destruct (HasPrefix added (BaseDirectory repository) && String.eqb (Ext added) ".sql");
    [|now left].
  destruct (ParseMigrationInfo (Base added)) as [mi|]; [|now left].
  destruct (gitlabGET _ _ _) as [[b|]|]; [|now left|now left].
  destruct (ComposeDatabaseByFind _ _) as [database|]; [|now left].
  destruct (CreateIssue _ _ _) as [issue|]; [|now left].
  right. split; [reflexivity|]. exists issue. reflexivity.
Qed.

(** The steps at which a path is given up. *)
Lemma processAdded_skips (repository : Repository) (pushEvent : WebhookPushEvent)
  (commit : WebhookCommit) (added : string) (st : list string * list Issue) :
  (isMigrationPath repository added = false ->
   processAdded repository pushEvent commit added st = st) /\
  (forall err, ParseMigrationInfo (Base added) = Failed err ->
   processAdded repository pushEvent commit added st = st) /\
  (forall err,
      gitlabGET (InstanceURL (RepoVCS repository))
        ("projects/" ++ ExternalId repository ++ "/repository/files/" ++
         QueryEscape added ++ "/raw?ref=" ++ CommitID commit)
        (AccessToken (RepoVCS repository)) = Failed err ->
   processAdded repository pushEvent commit added st = st) /\
  (forall err,
      gitlabGET (InstanceURL (RepoVCS repository))
        ("projects/" ++ ExternalId repository ++ "/repository/files/" ++
         QueryEscape added ++ "/raw?ref=" ++ CommitID commit)
        (AccessToken (RepoVCS repository)) = Returned (Failed err) ->
   processAdded repository pushEvent commit added st = st) /\
  (forall mi err,
      ParseMigrationInfo (Base added) = Returned mi ->
      ComposeDatabaseByFind (ProjectId repository) (miDatabase mi) = Failed err ->
   processAdded repository pushEvent commit added st = st) /\
  ((forall create, exists err,
       CreateIssue create SYSTEM_BOT_ID (snd st) = Failed err) ->
   processAdded repository pushEvent commit added st = st).
Proof.
  unfold Webhook.processAdded, isMigrationPath. destruct st as [msgs issues].
  repeat split.
  - intros H. now rewrite H.
  - intros err H. rewrite H. now destruct (_ && _).
  - intros err H. rewrite H. destruct (_ && _); [|reflexivity].
    now destruct (ParseMigrationInfo _).
  - intros err H. rewrite H. destruct (_ && _); [|reflexivity].
    now destruct (ParseMigrationInfo _).
  - intros mi err Hp H. rewrite Hp, H. destruct (_ && _); [|reflexivity].
    now destruct (gitlabGET _ _ _) as [[b|]|].
  - intros H. destruct (_ && _); [|reflexivity].
    destruct (ParseMigrationInfo _); [|reflexivity].
    destruct (gitlabGET _ _ _) as [[b|]|]; [|reflexivity|reflexivity].
    destruct (ComposeDatabaseByFind _ _); [|reflexivity].
    match goal with |- context [CreateIssue ?ic _ _] => destruct (H ic) as [err He] end.
    cbn [snd] in He. rewrite He. reflexivity.
Qed.

Lemma extends_refl repository paths st : extends repository paths st st.
Proof. exists []. simpl. rewrite !app_nil_r. repeat split. constructor. Qed.

Lemma extends_trans repository paths st1 st2 st3 :
  extends repository paths st1 st2 -> extends repository paths st2 st3 ->
  extends repository paths st1 st3.
Proof.
  intros (c1 & M1 & I1 & F1) (c2 & M2 & I2 & F2). exists (c1 ++ c2)%list.
  rewrite M2, M1, I2, I1, !map_app, !app_assoc. repeat split.
  apply Forall_app. split; assumption.
Qed.

Lemma extends_incl repository paths paths' st st' :
  incl paths paths' -> extends repository paths st st' -> extends repository paths' st st'.
Proof.
  intros Hi (c & M & I & F). exists c. repeat split; try assumption.
  eapply Forall_impl; [|exact F]. intros ip [Hin Hm]. split; [now apply Hi | exact Hm].
Qed.

Lemma processAdded_extends repository pushEvent commit added st :
  extends repository [added] st (processAdded repository pushEvent commit added st).
Proof.
  destruct (processAdded_cases repository pushEvent commit added st)
    as [H|(Hm & issue & H)]; rewrite H.
  - apply extends_refl.
  - exists [(issue, added)]. simpl. repeat split.
    constructor; [|constructor]. simpl. split; [now left | exact Hm].
Qed.

Lemma addedLoop_extends repository pushEvent commit (paths : list string) st :
  extends repository paths st
    (fold_left (fun st added => processAdded repository pushEvent commit added st) paths st).
Proof.
  revert st. induction paths as [|added rest IH]; intros st; simpl.
  - apply extends_refl.
  - apply extends_trans with (st2 := processAdded repository pushEvent commit added st).
    + apply extends_incl with (paths := [added]); [|apply processAdded_extends].
      intros x [<-|[]]. now left.
    + eapply extends_incl; [|apply IH]. intros x Hx. now right.
Qed.

Lemma commitLoop_extends repository pushEvent (commits : list WebhookCommit) st :
  extends repository (flat_map AddedList commits) st
    (fold_left
       (fun st commit =>
          fold_left (fun st added => processAdded repository pushEvent commit added st)
                    (AddedList commit) st)
       commits st).
Proof.
  revert st. induction commits as [|commit rest IH]; intros st; simpl.
  - apply extends_refl.
  - apply extends_trans
      with (st2 := fold_left
                     (fun st added => processAdded repository pushEvent commit added st)
                     (AddedList commit) st).
    + apply extends_incl with (paths := AddedList commit); [|apply addedLoop_extends].
      intros x Hx. apply in_or_app. now left.
    + eapply extends_incl; [|apply IH]. intros x Hx. apply in_or_app. now right.
Qed.

End WebhookFacts.

(** A push with a wrong token is answered 400, and no issue is created. *)
Lemma handler_rejects_mismatch_witness :
  Webhook.status (fst (Samples.handlerOn (Samples.pushRequest "guess") [])) = 400 /\
  snd (Samples.handlerOn (Samples.pushRequest "guess") []) = [].
Proof.
  apply (proj1 (handler_rejects_mismatch string (fun name => name) "push"
                  "bb.task.database.schema.update" "bb.issue.database.schema.update" 1
                  Samples.unmarshal Samples.findRepository Samples.notFound Samples.compose
                  Samples.parseInfo Samples.escape Samples.fetch Samples.findDatabase
                  Samples.parseTime Samples.createIssue
                  (Samples.pushRequest "guess") [] "{push}" Samples.pushEvent
                  eq_refl eq_refl)).
  right. exists Samples.repository, Samples.repository.
  split; [reflexivity|]. split; [reflexivity|]. left. discriminate.
Defined.

(** A push with a wrong token, on an endpoint whose repository is found
    but whose relations cannot be composed: the answer is 500, not 400. *)
Lemma handler_wrong_token_gets_500 :
  Webhook.gitlabToken (Samples.pushRequest "guess") <>
    Webhook.SecretToken Samples.repository /\
  MoreSamples.brokenHandler (Samples.pushRequest "guess") [] =
  (Webhook.HTTPError 500 "Failed to fetch repository relationship: app", []).
Proof. split; [discriminate | reflexivity]. Qed.


(** Scenario 4 of the specification: of the two added files only the
    migration file produces an issue, and the body has one line. *)
Example handler_two_files :
  Samples.handlerOn (Samples.pushRequest "s3cret") [] =
  (Webhook.Text 200 "Created issue 'Add column' on adding 0004__add_col.sql",
   ["Add column"]).
Proof. reflexivity. Qed.


(** ** Statement execution *)
Section ExecuteFacts.
Import GoStrings Pg.
Variable S : Type.
Variable srv : SqlServer S.
Variable quoteQ : string -> string.
Variable unicodeFields : string -> list string.
Variable splitStatements : string -> list string * option error.
Variable wrapStatementError : string -> error -> error.

Local Abbreviation W := (World S).
Local Abbreviation executeStmt := (Pg.executeStmt S srv quoteQ unicodeFields).
Local Abbreviation ApplyMultiStatements :=
  (@Pg.ApplyMultiStatements S splitStatements wrapStatementError (list string)).
Local Abbreviation applyStatements :=
  (@Pg.applyStatements S wrapStatementError (list string)).
Local Abbreviation Execute :=
  (Pg.Execute S srv quoteQ unicodeFields splitStatements wrapStatementError).

Lemma bind_Ok {A B} (m : M W A) (k : A -> M W B) (w w' : W) (b : B) :
  bind m k w = (Ok b, w') ->
  exists a w1, m w = (Ok a, w1) /\ k a w1 = (Ok b, w').
Proof.
  unfold bind. destruct (m w) as [r w1]. destruct r; try discriminate.
  intros H. exists a, w1. split; [reflexivity | exact H].
Qed.

(** Two prefixes with different first bytes exclude each other. *)
Lemma prefix_head (a b : ascii) (p q t : string) :
  a <> b -> String.prefix (String a p) t = true -> String.prefix (String b q) t = false.
Proof.
  intros Hab. destruct t as [|c t]; cbn [String.prefix]; [discriminate|].
  destruct (ascii_dec a c) as [<-|]; [|discriminate].
  destruct (ascii_dec b a) as [->|]; [contradiction | reflexivity].
Qed.

Lemma alter_not_create (t : string) :
  HasPrefix t "ALTER DATABASE" = true -> HasPrefix t "CREATE DATABASE " = false.
Proof. apply prefix_head. discriminate. Qed.

Lemma connect_not_create (t : string) :
  HasPrefix t "\connect " = true -> HasPrefix t "CREATE DATABASE " = false.
Proof. apply prefix_head. discriminate. Qed.

Lemma connect_not_alter (t : string) :
  HasPrefix t "\connect " = true -> HasPrefix t "ALTER DATABASE" = false.
Proof. apply prefix_head. discriminate. Qed.

(** A statement that is handled adds itself to the remaining statements
    exactly when it is in none of the three buckets. *)
Lemma executeStmt_remaining (stmt : string) (rem rem' : list string) (w w' : W) :
  executeStmt stmt rem w = (Ok rem', w') ->
  rem' = (rem ++ if inTransaction (trimmed stmt) then [trimmed stmt] else [])%list.
Proof.
  unfold Pg.executeStmt, inTransaction. fold (trimmed stmt).
  destruct (HasPrefix (trimmed stmt) "CREATE DATABASE "); simpl.
  - intros H. rewrite app_nil_r.
    apply bind_Ok in H. destruct H as (dbs & w1 & _ & H).
    apply bind_Ok in H. destruct H as (n & w2 & _ & H).
    destruct (negb _).
    + apply bind_Ok in H. destruct H as (u & w3 & _ & H). now injection H as <- _.
    + now injection H as <- _.
  - destruct (HasPrefix (trimmed stmt) "ALTER DATABASE" && Contains (trimmed stmt) " OWNER TO ");
      simpl.
    + intros H. rewrite app_nil_r.
      apply bind_Ok in H. destruct H as (u & w3 & _ & H). now injection H as <- _.
    + destruct (HasPrefix (trimmed stmt) "\connect "); simpl.
      * intros H. rewrite app_nil_r. destruct (negb _); [discriminate|].
        apply bind_Ok in H. destruct H as (u & w3 & _ & H). now injection H as <- _.
      * intros H. now injection H as <- _.
Qed.

Lemma applyStatements_remaining (stmts : list string) (rem rem' : list string) (w w' : W) :
  applyStatements executeStmt stmts rem w = (Ok rem', w') ->
  rem' = (rem ++ filter inTransaction (map trimmed stmts))%list.
Proof.
  revert rem w. induction stmts as [|s rest IH]; intros rem w; simpl.
  - intros H. injection H as <- _. now rewrite app_nil_r.
  - intros H. apply bind_Ok in H. destruct H as (acc & w1 & H1 & H2).
    unfold mapErr in H1.
    destruct (executeStmt s rem w) as [r wr] eqn:E. destruct r; try discriminate.
    injection H1 as -> ->.
    apply executeStmt_remaining in E. apply IH in H2. subst rem' acc.
    destruct (inTransaction (trimmed s)); simpl; rewrite <- app_assoc; reflexivity.
Qed.

(** The statements of the three buckets are handled outside a transaction. *)
Lemma executeStmt_notTx (stmt : string) (rem : list string) :
  adds S notTx (executeStmt stmt rem).
Proof.
  assert (He : forall t, adds S notTx (bind (dbExecContext S srv t) (fun _ => ret rem))).
  { intros t. apply adds_bind; [|intros _; apply adds_ret].
    apply adds_withDb. intros dsn. now apply adds_call. }
  unfold Pg.executeStmt. fold (trimmed stmt).
  destruct (HasPrefix (trimmed stmt) "CREATE DATABASE ").
  - apply adds_bind; [now apply adds_getDatabases|].
    intros dbs. apply adds_bind; [now apply adds_silent|].
    intros n. destruct (negb _); [apply He | apply adds_ret].
  - destruct (_ && _); [apply He|].
    destruct (HasPrefix (trimmed stmt) "\connect "); [|apply adds_ret].
    destruct (negb _); [apply adds_fail|].
    apply adds_bind; [now apply adds_GetDbConnection | intros _; apply adds_ret].
Qed.

Lemma ApplyMultiStatements_notTx (script : string) :
  adds S notTx (ApplyMultiStatements script executeStmt []).
Proof.
  unfold Pg.ApplyMultiStatements. apply adds_bind.
  - generalize (@nil string) as acc. generalize (fst (splitStatements script)) as stmts.
    induction stmts as [|s rest IH]; intros acc; simpl; [apply adds_ret|].
    apply adds_bind; [apply adds_mapErr, executeStmt_notTx | intros a; apply IH].
  - intros acc. destruct (snd (splitStatements script)); [apply adds_fail | apply adds_ret].
Qed.

(** The calls on an open transaction, step by step. *)
Lemma BeginTx_run (w : W) (dsn : string) :
  db (driver w) = Some dsn ->
  BeginTx S srv w =
  (fst (sqlBegin srv dsn (server w)),
   {| server := snd (sqlBegin srv dsn (server w));
      txn := match fst (sqlBegin srv dsn (server w)) with
             | Ok _ => Some (dsn, snd (sqlBegin srv dsn (server w)))
             | _ => txn w
             end;
      driver := driver w;
      events := (events w ++ [EBegin dsn])%list |}).
Proof.
  intros H. unfold BeginTx, withDb. rewrite H.
  destruct (sqlBegin srv dsn (server w)). reflexivity.
Qed.

Lemma txExecContext_run (w : W) (dsn stmt : string) (wk : S) :
  txn w = Some (dsn, wk) ->
  txExecContext S srv stmt w =
  (fst (sqlTxExec srv dsn stmt wk),
   {| server := server w; txn := Some (dsn, snd (sqlTxExec srv dsn stmt wk));
      driver := driver w; events := (events w ++ [ETxExec stmt])%list |}).
Proof.
  intros H. unfold txExecContext, txCall. rewrite H.
  destruct (sqlTxExec srv dsn stmt wk). reflexivity.
Qed.

Lemma getCurrentDatabaseOwner_run (w : W) (dsn : string) (wk : S) :
  txn w = Some (dsn, wk) ->
  getCurrentDatabaseOwner S srv w =
  (match fst (sqlTxOwnerRows srv dsn wk) with
   | Ok rows =>
       match scanOwner rows "" with
       | Ok owner =>
           if String.eqb owner "" then Err "Owner not found for the current database"
           else Ok owner
       | Err e => Err e
       | Panic => Panic
       end
   | Err e => Err e
   | Panic => Panic
   end,
   {| server := server w; txn := Some (dsn, snd (sqlTxOwnerRows srv dsn wk));
      driver := driver w; events := (events w ++ [ETxOwner])%list |}).
Proof.
  intros H. unfold getCurrentDatabaseOwner, bind, txCall, liftResult. rewrite H.
  destruct (sqlTxOwnerRows srv dsn wk) as [r wk']. simpl.
  destruct r as [rows| |]; try reflexivity.
  destruct (scanOwner rows "") as [owner| |]; try reflexivity.
  destruct (String.eqb owner ""); reflexivity.
Qed.

Lemma txCommit_run (w : W) (dsn : string) (wk : S) :
  txn w = Some (dsn, wk) ->
  txCommit S srv w =
  match sqlCommit srv dsn wk with
  | None => (Ok tt, {| server := wk; txn := None; driver := driver w;
                       events := (events w ++ [ECommit])%list |})
  | Some e => (Err e, {| server := server w; txn := None; driver := driver w;
                         events := (events w ++ [ECommit])%list |})
  end.
Proof. intros H. unfold txCommit. rewrite H. reflexivity. Qed.

(** The buckets of [Execute], with the name of the database of a
    [CREATE DATABASE] statement as [getDatabaseInCreateDatabaseStatement]
    reads it; the calls of this phase; the statements kept for the
    transaction, and the transaction. *)
Lemma Execute_buckets_general :
  (forall stmt rem w dbs w1 n,
      HasPrefix (trimmed stmt) "CREATE DATABASE " = true ->
      getDatabases S srv w = (Ok dbs, w1) ->
      getDatabaseInCreateDatabaseStatement unicodeFields (trimmed stmt) = Ok n ->
      executeStmt stmt rem w =
      if existsb (fun database => String.eqb (name database) n) dbs
      then (Ok rem, w1)
      else bind (dbExecContext S srv (trimmed stmt)) (fun _ => ret rem) w1) /\
  (forall stmt rem w,
      HasPrefix (trimmed stmt) "ALTER DATABASE" = true ->
      Contains (trimmed stmt) " OWNER TO " = true ->
      executeStmt stmt rem w =
      bind (dbExecContext S srv (trimmed stmt)) (fun _ => ret rem) w) /\
  (forall stmt rem w before database after,
      HasPrefix (trimmed stmt) "\connect " = true ->
      Split (trimmed stmt) dquote = [before; database; after] ->
      executeStmt stmt rem w =
      bind (GetDbConnection S srv database) (fun _ => ret rem) w /\
      (forall rem' w1,
          executeStmt stmt rem w = (Ok rem', w1) ->
          db (driver w1) = Some (baseDSN (driver w) ++ " dbname=" ++ database) /\
          databaseName (driver w1) = database)) /\
  (forall script w,
      exists evs,
        events (snd (ApplyMultiStatements script executeStmt [] w)) = (events w ++ evs)%list /\
        forallb (fun ev => negb (isTx ev)) evs = true) /\
  (forall script w rem w1,
      ApplyMultiStatements script executeStmt [] w = (Ok rem, w1) ->
      rem = filter inTransaction (map trimmed (fst (splitStatements script))) /\
      (rem = [] -> Execute script w = (Ok tt, w1)) /\
      (forall dsn s2 rows s3 owner s4 s5,
          rem <> [] ->
          db (driver w1) = Some dsn ->
          sqlBegin srv dsn (server w1) = (Ok tt, s2) ->
          sqlTxOwnerRows srv dsn s2 = (Ok rows, s3) ->
          scanOwner rows "" = Ok owner ->
          owner <> "" ->
          sqlTxExec srv dsn ("SET LOCAL ROLE " ++ owner) s3 = (Ok tt, s4) ->
          sqlTxExec srv dsn (Join rem newlineS) s4 = (Ok tt, s5) ->
          sqlCommit srv dsn s5 = None ->
          Execute script w =
          (Ok tt,
           {| server := s5; txn := None; driver := driver w1;
              events := (events w1 ++
                         [EBegin dsn; ETxOwner; ETxExec ("SET LOCAL ROLE " ++ owner);
                          ETxExec (Join rem newlineS); ECommit])%list |}))).
Proof.
  split; [|split; [|split; [|split]]].
  - intros stmt rem w dbs w1 n Hp Hd Hn.
    unfold Pg.executeStmt. fold (trimmed stmt). rewrite Hp.
    unfold bind at 1. rewrite Hd. unfold bind at 1, liftResult. rewrite Hn.
    destruct (existsb _ dbs); reflexivity.
  - intros stmt rem w Hp Hc.
    unfold Pg.executeStmt. fold (trimmed stmt).
    rewrite (alter_not_create _ Hp), Hp, Hc. reflexivity.
  - intros stmt rem w before database after Hp Hs.
    assert (E : executeStmt stmt rem w =
                bind (GetDbConnection S srv database) (fun _ => ret rem) w).
    { unfold Pg.executeStmt. fold (trimmed stmt).
      rewrite (connect_not_create _ Hp), (connect_not_alter _ Hp), Hp, Hs. reflexivity. }
    split; [exact E|].
    intros rem' w1 H. rewrite E in H.
    apply bind_Ok in H. destruct H as (o & w2 & H & Hr).
    injection Hr as _ E1. subst w1.
    unfold GetDbConnection in H.
    apply bind_Ok in H. destruct H as (u & w3 & H & Hg).
    apply bind_Ok in Hg. destruct Hg as (d & w4 & Hg & Hr).
    injection Hg as _ E2. injection Hr as _ E3. subst w4 w2.
    unfold switchDatabase in H.
    apply bind_Ok in H. destruct H as (d0 & w5 & H0 & H).
    injection H0 as E4 E5. subst d0 w5.
    apply bind_Ok in H. destruct H as (u1 & w6 & _ & H).
    apply bind_Ok in H. destruct H as (u2 & w7 & _ & H).
    injection H as E6. subst w3. simpl. split; reflexivity.
  - intros script w. apply ApplyMultiStatements_notTx.
  - intros script w rem w1 H.
    assert (Hr : rem = filter inTransaction (map trimmed (fst (splitStatements script)))).
    { unfold Pg.ApplyMultiStatements in H.
      apply bind_Ok in H. destruct H as (acc & w2 & H & Hs).
      apply applyStatements_remaining in H. simpl in H.
      destruct (snd (splitStatements script)); [discriminate|].
      injection Hs as <- _. exact H. }
    split; [exact Hr|]. split.
    + intros Hnil. unfold Pg.Execute, bind. rewrite H, Hnil. reflexivity.
    + intros dsn s2 rows s3 owner s4 s5 Hne Hdb Hb Ho Hsc Hown Hset Hrun Hcommit.
      unfold Pg.Execute. unfold bind at 1. rewrite H.
      destruct rem as [|r0 rem0]; [contradiction|].
      cbn [List.length Nat.eqb].
      unfold bind at 1. rewrite (BeginTx_run w1 dsn Hdb), Hb. cbn [fst snd].
      unfold deferRollback, executeInTx.
      unfold bind at 1.
      erewrite getCurrentDatabaseOwner_run by reflexivity.
      rewrite Ho. cbn [fst snd]. rewrite Hsc.
      destruct (String.eqb_spec owner "") as [->|_]; [contradiction|].
      unfold bind at 1. erewrite txExecContext_run by reflexivity.
      rewrite Hset. cbn [fst snd].
      unfold bind at 1. erewrite txExecContext_run by reflexivity.
      rewrite Hrun. cbn [fst snd].
      erewrite txCommit_run by reflexivity. rewrite Hcommit.
      unfold txRollback. cbn [txn server driver events].
      rewrite <- !app_assoc. reflexivity.
Qed.

(** C2. When the statements outside the transaction have been handled and
    the transaction is begun, a failure of the owner lookup, of
    [SET LOCAL ROLE] or of the joined remaining statements makes [Execute]
    return that error; the transaction is rolled back and never committed:
    the state of the server is the one in which the transaction began,
    without any effect of the remaining statements. *)
Theorem Execute_failure_rolls_back
  (script : string) (w w1 w3 : W) (rem : list string) (dsn : string) (s2 : S) (e : error) :
  ApplyMultiStatements script executeStmt [] w = (Ok rem, w1) ->
  rem <> [] ->
  db (driver w1) = Some dsn ->
  sqlBegin srv dsn (server w1) = (Ok tt, s2) ->
  let begun := {| server := s2; txn := Some (dsn, s2); driver := driver w1;
                  events := (events w1 ++ [EBegin dsn])%list |} in
  getCurrentDatabaseOwner S srv begun = (Err e, w3) \/
  (exists owner wo,
      getCurrentDatabaseOwner S srv begun = (Ok owner, wo) /\
      (txExecContext S srv ("SET LOCAL ROLE " ++ owner) wo = (Err e, w3) \/
       exists ws,
         txExecContext S srv ("SET LOCAL ROLE " ++ owner) wo = (Ok tt, ws) /\
         txExecContext S srv (Join rem newlineS) ws = (Err e, w3))) ->
  exists evs,
    Execute script w =
    (Err e, {| server := s2; txn := None; driver := driver w1;
               events := (events w1 ++ [EBegin dsn] ++ evs ++ [ERollback])%list |}) /\
    forallb isTxStatement evs = true.
Proof.
  intros H Hne Hdb Hb begun Hfail.
  assert (Hexec : Execute script w =
                  deferRollback S (executeInTx S srv rem) begun).
  { unfold Pg.Execute. unfold bind at 1. rewrite H.
    destruct rem as [|r0 rem0]; [contradiction|]. cbn [List.length Nat.eqb].
    unfold bind at 1. rewrite (BeginTx_run w1 dsn Hdb), Hb. reflexivity. }
  rewrite Hexec. unfold deferRollback, executeInTx.
  pose proof (getCurrentDatabaseOwner_run begun dsn s2 eq_refl) as Ro.
  destruct Hfail as [Ho|(owner & wo & Ho & Hfail)]; rewrite Ho in Ro.
  - injection Ro as _ ->. unfold bind at 1. rewrite Ho.
    exists [ETxOwner]. split; [|reflexivity].
    unfold txRollback. cbn [txn server driver events begun].
    rewrite <- !app_assoc. reflexivity.
  - injection Ro as _ ->.
    match type of Ho with _ = (_, ?x) => set (wo := x) in * end.
    pose proof (txExecContext_run wo dsn ("SET LOCAL ROLE " ++ owner) _ eq_refl) as Rs.
    unfold bind at 1. rewrite Ho. unfold bind at 1.
    destruct Hfail as [Hs|(ws & Hs & Hj)]; rewrite Hs in Rs.
    + injection Rs as _ ->. rewrite Hs.
      exists [ETxOwner; ETxExec ("SET LOCAL ROLE " ++ owner)]. split; [|reflexivity].
      unfold txRollback. cbn [txn server driver events begun wo].
      rewrite <- !app_assoc. reflexivity.
    + injection Rs as _ ->. rewrite Hs.
      match type of Hs with _ = (_, ?x) => set (ws := x) in * end.
      pose proof (txExecContext_run ws dsn (Join rem newlineS) _ eq_refl) as Rj.
      rewrite Hj in Rj. injection Rj as _ ->.
      unfold bind at 1. rewrite Hj.
      exists [ETxOwner; ETxExec ("SET LOCAL ROLE " ++ owner); ETxExec (Join rem newlineS)].
      split; [|reflexivity].
      unfold txRollback. cbn [txn server driver events begun wo ws].
      rewrite <- !app_assoc. reflexivity.
Qed.
End ExecuteFacts.

(** The statement of the transaction fails: the error comes back, the
    transaction is rolled back and the server is as it was when the
    transaction began. *)
Lemma Execute_failure_rolls_back_witness :
  exists evs,
    Pg.Execute History.Store (History.faulty (Samples.failAt 3)) Samples.quoteQ
      Samples.uniFields Samples.splitLines Samples.wrapError "INSERT INTO t VALUES (1);"
      (Samples.storeWorld Samples.appDriver []) =
    (Err "statement failed",
     {| Pg.server := {| History.table := []; History.clock := 1 |};
        Pg.txn := None;
        Pg.driver := Pg.driver (Samples.storeWorld Samples.appDriver []);
        Pg.events :=
          (Pg.events (Samples.storeWorld Samples.appDriver []) ++
           [Pg.EBegin "host=localhost user=admin dbname=app"] ++ evs ++ [Pg.ERollback])%list |}) /\
    forallb Pg.isTxStatement evs = true.
Proof.
  eapply (Execute_failure_rolls_back History.Store (History.faulty (Samples.failAt 3))
            Samples.quoteQ Samples.uniFields Samples.splitLines Samples.wrapError
            "INSERT INTO t VALUES (1);" (Samples.storeWorld Samples.appDriver [])
            (Samples.storeWorld Samples.appDriver []) _
            ["INSERT INTO t VALUES (1);"] "host=localhost user=admin dbname=app"
            {| History.table := []; History.clock := 1 |} "statement failed").
  - reflexivity.
  - discriminate.
  - reflexivity.
  - reflexivity.
  - right. eexists. eexists. split; [reflexivity|].
    right. eexists. split; reflexivity.
Defined.

(** ** The stored-version backfill *)
Section HistoryFacts.
Import GoStrings Pg History.
Variable fault : nat -> option error.
Variable BytebaseDatabase : string.
Variable MigrationHistory : Type.
Variable ToStoredVersion : bool -> string -> string -> result string.
Variable FormatParamNameInNumberedPosition : list string -> string.
Variable NonSemanticPrefix : string.
Variable utilFindMigrationHistoryList :
  string -> list param -> string -> MigrationHistoryFind -> string ->
  M (World Store) (list MigrationHistory).

Local Abbreviation W := (World Store).
Local Abbreviation srv := (faulty fault).
Local Abbreviation update :=
  (updateMigrationHistoryStorageVersion Store srv BytebaseDatabase NonSemanticPrefix).
Local Abbreviation FindMigrationHistoryList :=
  (Pg.FindMigrationHistoryList Store srv BytebaseDatabase MigrationHistory ToStoredVersion
     FormatParamNameInNumberedPosition NonSemanticPrefix utilFindMigrationHistoryList).
Local Abbreviation rewriteFor := (History.rewriteFor NonSemanticPrefix).
Local Abbreviation rewriteAll := (History.rewriteAll NonSemanticPrefix).
Local Abbreviation tableAfter := (History.tableAfter NonSemanticPrefix).

Lemma prefix_append (p x : string) : HasPrefix (p ++ x) p = true.
Proof.
  unfold HasPrefix. induction p as [|c p IH]; [now destruct x|].
  cbn [String.prefix append]. destruct (ascii_dec c c); [exact IH | contradiction].
Qed.

Lemma rewriteFor_fixed (v r : ver) :
  HasPrefix (version r) NonSemanticPrefix = true -> rewriteFor v r = r.
Proof.
  intros H. unfold History.rewriteFor.
  destruct (HasPrefix (version v) NonSemanticPrefix) eqn:Hv; [reflexivity|].
  destruct (Z.eqb (id r) (id v) && String.eqb (version r) (version v)) eqn:E;
    [|reflexivity].
  apply andb_prop in E. destruct E as [_ E]. apply String.eqb_eq in E.
  rewrite E in H. congruence.
Qed.

Lemma rewriteAll_fixed (vs : list ver) (r : ver) :
  HasPrefix (version r) NonSemanticPrefix = true -> rewriteAll vs r = r.
Proof.
  revert r. induction vs as [|v vs IH]; intros r H; simpl; [reflexivity|].
  unfold History.rewriteAll in *. simpl. rewrite (rewriteFor_fixed v r H). now apply IH.
Qed.

Lemma backfillRow_prefixed (r : ver) :
  HasPrefix (version (backfillRow NonSemanticPrefix r)) NonSemanticPrefix = true.
Proof.
  unfold backfillRow. destruct (HasPrefix (version r) NonSemanticPrefix) eqn:H;
    [exact H | apply prefix_append].
Qed.

Lemma rewriteFor_cases (v r : ver) :
  rewriteFor v r = r \/ rewriteFor v r = backfillRow NonSemanticPrefix r.
Proof.
  unfold History.rewriteFor.
  destruct (HasPrefix (version v) NonSemanticPrefix) eqn:Hv; [now left|].
  destruct (Z.eqb (id r) (id v) && String.eqb (version r) (version v)) eqn:E; [|now left].
  right. apply andb_prop in E. destruct E as [_ E]. apply String.eqb_eq in E.
  unfold backfillRow. rewrite E, Hv. reflexivity.
Qed.

(** A row of the snapshot ends up with the prefix. *)
Lemma rewriteAll_in (vs : list ver) (r : ver) :
  In r vs -> rewriteAll vs r = backfillRow NonSemanticPrefix r.
Proof.
  destruct (HasPrefix (version r) NonSemanticPrefix) eqn:Hr.
  { intros _. rewrite (rewriteAll_fixed vs r Hr). unfold backfillRow. now rewrite Hr. }
  induction vs as [|v vs IH]; intros Hin; [contradiction|].
  unfold History.rewriteAll in *. simpl.
  assert (Hdone : fold_left (fun r v => rewriteFor v r) vs (backfillRow NonSemanticPrefix r)
                  = backfillRow NonSemanticPrefix r)
    by (apply (rewriteAll_fixed vs), backfillRow_prefixed).
  destruct Hin as [->|Hin].
  - assert (E : rewriteFor r r = backfillRow NonSemanticPrefix r).
    { unfold History.rewriteFor, backfillRow. rewrite Hr, Z.eqb_refl, String.eqb_refl. reflexivity. }
    rewrite E. exact Hdone.
  - destruct (rewriteFor_cases v r) as [E|E]; rewrite E; [now apply IH | exact Hdone].
Qed.

Lemma tableAfter_map (vers t : list ver) : tableAfter vers t = map (rewriteAll vers) t.
Proof.
  revert t. induction vers as [|v vers IH]; intros t; simpl.
  - unfold History.rewriteAll. simpl. now rewrite map_id.
  - unfold History.tableAfter in *. simpl. rewrite IH. unfold History.rewriteAll. simpl.
    destruct (HasPrefix (version v) NonSemanticPrefix) eqn:Hv.
    + apply map_ext. intros r.
      assert (E : rewriteFor v r = r) by (unfold History.rewriteFor; now rewrite Hv).
      now rewrite E.
    + unfold updateRows. rewrite map_map. apply map_ext. intros r.
      assert (E : rewriteFor v r =
                  if Z.eqb (id r) (id v) && String.eqb (version r) (version v)
                  then {| id := id r; version := NonSemanticPrefix ++ version v |}
                  else r) by (unfold History.rewriteFor; now rewrite Hv).
      now rewrite E.
Qed.

(** The statements for a snapshot of the table give every row the prefix. *)
Lemma tableAfter_snapshot (t : list ver) :
  tableAfter t t = map (backfillRow NonSemanticPrefix) t.
Proof. rewrite tableAfter_map. apply map_ext_in. intros r. apply rewriteAll_in. Qed.

(** A successful loop of the backfill has made all its updates. *)
Lemma updateVersions_table (sqldb : string) (vers : list ver) (w w' : W) :
  updateVersions Store srv NonSemanticPrefix sqldb vers w = (Ok tt, w') ->
  table (server w') = tableAfter vers (table (server w)).
Proof.
  revert w. induction vers as [|v vers IH]; intros w; simpl.
  - intros H. injection H as <-. reflexivity.
  - unfold History.tableAfter. simpl.
    destruct (HasPrefix (version v) NonSemanticPrefix); [apply IH|].
    unfold bind, call. simpl. unfold answer.
    destruct (fault (clock (server w))); [discriminate|].
    intros H. apply IH in H. exact H.
Qed.

(** Closing and opening a handle leaves the table alone. *)
Lemma GetDbConnection_table (database : string) (w w' : W) (r : result (option string)) :
  GetDbConnection Store srv database w = (r, w') ->
  table (server w') = table (server w) /\
  (forall o, r = Ok o -> o = Some (baseDSN (driver w) ++ " dbname=" ++ database)).
Proof.
  unfold GetDbConnection, switchDatabase, bind, getDriver, setDriver, call, ret. simpl.
  unfold answer.
  destruct (db (driver w)) as [old|]; simpl.
  - destruct (fault (clock (server w))); simpl.
    + intros H. injection H as <- <-. split; [reflexivity | discriminate].
    + destruct (fault (Datatypes.S (clock (server w)))); simpl;
        intros H; injection H as <- <-; split; try reflexivity; try discriminate.
      intros o H. now injection H as <-.
  - destruct (fault (clock (server w))); simpl;
      intros H; injection H as <- <-; split; try reflexivity; try discriminate.
    intros o H. now injection H as <-.
Qed.

(** Outside strict mode a successful backfill has rewritten the table. *)
Lemma update_table (w w' : W) :
  strictDatabase (driver w) = "" ->
  update w = (Ok tt, w') ->
  table (server w') = map (backfillRow NonSemanticPrefix) (table (server w)).
Proof.
  intros Hs H. unfold updateMigrationHistoryStorageVersion in H.
  unfold bind at 1, strictUseDb in H. rewrite Hs in H. simpl negb in H. cbv iota in H.
  unfold bind at 1 in H.
  destruct (GetDbConnection Store srv BytebaseDatabase w) as [r w1] eqn:G.
  apply GetDbConnection_table in G. destruct G as [Gt _].
  destruct r as [sqldb| |]; try discriminate.
  destruct sqldb as [dsn|]; [|discriminate].
  unfold bind at 1, call in H. simpl in H. unfold answer in H.
  destruct (fault (clock (server w1))); [discriminate|].
  apply updateVersions_table in H. simpl in H.
  rewrite H, Gt. apply tableAfter_snapshot.
Qed.

Lemma updateVersions_ok (sqldb : string) (vers : list ver) (w : W) :
  (forall n, fault n = None) ->
  exists w', updateVersions Store srv NonSemanticPrefix sqldb vers w = (Ok tt, w').
Proof.
  intros Hf. revert w. induction vers as [|v vers IH]; intros w; simpl.
  - eexists. reflexivity.
  - destruct (HasPrefix (version v) NonSemanticPrefix); [apply IH|].
    unfold bind, call. simpl. unfold answer. rewrite Hf. apply IH.
Qed.

Lemma update_ok (w : W) :
  (forall n, fault n = None) ->
  strictDatabase (driver w) = "" ->
  exists w', update w = (Ok tt, w').
Proof.
  intros Hf Hs. unfold updateMigrationHistoryStorageVersion.
  unfold bind at 1, strictUseDb. rewrite Hs. simpl negb. cbv iota.
  unfold bind at 1.
  unfold GetDbConnection, switchDatabase, bind, getDriver, setDriver, call, ret. simpl.
  unfold answer.
  destruct (db (driver w)) as [old|]; simpl; rewrite !Hf; simpl; rewrite ?Hf;
    apply updateVersions_ok; exact Hf.
Qed.

(** C6 (amended). Let the first query fail with an error that holds
    [invalid stored version], on a driver that is not in strict mode and
    whose DSN is not the one of the metadata database of Bytebase (it does
    not hold both [user=bb] and [host=/tmp]).  If the statements of the
    backfill succeed, every row of [migration_history] whose version does
    not start with the prefix has got the prefix before its old version,
    the rows that had it are unchanged, and the result is that of the same
    query, run once more on the database of Bytebase; if a statement of the
    backfill fails, its error is returned and the query is not run again;
    and without faults the backfill succeeds. *)
Theorem FindMigrationHistoryList_backfill
  (find : MigrationHistoryFind) (pn : list string * list param) (w w1 : W) (e : error) :
  findParams ToStoredVersion find = Ok pn ->
  strictDatabase (driver w) = "" ->
  let query := historyQuery FormatParamNameInNumberedPosition find (fst pn) in
  utilFindMigrationHistoryList query (snd pn) BytebaseDatabase find baseQuery w = (Err e, w1) ->
  Contains e "invalid stored version" = true ->
  isBytebaseDatabase (driver w1) = false ->
  strictDatabase (driver w1) = "" ->
  (forall w2,
      update w1 = (Ok tt, w2) ->
      table (server w2) = map (backfillRow NonSemanticPrefix) (table (server w1)) /\
      FindMigrationHistoryList find w =
      utilFindMigrationHistoryList query (snd pn) BytebaseDatabase find baseQuery w2) /\
  (forall e' w2, update w1 = (Err e', w2) -> FindMigrationHistoryList find w = (Err e', w2)) /\
  ((forall n, fault n = None) -> exists w2, update w1 = (Ok tt, w2)).
Proof.
  intros Hpn Hs query Hfind Hc Hbb Hs1.
  assert (Hrun : FindMigrationHistoryList find w =
                 bind update
                   (fun _ => utilFindMigrationHistoryList query (snd pn) BytebaseDatabase
                               find baseQuery) w1).
  { unfold Pg.FindMigrationHistoryList. unfold bind at 1, liftResult. rewrite Hpn.
    unfold bind at 1, strictUseDb. rewrite Hs. simpl negb.
    unfold bind at 1, getDriver. cbv iota. fold query.
    rewrite Hfind, Hbb, Hc. reflexivity. }
  split; [|split].
  - intros w2 Hu. split; [exact (update_table w1 w2 Hs1 Hu)|].
    rewrite Hrun. unfold bind. rewrite Hu. reflexivity.
  - intros e' w2 Hu. rewrite Hrun. unfold bind. rewrite Hu. reflexivity.
  - intros Hf. exact (update_ok w1 Hf Hs1).
Qed.
End HistoryFacts.

(** On a table written before the prefix existed, the query of a driver
    that is not the metadata driver rewrites the table and returns the
    rows of the second run. *)
Lemma FindMigrationHistoryList_backfill_witness :
  Pg.FindMigrationHistoryList History.Store (History.faulty Samples.noFault) "bytebase"
    Pg.ver Samples.toStored Samples.formatParams Samples.storedPrefix Samples.findHistory
    Samples.allHistory (Samples.storeWorld Samples.appDriver Samples.oldTable) =
  Samples.findHistory
    (Pg.historyQuery Samples.formatParams Samples.allHistory []) [] "bytebase"
    Samples.allHistory Pg.baseQuery
    {| Pg.server := {| History.table :=
                         [{| Pg.id := 1; Pg.version := "0000.0000.0000-0001" |};
                          {| Pg.id := 2; Pg.version := "0000.0000.0000-0002" |}];
                       History.clock := 4 |};
       Pg.txn := None;
       Pg.driver := {| Pg.db := Some "host=localhost user=admin dbname=bytebase";
                       Pg.baseDSN := "host=localhost user=admin";
                       Pg.databaseName := "bytebase";
                       Pg.strictDatabase := "" |};
       Pg.events :=
         [Pg.EClose "host=localhost user=admin dbname=app";
          Pg.EOpen "host=localhost user=admin dbname=bytebase";
          Pg.EQueryVersions "host=localhost user=admin dbname=bytebase";
          Pg.EUpdateVersion "host=localhost user=admin dbname=bytebase"
            "0000.0000.0000-0001" 1 "0001"] |}.
Proof.
  destruct (FindMigrationHistoryList_backfill Samples.noFault "bytebase" Pg.ver
              Samples.toStored Samples.formatParams Samples.storedPrefix Samples.findHistory
              Samples.allHistory ([], [])
              (Samples.storeWorld Samples.appDriver Samples.oldTable)
              (Samples.storeWorld Samples.appDriver Samples.oldTable)
              "invalid stored version, should be in semantic or non-semantic form"
              eq_refl eq_refl eq_refl eq_refl eq_refl eq_refl) as (H & _ & _).
  apply H. reflexivity.
Defined.

(** C6 as stated fails on the driver of the metadata database: the query
    fails with [invalid stored version], the error is returned, the row
    with the old version is left as it was and the query is not run again. *)
Lemma FindMigrationHistoryList_no_backfill_on_metadata :
  Pg.FindMigrationHistoryList History.Store (History.faulty Samples.noFault) "bytebase"
    Pg.ver Samples.toStored Samples.formatParams Samples.storedPrefix Samples.findHistory
    Samples.allHistory (Samples.storeWorld Samples.metadataDriver Samples.oldTable) =
  (Err "invalid stored version, should be in semantic or non-semantic form",
   Samples.storeWorld Samples.metadataDriver Samples.oldTable) /\
  GoStrings.Contains "invalid stored version, should be in semantic or non-semantic form"
    "invalid stored version" = true /\
  In {| Pg.id := 1; Pg.version := "0001" |} Samples.oldTable /\
  GoStrings.HasPrefix "0001" Samples.storedPrefix = false.
Proof.
  split; [reflexivity|]. split; [reflexivity|]. split; [now left | reflexivity].
Qed.

(** * More properties of the code *)

(** ** Restore *)
Section RestoreFacts.
Import GoStrings Pg PgMore.
Variable S : Type.
Variable srv : SqlServer S.
Variable splitStatements : string -> list string * option error.
Variable wrapStatementError : string -> error -> error.

Local Abbreviation W := (World S).
Local Abbreviation Restore := (PgMore.Restore S srv splitStatements wrapStatementError).

(** The statements of a restore run on the open transaction: the server
    and the driver stay as they are, and the log grows by the statements
    that were tried, all of them when the loop succeeds. *)
Lemma restore_statements (stmts : list string) (w : W) (dsn : string) (wk : S) :
  txn w = Some (dsn, wk) ->
  let run := applyStatements S wrapStatementError
               (fun stmt (_ : unit) => txExecContext S srv stmt) stmts tt w in
  server (snd run) = server w /\
  driver (snd run) = driver w /\
  (exists wk', txn (snd run) = Some (dsn, wk')) /\
  (exists tried, events (snd run) = (events w ++ map ETxExec tried)%list /\
                 (fst run = Ok tt -> tried = stmts)).
Proof.
  revert w wk. induction stmts as [|s rest IH]; intros w wk Ht; simpl.
  - repeat split; [now exists wk|]. exists []. simpl. now rewrite app_nil_r.
  - unfold bind, mapErr. rewrite (txExecContext_run S srv w dsn s wk Ht).
    destruct (sqlTxExec srv dsn s wk) as [r wk1]. simpl.
    destruct r as [[]| |]; simpl.
    + match goal with |- context [applyStatements _ _ _ rest tt ?x] => set (w1 := x) end.
      destruct (IH w1 wk1 eq_refl) as (Hs & Hd & Ht1 & tried & He & Hok).
      split; [exact Hs|]. split; [exact Hd|]. split; [exact Ht1|].
      exists (s :: tried). split.
      * rewrite He. simpl. rewrite <- app_assoc. reflexivity.
      * intros H. now rewrite (Hok H).
    + repeat split; [now exists wk1|]. exists [s]. split; [reflexivity | discriminate].
    + repeat split; [now exists wk1|]. exists [s]. split; [reflexivity | discriminate].
Qed.

(** X1. Once its transaction is begun, [Restore] commits all the
    statements of the script or nothing: when it does not return nil the
    transaction is over and the server is as it was when the transaction
    began; when it returns nil, the transaction ran every statement of the
    script, in order, and then committed. *)
Theorem Restore_all_or_nothing (sc : string) (w : W) (dsn : string) (s2 : S) :
  db (driver w) = Some dsn ->
  sqlBegin srv dsn (server w) = (Ok tt, s2) ->
  (fst (Restore sc w) <> Ok tt ->
   server (snd (Restore sc w)) = s2 /\ txn (snd (Restore sc w)) = None) /\
  (fst (Restore sc w) = Ok tt ->
   txn (snd (Restore sc w)) = None /\
   events (snd (Restore sc w)) =
   (events w ++ [EBegin dsn] ++ map ETxExec (fst (splitStatements sc)) ++ [ECommit])%list).
Proof.
  intros Hdb Hb.
  set (begun := {| server := s2; txn := Some (dsn, s2); driver := driver w;
                   events := (events w ++ [EBegin dsn])%list |}).
  assert (E : Restore sc w =
              deferRollback S
                (bind (ApplyMultiStatements S splitStatements wrapStatementError sc
                         (fun stmt (_ : unit) => txExecContext S srv stmt) tt)
                      (fun _ => txCommit S srv)) begun).
  { unfold PgMore.Restore. unfold bind at 1.
    rewrite (BeginTx_run S srv w dsn Hdb), Hb. reflexivity. }
  rewrite E. clear E.
  destruct (restore_statements (fst (splitStatements sc)) begun dsn s2 eq_refl)
    as (Hs & Hd & (wk' & Ht) & tried & He & Hok).
  unfold deferRollback, ApplyMultiStatements, bind.
  destruct (applyStatements S wrapStatementError
              (fun stmt (_ : unit) => txExecContext S srv stmt)
              (fst (splitStatements sc)) tt begun) as [r w1].
  cbn [fst snd] in *.
  assert (Hroll : server (txRollback S w1) = s2 /\ txn (txRollback S w1) = None).
  { unfold txRollback. rewrite Ht. simpl. split; [exact Hs | reflexivity]. }
  destruct r as [[]| |]; cbn [fst snd];
    [|split; [intros _; exact Hroll | discriminate]
     |split; [intros _; exact Hroll | discriminate]].
  destruct (snd (splitStatements sc)) as [e|]; cbn [fail ret fst snd].
  { split; [intros _; exact Hroll | discriminate]. }
  rewrite (txCommit_run S srv w1 dsn wk' Ht).
  destruct (sqlCommit srv dsn wk') as [e|]; cbn [fst snd].
  - split; [|discriminate]. intros _. unfold txRollback. simpl. split; [exact Hs | reflexivity].
  - split; [intros H; now contradiction H|]. intros _.
    unfold txRollback. simpl. split; [reflexivity|].
    rewrite He, (Hok eq_refl). unfold begun. simpl. rewrite <- !app_assoc. reflexivity.
Qed.
End RestoreFacts.

(** A restore of two statements on a server without faults. *)
Lemma Restore_all_or_nothing_witness :
  Pg.events (snd (PgMore.Restore History.Store (History.faulty Samples.noFault)
                    Samples.splitLines Samples.wrapError
                    ("CREATE TABLE t(id INT);" ++ GoStrings.newlineS ++ "INSERT INTO t VALUES (1);")
                    (Samples.storeWorld Samples.appDriver []))) =
  [Pg.EBegin "host=localhost user=admin dbname=app";
   Pg.ETxExec "CREATE TABLE t(id INT);"; Pg.ETxExec "INSERT INTO t VALUES (1);";
   Pg.ECommit].
Proof.
  apply (Restore_all_or_nothing History.Store (History.faulty Samples.noFault)
           Samples.splitLines Samples.wrapError
           ("CREATE TABLE t(id INT);" ++ GoStrings.newlineS ++ "INSERT INTO t VALUES (1);")
           (Samples.storeWorld Samples.appDriver [])
           "host=localhost user=admin dbname=app"
           {| History.table := []; History.clock := 1 |} eq_refl eq_refl).
  reflexivity.
Defined.

(** ** More on statement execution and on the handle of the driver *)
Section DriverFacts.
Import GoStrings Pg PgMore.
Variable S : Type.
Variable srv : SqlServer S.
Variable BytebaseDatabase : string.
Variable migrationSchema : string.
Variable FormatErrorWithQuery : error -> string -> error.
Variable quoteQ : string -> string.
Variable unicodeFields : string -> list string.
Variable splitStatements : string -> list string * option error.
Variable wrapStatementError : string -> error -> error.

Local Abbreviation W := (World S).
Local Abbreviation executeStmt := (Pg.executeStmt S srv quoteQ unicodeFields).
Local Abbreviation ApplyMultiStatements :=
  (@Pg.ApplyMultiStatements S splitStatements wrapStatementError (list string)).
Local Abbreviation Execute :=
  (Pg.Execute S srv quoteQ unicodeFields splitStatements wrapStatementError).
Local Abbreviation NeedsSetupMigration := (Pg.NeedsSetupMigration S srv BytebaseDatabase).
Local Abbreviation SetupMigrationIfNeeded :=
  (Pg.SetupMigrationIfNeeded S srv BytebaseDatabase migrationSchema FormatErrorWithQuery).

(** X2. When a statement handled outside the transaction fails (or the
    scan of the script does), [Execute] returns that error at once: no
    transaction is begun, so none of the statements kept for the
    transaction is run. *)
Theorem Execute_stops_before_transaction (script : string) (w w1 : W) (e : error) :
  ApplyMultiStatements script executeStmt [] w = (Err e, w1) ->
  Execute script w = (Err e, w1) /\
  exists evs, events w1 = (events w ++ evs)%list /\
              forallb (fun ev => negb (isTx ev)) evs = true.
Proof.
  intros H. split.
  - unfold Pg.Execute, bind. rewrite H. reflexivity.
  - destruct (ApplyMultiStatements_notTx S srv quoteQ unicodeFields splitStatements
                wrapStatementError script w) as (evs & E & F).
    rewrite H in E. exists evs. split; assumption.
Qed.

(** X3. A [\connect] statement that does not hold exactly two double
    quotes is refused with [invalid statement]: the driver stays on its
    database and no call is made. *)
Theorem connect_needs_two_quotes (stmt : string) (rem : list string) (w : W) :
  HasPrefix (trimmed stmt) "\connect " = true ->
  List.length (Split (trimmed stmt) dquote) <> 3 ->
  executeStmt stmt rem w = (Err ("invalid statement " ++ quoteQ (trimmed stmt)), w).
Proof.
  intros Hp Hl. unfold Pg.executeStmt. fold (trimmed stmt).
  rewrite (connect_not_create _ Hp), (connect_not_alter _ Hp), Hp. simpl.
  destruct (Nat.eqb_spec (List.length (Split (trimmed stmt) dquote)) 3) as [E|_];
    [contradiction | reflexivity].
Qed.

(** X4. [switchDatabase] either succeeds, and then the driver holds a
    handle on the base DSN with the new database name and records that
    name, or fails, and then the fields of the driver are untouched; the
    strict database and the base DSN never change, and no transaction is
    touched. *)
Theorem switchDatabase_outcome (dbName : string) (w : W) :
  let run := switchDatabase S srv dbName w in
  (fst run = Ok tt ->
   driver (snd run) =
   {| db := Some (baseDSN (driver w) ++ " dbname=" ++ dbName);
      baseDSN := baseDSN (driver w);
      databaseName := dbName;
      strictDatabase := strictDatabase (driver w) |}) /\
  (fst run <> Ok tt -> driver (snd run) = driver w) /\
  txn (snd run) = txn w.
Proof.
  unfold switchDatabase, bind, getDriver, setDriver, call, ret. simpl.
  destruct (db (driver w)) as [old|].
  - destruct (sqlClose srv old (server w)) as [rc sc].
    destruct rc as [[]| |]; simpl.
    + destruct (sqlOpen srv _ sc) as [ro so].
      destruct ro as [[]| |]; simpl; repeat split; try reflexivity; try discriminate.
      intros H. now contradiction H.
    + repeat split; try reflexivity; discriminate.
    + repeat split; try reflexivity; discriminate.
  - simpl. destruct (sqlOpen srv _ (server w)) as [ro so].
    destruct ro as [[]| |]; simpl; repeat split; try reflexivity; try discriminate.
    intros H. now contradiction H.
Qed.

Lemma strictUseDb_true (w : W) :
  strictDatabase (driver w) <> "" -> strictUseDb S w = (Ok true, w).
Proof.
  intros H. unfold strictUseDb. destruct (strictDatabase (driver w)); [contradiction|].
  reflexivity.
Qed.

Lemma strict_NeedsSetupMigration (w : W) :
  strictDatabase (driver w) <> "" ->
  NeedsSetupMigration w = NeedsSetupMigrationSchema S srv w.
Proof.
  intros Hs. unfold Pg.NeedsSetupMigration, bind. rewrite (strictUseDb_true w Hs).
  reflexivity.
Qed.

Lemma strict_setupMigration (w : W) :
  strictDatabase (driver w) <> "" ->
  setupMigration S srv BytebaseDatabase migrationSchema FormatErrorWithQuery true w =
  mapErr S (fun e => FormatErrorWithQuery e migrationSchema)
         (dbExecContext S srv migrationSchema) w.
Proof.
  intros Hs. unfold setupMigration, bind. rewrite (strictUseDb_true w Hs). reflexivity.
Qed.

(** X5. In strict database mode the setup never looks for, creates or
    switches to the database of Bytebase: [SetupMigrationIfNeeded] leaves
    the driver on its handle, and the only calls it makes are the check for
    the table [migration_history] and the run of the migration schema. *)
Theorem strict_setup_stays_in_database (w : W) :
  strictDatabase (driver w) <> "" ->
  driver (snd (SetupMigrationIfNeeded w)) = driver w /\
  exists evs,
    events (snd (SetupMigrationIfNeeded w)) = (events w ++ evs)%list /\
    forallb (strictSetupCall migrationSchema) evs = true.
Proof.
  intros Hs. unfold Pg.SetupMigrationIfNeeded.
  rewrite (strict_NeedsSetupMigration w Hs).
  unfold NeedsSetupMigrationSchema, withDb, call.
  destruct (db (driver w)) as [dsn|] eqn:Hdb.
  2:{ split; [reflexivity|]. exists []. simpl. now rewrite app_nil_r. }
  destruct (sqlNeedsSetupSchema srv dsn needsSetupQuery (server w)) as [r s1].
  destruct r as [setup| |].
  2:{ simpl. split; [reflexivity|]. exists [ENeedsSetupSchema dsn]. split; reflexivity. }
  2:{ simpl. split; [reflexivity|]. exists [ENeedsSetupSchema dsn]. split; reflexivity. }
  destruct setup.
  2:{ simpl. split; [reflexivity|]. exists [ENeedsSetupSchema dsn]. split; reflexivity. }
  match goal with
  | |- context [setupMigration _ _ _ _ _ true ?x] => rewrite (strict_setupMigration x Hs)
  end.
  unfold mapErr, dbExecContext, withDb, call. cbn [driver server events txn]. rewrite Hdb.
  destruct (sqlExec srv dsn migrationSchema s1) as [r s2].
  assert (Hev : forallb (strictSetupCall migrationSchema)
                  [ENeedsSetupSchema dsn; EExec dsn migrationSchema] = true)
    by (simpl; now rewrite String.eqb_refl).
  destruct r; simpl; (split; [reflexivity|]);
    exists [ENeedsSetupSchema dsn; EExec dsn migrationSchema];
    (split; [now rewrite <- app_assoc | exact Hev]).
Qed.

(** X6. Outside strict mode, when the catalog shows no database of
    Bytebase and every call succeeds, the setup creates the database on
    the current handle, outside a transaction, moves the driver to a handle
    on that database and runs the migration schema there. *)
Theorem setup_creates_and_switches
  (w : W) (dsn : string) (dbs1 dbs2 : list pgDatabaseSchema) (s1 s2 s3 s4 s5 s6 : S) :
  strictDatabase (driver w) = "" ->
  db (driver w) = Some dsn ->
  sqlQueryDatabases srv dsn (server w) = (Ok dbs1, s1) ->
  existsb (fun d => String.eqb (name d) BytebaseDatabase) dbs1 = false ->
  sqlQueryDatabases srv dsn s1 = (Ok dbs2, s2) ->
  existsb (fun d => String.eqb (name d) BytebaseDatabase) dbs2 = false ->
  sqlExec srv dsn "CREATE DATABASE bytebase;" s2 = (Ok tt, s3) ->
  sqlClose srv dsn s3 = (Ok tt, s4) ->
  sqlOpen srv (baseDSN (driver w) ++ " dbname=" ++ BytebaseDatabase) s4 = (Ok tt, s5) ->
  sqlExec srv (baseDSN (driver w) ++ " dbname=" ++ BytebaseDatabase) migrationSchema s5
    = (Ok tt, s6) ->
  SetupMigrationIfNeeded w =
  (Ok tt,
   {| server := s6;
      txn := txn w;
      driver := {| db := Some (baseDSN (driver w) ++ " dbname=" ++ BytebaseDatabase);
                   baseDSN := baseDSN (driver w);
                   databaseName := BytebaseDatabase;
                   strictDatabase := strictDatabase (driver w) |};
      events :=
        (events w ++
         [EQueryDatabases dsn; EQueryDatabases dsn; EExec dsn "CREATE DATABASE bytebase;";
          EClose dsn;
          EOpen (baseDSN (driver w) ++ " dbname=" ++ BytebaseDatabase);
          EExec (baseDSN (driver w) ++ " dbname=" ++ BytebaseDatabase) migrationSchema])%list |}).
Proof.
  intros Hs Hdb Hq1 He1 Hq2 He2 Hc Hcl Ho Hm.
  unfold Pg.SetupMigrationIfNeeded, Pg.NeedsSetupMigration, hasBytebaseDatabase,
    getDatabases, setupMigration, hasBytebaseDatabase, getDatabases, switchDatabase,
    dbExecContext, createBytebaseDatabaseStmt.
  unfold bind, strictUseDb, mapErr, withDb, call, ret, getDriver, setDriver.
  rewrite Hs. simpl. rewrite Hdb, Hq1. simpl. rewrite He1. simpl.
  rewrite Hs. simpl. rewrite Hdb, Hq2. simpl. rewrite He2. simpl.
  rewrite Hdb, Hc. simpl. rewrite Hdb. simpl. rewrite Hcl. simpl.
  simpl in Ho, Hm. rewrite Ho. simpl. rewrite Hm. simpl.
  rewrite ?Hs. rewrite <- !app_assoc. reflexivity.
Qed.
End DriverFacts.

(** The catalog cannot be read: the script stops there. *)
Lemma Execute_stops_before_transaction_witness :
  Pg.Execute History.Store (History.faulty (Samples.failAt 0)) Samples.quoteQ
    Samples.uniFields Samples.splitLines Samples.wrapError Samples.migrationScript
    (Samples.storeWorld Samples.appDriver []) =
  (Err "execute query failed: statement failed",
   {| Pg.server := {| History.table := []; History.clock := 1 |};
      Pg.txn := None;
      Pg.driver := Samples.appDriver;
      Pg.events := [Pg.EQueryDatabases "host=localhost user=admin dbname=app"] |}).
Proof.
  apply (Execute_stops_before_transaction History.Store (History.faulty (Samples.failAt 0))
           Samples.quoteQ Samples.uniFields Samples.splitLines Samples.wrapError
           Samples.migrationScript (Samples.storeWorld Samples.appDriver [])).
  reflexivity.
Defined.

(** A [\connect] without quotes. *)
Lemma connect_needs_two_quotes_witness :
  Pg.executeStmt History.Store (History.faulty Samples.noFault) Samples.quoteQ
    Samples.uniFields "\connect app;" [] (Samples.storeWorld Samples.appDriver []) =
  (Err ("invalid statement " ++ Samples.quoteQ "\connect app;"),
   Samples.storeWorld Samples.appDriver []).
Proof.
  apply (connect_needs_two_quotes History.Store (History.faulty Samples.noFault)
           Samples.quoteQ Samples.uniFields "\connect app;" []
           (Samples.storeWorld Samples.appDriver [])).
  - reflexivity.
  - simpl. discriminate.
Defined.

(** The setup of a driver in strict mode, on a server without faults. *)
Lemma strict_setup_stays_in_database_witness :
  Pg.driver (snd (Pg.SetupMigrationIfNeeded History.Store (History.faulty Samples.noFault)
                    "bytebase" MoreSamples.schemaScript (fun e _ => e)
                    (Samples.storeWorld MoreSamples.strictDriver []))) =
  MoreSamples.strictDriver.
Proof.
  apply (strict_setup_stays_in_database History.Store (History.faulty Samples.noFault)
           "bytebase" MoreSamples.schemaScript (fun e _ => e)
           (Samples.storeWorld MoreSamples.strictDriver [])).
  discriminate.
Defined.

(** The setup on a server whose catalog holds the database [postgres]
    only. *)
Lemma setup_creates_and_switches_witness :
  Pg.SetupMigrationIfNeeded History.Store (History.faulty Samples.noFault)
    "bytebase" MoreSamples.schemaScript (fun e _ => e)
    (Samples.storeWorld Samples.appDriver []) =
  (Ok tt,
   {| Pg.server := {| History.table := []; History.clock := 6 |};
      Pg.txn := None;
      Pg.driver := {| Pg.db := Some "host=localhost user=admin dbname=bytebase";
                      Pg.baseDSN := "host=localhost user=admin";
                      Pg.databaseName := "bytebase";
                      Pg.strictDatabase := "" |};
      Pg.events :=
        [Pg.EQueryDatabases "host=localhost user=admin dbname=app";
         Pg.EQueryDatabases "host=localhost user=admin dbname=app";
         Pg.EExec "host=localhost user=admin dbname=app" "CREATE DATABASE bytebase;";
         Pg.EClose "host=localhost user=admin dbname=app";
         Pg.EOpen "host=localhost user=admin dbname=bytebase";
         Pg.EExec "host=localhost user=admin dbname=bytebase" MoreSamples.schemaScript] |}).
Proof.
  apply (setup_creates_and_switches History.Store (History.faulty Samples.noFault)
           "bytebase" MoreSamples.schemaScript (fun e _ => e)
           (Samples.storeWorld Samples.appDriver [])
           "host=localhost user=admin dbname=app"
           [{| Pg.name := "postgres"; Pg.encoding := "UTF8"; Pg.collate := "C" |}]
           [{| Pg.name := "postgres"; Pg.encoding := "UTF8"; Pg.collate := "C" |}]
           {| History.table := []; History.clock := 1 |}
           {| History.table := []; History.clock := 2 |}
           {| History.table := []; History.clock := 3 |}
           {| History.table := []; History.clock := 4 |}
           {| History.table := []; History.clock := 5 |}
           {| History.table := []; History.clock := 6 |});
    reflexivity.
Defined.

Section DiscoveryFacts.
Import GoStrings Pg PgMore.
Variable S : Type.
Variable srv : SqlServer S.
Variable quoteQ : string -> string.
Variable mapOrder : list (string * string) -> list (string * string).

Local Abbreviation W := (World S).

Lemma closesOf_app (a b : list event) : closesOf (a ++ b) = (closesOf a ++ closesOf b)%list.
Proof. unfold closesOf. apply flat_map_app. Qed.

Lemma pingsOf_app (a b : list event) : pingsOf (a ++ b) = (pingsOf a ++ pingsOf b)%list.
Proof. unfold pingsOf. apply flat_map_app. Qed.

(** The loop opens and pings, and closes nothing; the handles it leaves to
    the deferred calls are the ones it pinged, the last one first. *)
Lemma tryGuesses_handles (dsn : string) (guesses opened : list string) (w : W) :
  exists evs found,
    fst (tryGuesses S srv dsn guesses opened w) = Ok (found, (rev (pingsOf evs) ++ opened)%list) /\
    events (snd (tryGuesses S srv dsn guesses opened w)) = (events w ++ evs)%list /\
    closesOf evs = [] /\
    driver (snd (tryGuesses S srv dsn guesses opened w)) = driver w.
Proof.
  revert opened w. induction guesses as [|g rest IH]; intros opened w; simpl.
  - exists [], None. simpl. now rewrite app_nil_r.
  - unfold call.
    destruct (sqlOpen srv (dsnOfGuess dsn g) (server w)) as [ro so]. 
    destruct ro as [[]|e|].
    + simpl.
      destruct (sqlPing srv (dsnOfGuess dsn g) so) as [rp sp].
      destruct rp as [[]|e|].
      * exists [EOpen (dsnOfGuess dsn g); EPing (dsnOfGuess dsn g)], (Some (g, dsnOfGuess dsn g)).
        simpl. rewrite <- app_assoc. repeat split.
      * match goal with |- context [tryGuesses S srv dsn rest ?o ?x] =>
          destruct (IH o x) as (evs & found & H1 & H2 & H3 & H4) end.
        exists (EOpen (dsnOfGuess dsn g) :: EPing (dsnOfGuess dsn g) :: evs), found.
        rewrite H1, H2, H4. simpl. rewrite <- !app_assoc. simpl. repeat split.
        exact H3.
      * match goal with |- context [tryGuesses S srv dsn rest ?o ?x] =>
          destruct (IH o x) as (evs & found & H1 & H2 & H3 & H4) end.
        exists (EOpen (dsnOfGuess dsn g) :: EPing (dsnOfGuess dsn g) :: evs), found.
        rewrite H1, H2, H4. simpl. rewrite <- !app_assoc. simpl. repeat split.
        exact H3.
    + match goal with |- context [tryGuesses S srv dsn rest ?o ?x] =>
        destruct (IH o x) as (evs & found & H1 & H2 & H3 & H4) end.
      exists (EOpen (dsnOfGuess dsn g) :: evs), found.
      rewrite H1, H2, H4. simpl. rewrite <- !app_assoc. simpl. repeat split.
      exact H3.
    + match goal with |- context [tryGuesses S srv dsn rest ?o ?x] =>
        destruct (IH o x) as (evs & found & H1 & H2 & H3 & H4) end.
      exists (EOpen (dsnOfGuess dsn g) :: evs), found.
      rewrite H1, H2, H4. simpl. rewrite <- !app_assoc. simpl. repeat split.
      exact H3.
Qed.

Lemma closeAll_closes (opened : list string) (w : W) :
  fst (closeAll S srv opened w) = Ok tt /\
  events (snd (closeAll S srv opened w)) = (events w ++ map EClose opened)%list /\
  driver (snd (closeAll S srv opened w)) = driver w.
Proof.
  revert w. induction opened as [|d rest IH]; intros w; simpl.
  - now rewrite app_nil_r.
  - unfold call. destruct (sqlClose srv d (server w)) as [rc sc].
    match goal with |- context [closeAll S srv rest ?x] =>
      destruct (IH x) as (H1 & H2 & H3) end.
    rewrite H1, H2, H3. simpl. rewrite <- app_assoc. repeat split.
Qed.

Lemma closesOf_map_EClose (l : list string) : closesOf (map EClose l) = l.
Proof. induction l as [|d r IH]; simpl; [reflexivity | now rewrite IH]. Qed.

Lemma pingsOf_map_EClose (l : list string) : pingsOf (map EClose l) = [].
Proof. induction l as [|d r IH]; simpl; [reflexivity | exact IH]. Qed.

Lemma guessDSN_handles
  (username password hostname port database sslCA sslCert sslKey : string) (w : W) :
  let run := guessDSN S srv quoteQ mapOrder username password hostname port database
               sslCA sslCert sslKey w in
  exists evs,
    events (snd run) = (events w ++ evs)%list /\
    closesOf evs = rev (pingsOf evs) /\
    driver (snd run) = driver w.
Proof.
  cbv zeta. unfold guessDSN, bind.
  destruct (tryGuesses_handles
              (connectionDSN mapOrder username password hostname port sslCA sslCert sslKey)
              (guessesFor database) [] w) as (evs & found & H1 & H2 & H3 & H4).
  destruct (tryGuesses S srv _ (guessesFor database) [] w) as [r w1].
  simpl in H1, H2, H4. subst r. simpl.
  destruct (closeAll_closes (rev (pingsOf evs) ++ []) w1) as (C1 & C2 & C3).
  destruct (closeAll S srv (rev (pingsOf evs) ++ []) w1) as [rc wc].
  simpl in C1, C2, C3. subst rc.
  exists (evs ++ map EClose (rev (pingsOf evs) ++ []))%list.
  assert (E : events wc = (events w ++ evs ++ map EClose (rev (pingsOf evs) ++ []))%list).
  { rewrite C2, H2. now rewrite app_assoc. }
  assert (Q : closesOf (evs ++ map EClose (rev (pingsOf evs) ++ [])) =
              rev (pingsOf (evs ++ map EClose (rev (pingsOf evs) ++ [])))).
  { rewrite closesOf_app, pingsOf_app, H3, closesOf_map_EClose, pingsOf_map_EClose.
    simpl. now rewrite !app_nil_r. }
  assert (D : driver wc = driver w) by (now rewrite C3).
  destruct found as [p|]; simpl.
  - repeat split; assumption.
  - destruct (negb (String.eqb database "")); simpl; repeat split; assumption.
Qed.

(** X7. Whatever the server answers, [guessDSN] closes every handle it
    has pinged, that is, every handle that [sql.Open] gave it, the one of
    the successful guess included: the handles closed are the handles
    pinged, the last one first.  It does not touch the driver. *)
Theorem guessDSN_closes_its_handles
  (username password hostname port database sslCA sslCert sslKey : string) (w : W) :
  let run := guessDSN S srv quoteQ mapOrder username password hostname port database
               sslCA sslCert sslKey w in
  exists evs,
    events (snd run) = (events w ++ evs)%list /\
    closesOf evs = rev (pingsOf evs) /\
    driver (snd run) = driver w.
Proof. apply guessDSN_handles. Qed.

(** X8. When [Open] succeeds, the last call is the [sql.Open] of the
    handle the driver keeps; every handle of the discovery before it has
    been closed; the base DSN of the driver is the DSN of that handle, with
    the read-only setting at its end when the configuration asks for it;
    and the driver is in strict mode on the configured database when the
    configuration asks for it. *)
Theorem Open_keeps_one_handle (config : ConnectionConfig) (w w' : W) :
  Open S srv quoteQ mapOrder config w = (Ok tt, w') ->
  exists evs dsn,
    events w' = (events w ++ evs ++ [EOpen dsn])%list /\
    closesOf evs = rev (pingsOf evs) /\
    db (driver w') = Some dsn /\
    baseDSN (driver w') = dsn /\
    (ReadOnly config = true ->
     exists d, dsn = (d ++ " default_transaction_read_only=true")%string) /\
    strictDatabase (driver w') =
      (if StrictUseDb config then Database config else strictDatabase (driver w)).
Proof.
  unfold Open.
  destruct ((String.eqb (SslCert (TLS config)) "" && negb (String.eqb (SslKey (TLS config)) ""))
            || (negb (String.eqb (SslCert (TLS config)) "") &&
                String.eqb (SslKey (TLS config)) "")); [discriminate|].
  unfold bind.
  destruct (guessDSN_handles (Username config) (Password config) (Host config)
              (Port config) (Database config) (SslCA (TLS config)) (SslCert (TLS config))
              (SslKey (TLS config)) w) as (evs & H1 & H2 & H3).
  destruct (guessDSN S srv quoteQ mapOrder _ _ _ _ _ _ _ _ w) as [r w1].
  simpl in H1, H3. destruct r as [[g d]| |]; try discriminate.
  unfold getDriver, setDriver, call. simpl.
  match goal with |- context [sqlOpen srv ?x ?y] => destruct (sqlOpen srv x y) as [ro so] end.
  destruct ro as [[]| |]; try discriminate. simpl.
  intros E. injection E as <-. simpl.
  exists evs. eexists. rewrite H1, H3, <- app_assoc. repeat split; try reflexivity; try assumption.
  intros ->. eexists. reflexivity.
Qed.
End DiscoveryFacts.

(** [Open] without a database name on a server where only [postgres]
    answers: three guesses, three handles closed, one kept. *)
Lemma Open_keeps_one_handle_witness :
  exists evs dsn,
    Pg.events (snd (Pg.Open unit MoreSamples.onlyPostgres Samples.quoteQ MoreSamples.sameOrder
                      MoreSamples.readOnlyConfig (MoreSamples.unitWorld Samples.appDriver))) =
      (Pg.events (MoreSamples.unitWorld Samples.appDriver) ++ evs ++ [Pg.EOpen dsn])%list /\
    PgMore.closesOf evs = rev (PgMore.pingsOf evs) /\
    Pg.db (Pg.driver (snd (Pg.Open unit MoreSamples.onlyPostgres Samples.quoteQ
                             MoreSamples.sameOrder MoreSamples.readOnlyConfig
                             (MoreSamples.unitWorld Samples.appDriver)))) = Some dsn /\
    Pg.baseDSN (Pg.driver (snd (Pg.Open unit MoreSamples.onlyPostgres Samples.quoteQ
                                  MoreSamples.sameOrder MoreSamples.readOnlyConfig
                                  (MoreSamples.unitWorld Samples.appDriver)))) = dsn /\
    (Pg.ReadOnly MoreSamples.readOnlyConfig = true ->
     exists d, dsn = (d ++ " default_transaction_read_only=true")%string) /\
    Pg.strictDatabase
      (Pg.driver (snd (Pg.Open unit MoreSamples.onlyPostgres Samples.quoteQ
                         MoreSamples.sameOrder MoreSamples.readOnlyConfig
                         (MoreSamples.unitWorld Samples.appDriver)))) =
      (if Pg.StrictUseDb MoreSamples.readOnlyConfig
       then Pg.Database MoreSamples.readOnlyConfig
       else Pg.strictDatabase (Pg.driver (MoreSamples.unitWorld Samples.appDriver))).
Proof.
  refine (Open_keeps_one_handle unit MoreSamples.onlyPostgres Samples.quoteQ
            MoreSamples.sameOrder MoreSamples.readOnlyConfig
            (MoreSamples.unitWorld Samples.appDriver)
            (snd (Pg.Open unit MoreSamples.onlyPostgres Samples.quoteQ MoreSamples.sameOrder
                    MoreSamples.readOnlyConfig (MoreSamples.unitWorld Samples.appDriver))) _).
  vm_compute. reflexivity.
Defined.

Section DumpFacts.
Import GoStrings Pg PgMore.
Variable S : Type.
Variable srv : SqlServer S.
Variable O : Type.
Variable write : string -> O -> option error * O.
Variable runPgDump : string -> list string -> list string -> S -> PgDumpRun.
Variable filepathJoin : list string -> string.
Variable config : ConnectionConfig.
Variable pgInstanceDir : string.

Local Abbreviation DW := (DumpWorld S O).
Local Abbreviation writeFiltered := (PgMore.writeFiltered S O write).
Local Abbreviation WriteString := (PgMore.WriteString S O write).
Local Abbreviation dumpOne :=
  (PgMore.dumpOneDatabaseWithPgDump S O write runPgDump filepathJoin config pgInstanceDir).
Local Abbreviation dumpEach :=
  (PgMore.dumpEach S O write runPgDump filepathJoin config pgInstanceDir).
Local Abbreviation Dump :=
  (PgMore.Dump S srv O write runPgDump filepathJoin config pgInstanceDir).

Lemma writeFiltered_cons (line : string) (rest : list string) (c e : bool) :
  writeFiltered (line :: rest) c e =
  if HasPrefix line "SET SESSION AUTHORIZATION " then writeFiltered rest c e
  else if HasPrefix line "--" then writeFiltered rest true e
  else if c && String.eqb line "" then writeFiltered rest false e
  else if String.eqb line "" && e then writeFiltered rest false e
  else bind (WriteString line)
         (fun _ => bind (WriteString newlineS)
                     (fun _ => writeFiltered rest false (String.eqb line ""))).
Proof. reflexivity. Qed.

Lemma WriteString_cases (s : string) (w : DW) :
  (exists o, WriteString s w =
             (Ok tt, Build_DumpWorld (pgWorld w) o (chunks w ++ [s])%list (started w))) \/
  (exists e o, WriteString s w =
               (Err e, Build_DumpWorld (pgWorld w) o (chunks w) (started w))).
Proof.
  unfold PgMore.WriteString. destruct (write s (out w)) as [[e|] o].
  - right. now exists e, o.
  - left. now exists o.
Qed.

(** The loop of the filter, from any state of its two flags. *)
Lemma writeFiltered_kept (lines : list string) :
  forall (c e : bool) (w w' : DW),
    writeFiltered lines c e w = (Ok tt, w') ->
    exists kept,
      chunks w' = (chunks w ++ writtenFor kept)%list /\
      nonEmptyLines kept = passingLines lines /\
      singleBlanks e kept = true /\
      pgWorld w' = pgWorld w /\ started w' = started w.
Proof.
  induction lines as [|line rest IH]; intros c e w w' H.
  - injection H as <-. exists []. simpl. now rewrite app_nil_r.
  - rewrite writeFiltered_cons in H.
    assert (Hskip : forall c1,
               droppedLine line || String.eqb line "" = true ->
               writeFiltered rest c1 e w = (Ok tt, w') ->
               exists kept,
                 chunks w' = (chunks w ++ writtenFor kept)%list /\
                 nonEmptyLines kept = passingLines (line :: rest) /\
                 singleBlanks e kept = true /\
                 pgWorld w' = pgWorld w /\ started w' = started w).
    { intros c1 Hd H1. destruct (IH c1 e w w' H1) as (kept & K1 & K2 & K3 & K4 & K5).
      exists kept. repeat split; try assumption.
      rewrite K2. unfold passingLines. cbn [filter].
      destruct (String.eqb line ""); [reflexivity|].
      simpl in Hd. rewrite orb_false_r in Hd. rewrite Hd. reflexivity. }
    destruct (HasPrefix line "SET SESSION AUTHORIZATION ") eqn:Ea.
    { apply (Hskip c); [|exact H]. unfold droppedLine. rewrite Ea. reflexivity. }
    destruct (HasPrefix line "--") eqn:Eb.
    { apply (Hskip true); [|exact H]. unfold droppedLine. rewrite Eb.
      now rewrite orb_true_r. }
    destruct (c && String.eqb line "") eqn:Ec.
    { apply (Hskip false); [|exact H]. apply andb_prop in Ec. destruct Ec as [_ ->].
      now rewrite orb_true_r. }
    destruct (String.eqb line "" && e) eqn:Ed.
    { apply (Hskip false); [|exact H]. apply andb_prop in Ed. destruct Ed as [-> _].
      now rewrite orb_true_r. }
    unfold bind in H.
    destruct (WriteString_cases line w) as [(o1 & W1)|(e1 & o1 & W1)];
      rewrite W1 in H; [|discriminate].
    match type of H with context [WriteString newlineS ?x] =>
      destruct (WriteString_cases newlineS x) as [(o2 & W2)|(e2 & o2 & W2)] end;
      rewrite W2 in H; [|discriminate].
    cbn [pgWorld chunks started] in H.
    apply IH in H. destruct H as (kept & K1 & K2 & K3 & K4 & K5).
    cbn [pgWorld chunks started] in K1, K4, K5.
    exists (line :: kept). repeat split; try assumption.
    + rewrite K1. unfold writtenFor. cbn [flat_map]. rewrite <- !app_assoc. reflexivity.
    + unfold nonEmptyLines, passingLines in *. cbn [filter]. unfold droppedLine.
      rewrite Ea, Eb. cbn [orb negb]. rewrite andb_true_r.
      destruct (String.eqb line ""); cbn [negb]; [exact K2 | now rewrite K2].
    + cbn [singleBlanks]. rewrite K3, andb_true_r.
      rewrite andb_comm, Ed. reflexivity.
Qed.

Lemma writeFiltered_frame (lines : list string) :
  forall (c e : bool) (w : DW),
    pgWorld (snd (writeFiltered lines c e w)) = pgWorld w /\
    started (snd (writeFiltered lines c e w)) = started w.
Proof.
  induction lines as [|line rest IH]; intros c e w.
  - split; reflexivity.
  - rewrite writeFiltered_cons.
    destruct (HasPrefix line "SET SESSION AUTHORIZATION "); [apply IH|].
    destruct (HasPrefix line "--"); [apply IH|].
    destruct (c && String.eqb line ""); [apply IH|].
    destruct (String.eqb line "" && e); [apply IH|].
    unfold bind.
    destruct (WriteString_cases line w) as [(o1 & W1)|(e1 & o1 & W1)]; rewrite W1;
      [|split; reflexivity].
    match goal with |- context [WriteString newlineS ?x] =>
      destruct (WriteString_cases newlineS x) as [(o2 & W2)|(e2 & o2 & W2)] end;
      rewrite W2; [|split; reflexivity].
    match goal with |- context [writeFiltered rest false ?b ?x] =>
      destruct (IH false b x) as [I1 I2] end.
    rewrite I1, I2. split; reflexivity.
Qed.

(** One run: the command is started or not, and the server is left alone. *)
Lemma dumpOne_started (database : string) (schemaOnly includeUseDatabase : bool) (w : DW) :
  pgWorld (snd (dumpOne database schemaOnly includeUseDatabase w)) = pgWorld w /\
  (started (snd (dumpOne database schemaOnly includeUseDatabase w)) =
     (started w ++ [(filepathJoin [pgInstanceDir; "bin"; "pg_dump"],
                     pgDumpArgs config database schemaOnly, pgDumpEnv config)])%list \/
   (started (snd (dumpOne database schemaOnly includeUseDatabase w)) = started w /\
    fst (dumpOne database schemaOnly includeUseDatabase w) <> Ok tt)).
Proof.
  unfold PgMore.dumpOneDatabaseWithPgDump.
  destruct (pipeError _); [split; [reflexivity | right; split; [reflexivity | discriminate]]|].
  destruct (startError _); [split; [reflexivity | right; split; [reflexivity | discriminate]]|].
  unfold bind.
  match goal with |- context [writeFiltered ?l false false ?x] =>
    destruct (writeFiltered_frame l false false x) as [F1 F2];
    destruct (writeFiltered l false false x) as [r w1] end.
  cbn [snd pgWorld started] in F1, F2.
  destruct r as [[]|e|]; cbn [snd fst].
  - destruct (scanError _); unfold ret at 1 2;
      destruct (waitError _); cbn [snd fst fail ret]; rewrite F1, F2; split; auto.
  - rewrite F1, F2; split; auto.
  - rewrite F1, F2; split; auto.
Qed.

Lemma dumpEach_started (names : list string) (schemaOnly includeUseDatabase : bool) :
  forall w : DW,
    exists k,
      started (snd (dumpEach names schemaOnly includeUseDatabase w)) =
        (started w ++
         map (fun n => (filepathJoin [pgInstanceDir; "bin"; "pg_dump"],
                        pgDumpArgs config n schemaOnly, pgDumpEnv config))
             (firstn k names))%list /\
      pgWorld (snd (dumpEach names schemaOnly includeUseDatabase w)) = pgWorld w /\
      (fst (dumpEach names schemaOnly includeUseDatabase w) = Ok tt -> k = List.length names).
Proof.
  induction names as [|n rest IH]; intros w.
  - exists 0. simpl. rewrite app_nil_r. auto.
  - cbn [PgMore.dumpEach]. unfold bind.
    destruct (dumpOne_started n schemaOnly includeUseDatabase w) as [P [St|[St Hn]]];
      destruct (dumpOne n schemaOnly includeUseDatabase w) as [r w1];
      cbn [fst snd] in *.
    + destruct r as [[]|e|].
      * destruct (IH w1) as (k & I1 & I2 & I3).
        exists (Datatypes.S k). rewrite I1, I2, St, P, <- app_assoc. cbn [firstn map app].
        repeat split. intros Hok. cbn [List.length]. f_equal. now apply I3.
      * exists 1. cbn [firstn map fst snd]. rewrite St, P. repeat split. discriminate.
      * exists 1. cbn [firstn map fst snd]. rewrite St, P. repeat split. discriminate.
    + destruct r as [[]|e|]; [now elim Hn| |];
        exists 0; cbn [firstn map fst snd]; rewrite St, P, app_nil_r; repeat split;
        discriminate.
Qed.

(** X10. [Dump] reads the catalog once and starts [pg_dump] for the
    named database, or, without a name, for every database of the catalog
    that is not a template, in the order of the catalog, one after the
    other until one fails: the commands started are the commands of a
    prefix of that list, and of the whole list when [Dump] succeeds.  A
    name that the catalog does not hold is an error, and then nothing is
    started and nothing is written. *)
Theorem Dump_commands (database : string) (schemaOnly : bool) (w : DW)
  (dbs : list pgDatabaseSchema) (pw1 : World S) :
  getDatabases S srv (pgWorld w) = (Ok dbs, pw1) ->
  let names := dumpable database dbs in
  let run := Dump database schemaOnly w in
  (exists k,
      started (snd run) =
        (started w ++
         map (fun n => (filepathJoin [pgInstanceDir; "bin"; "pg_dump"],
                        pgDumpArgs config n schemaOnly, pgDumpEnv config))
             (firstn k names))%list /\
      (fst run = Ok "" -> k = List.length names)) /\
  (String.eqb database "" = false ->
   existsb (fun n => String.eqb (name n) database) dbs = false ->
   run = (Err ("database " ++ database ++ " not found"),
          Build_DumpWorld pw1 (out w) (chunks w) (started w))).
Proof.
  intros Hg. cbv zeta. unfold PgMore.Dump, dumpable, bind, liftPg, mapErr. rewrite Hg.
  destruct (String.eqb database "") eqn:Ed; cbn [negb].
  - split; [|discriminate]. unfold ret.
    match goal with |- context [dumpEach ?l ?a ?b ?x] =>
      destruct (dumpEach_started l a b x) as (k & I1 & I2 & I3);
      destruct (dumpEach l a b x) as [r w1] end.
    cbn [fst snd started] in *. exists k.
    destruct r as [[]|e|]; cbn [fst snd ret]; (split; [exact I1|]); intros Hok;
      try discriminate; now apply I3.
  - destruct (existsb (fun n => String.eqb (name n) database) dbs) eqn:Ex.
    + split; [|discriminate]. unfold ret.
      match goal with |- context [dumpEach ?l ?a ?b ?x] =>
        destruct (dumpEach_started l a b x) as (k & I1 & I2 & I3);
        destruct (dumpEach l a b x) as [r w1] end.
      cbn [fst snd started] in *. exists k.
      destruct r as [[]|e|]; cbn [fst snd ret]; (split; [exact I1|]); intros Hok;
      try discriminate; now apply I3.
    + unfold fail. cbn [fst snd started]. split; [|reflexivity].
      exists 0. cbn [firstn map]. rewrite app_nil_r. split; [reflexivity | discriminate].
Qed.
End DumpFacts.


(** The dump of a database that the catalog does not hold. *)
Lemma Dump_commands_witness :
  PgMore.Dump unit MoreSamples.onlyPostgres unit MoreSamples.bufferWrite
    MoreSamples.pgDumpOutput MoreSamples.joinSlash MoreSamples.readOnlyConfig "/opt/pg"
    "shop" true MoreSamples.dumpWorld =
  (Err "database shop not found",
   {| PgMore.pgWorld :=
        {| Pg.server := tt; Pg.txn := None; Pg.driver := MoreSamples.strictDriver;
           Pg.events := [Pg.EQueryDatabases "host=localhost user=admin dbname=app"] |};
      PgMore.out := tt; PgMore.chunks := []; PgMore.started := [] |}).
Proof.
  apply (proj2 (Dump_commands unit MoreSamples.onlyPostgres unit MoreSamples.bufferWrite
                  MoreSamples.pgDumpOutput MoreSamples.joinSlash MoreSamples.readOnlyConfig
                  "/opt/pg" "shop" true MoreSamples.dumpWorld _ _ eq_refl));
    reflexivity.
Defined.

Section BackfillFacts.
Import GoStrings Pg PgMore History.
Variable fault : nat -> option error.
Variable BytebaseDatabase : string.
Variable NonSemanticPrefix : string.

Local Abbreviation W := (World Store).
Local Abbreviation srv := (faulty fault).
Local Abbreviation update :=
  (updateMigrationHistoryStorageVersion Store srv BytebaseDatabase NonSemanticPrefix).
Local Abbreviation prefixed :=
  (forallb (fun v : ver => HasPrefix (version v) NonSemanticPrefix)).

(** Rows that have the prefix are passed over. *)
Lemma updateVersions_prefixed (sqldb : string) (vers : list ver) (w : W) :
  prefixed vers = true ->
  updateVersions Store srv NonSemanticPrefix sqldb vers w = (Ok tt, w).
Proof.
  induction vers as [|v vers IH]; intros H; [reflexivity|].
  cbn [forallb] in H. apply andb_prop in H. destruct H as [Hv Hr].
  cbn [updateVersions]. rewrite Hv. apply IH, Hr.
Qed.

Lemma updateVersions_driver (sqldb : string) (vers : list ver) (w : W) :
  driver (snd (updateVersions Store srv NonSemanticPrefix sqldb vers w)) = driver w.
Proof.
  revert w. induction vers as [|v vers IH]; intros w; [reflexivity|].
  cbn [updateVersions]. destruct (HasPrefix (version v) NonSemanticPrefix); [apply IH|].
  unfold bind, call. cbn [sqlUpdateVersion faulty]. unfold answer.
  destruct (fault (clock (server w))); [reflexivity|].
  rewrite IH. reflexivity.
Qed.

(** The backfill leaves the driver out of strict mode. *)
Lemma update_strict (w : W) :
  strictDatabase (driver w) = "" ->
  strictDatabase (driver (snd (update w))) = "".
Proof.
  intros Hs. unfold updateMigrationHistoryStorageVersion.
  unfold bind at 1, strictUseDb. rewrite Hs. simpl negb. cbv iota.
  unfold bind at 1.
  unfold GetDbConnection, switchDatabase, bind, getDriver, setDriver, call, ret.
  simpl. unfold answer.
  destruct (db (driver w)) as [old|]; simpl;
    repeat match goal with
           | |- context [fault ?n] => destruct (fault n); simpl
           end;
    try exact Hs; try reflexivity; rewrite updateVersions_driver; simpl; exact Hs.
Qed.

(** On a table whose versions all have the prefix the backfill changes no
    row and issues no update. *)
Lemma update_prefixed (w w' : W) (r : result unit) :
  strictDatabase (driver w) = "" ->
  prefixed (table (server w)) = true ->
  update w = (r, w') ->
  table (server w') = table (server w) /\
  exists evs, events w' = (events w ++ evs)%list /\ existsb isUpdateVersion evs = false.
Proof.
  intros Hs Hp H. unfold updateMigrationHistoryStorageVersion in H.
  unfold bind at 1, strictUseDb in H. rewrite Hs in H. simpl negb in H. cbv iota in H.
  unfold bind at 1 in H.
  unfold GetDbConnection, switchDatabase, bind, getDriver, setDriver, call, ret in H.
  simpl in H. unfold answer in H.
  destruct (db (driver w)) as [old|]; simpl in H;
    repeat match type of H with
           | context [fault ?n] => destruct (fault n); simpl in H
           end;
    rewrite ?updateVersions_prefixed in H by exact Hp;
    injection H as <- <-; simpl;
    (split; [reflexivity|]); rewrite <- ?app_assoc; eexists; (split; [reflexivity|]);
    reflexivity.
Qed.

(** X11. Outside strict mode the backfill of the stored versions is
    idempotent: after a backfill that succeeded, a second one changes no
    row of the table and issues no update. *)
Theorem backfill_twice (w w1 w2 : W) :
  strictDatabase (driver w) = "" ->
  update w = (Ok tt, w1) ->
  update w1 = (Ok tt, w2) ->
  table (server w2) = table (server w1) /\
  exists evs, events w2 = (events w1 ++ evs)%list /\ existsb isUpdateVersion evs = false.
Proof.
  intros Hs H1 H2.
  assert (Hs1 : strictDatabase (driver w1) = "").
  { pose proof (update_strict w Hs) as H. rewrite H1 in H. exact H. }
  assert (Hp : prefixed (table (server w1)) = true).
  { rewrite (update_table fault BytebaseDatabase NonSemanticPrefix w w1 Hs H1).
    apply forallb_forall. intros r Hr. apply in_map_iff in Hr.
    destruct Hr as (r0 & <- & _). apply backfillRow_prefixed. }
  exact (update_prefixed w1 w2 (Ok tt) Hs1 Hp H2).
Qed.
End BackfillFacts.

(** Two backfills of a table written before versions had a prefix. *)
Lemma backfill_twice_witness :
  History.table
    (Pg.server
       (snd (Pg.updateMigrationHistoryStorageVersion History.Store
               (History.faulty Samples.noFault) "bytebase" Samples.storedPrefix
               (snd (Pg.updateMigrationHistoryStorageVersion History.Store
                       (History.faulty Samples.noFault) "bytebase" Samples.storedPrefix
                       (Samples.storeWorld Samples.appDriver Samples.oldTable)))))) =
  [{| Pg.id := 1; Pg.version := "0000.0000.0000-0001" |};
   {| Pg.id := 2; Pg.version := "0000.0000.0000-0002" |}].
Proof.
  refine (proj1 (backfill_twice Samples.noFault "bytebase" Samples.storedPrefix
                   (Samples.storeWorld Samples.appDriver Samples.oldTable)
                   (snd (Pg.updateMigrationHistoryStorageVersion History.Store
                           (History.faulty Samples.noFault) "bytebase" Samples.storedPrefix
                           (Samples.storeWorld Samples.appDriver Samples.oldTable)))
                   (snd (Pg.updateMigrationHistoryStorageVersion History.Store
                           (History.faulty Samples.noFault) "bytebase" Samples.storedPrefix
                           (snd (Pg.updateMigrationHistoryStorageVersion History.Store
                                   (History.faulty Samples.noFault) "bytebase"
                                   Samples.storedPrefix
                                   (Samples.storeWorld Samples.appDriver Samples.oldTable)))))
                   _ _ _));
    vm_compute; reflexivity.
Defined.

Section StrictBackfillFacts.
Import GoStrings Pg PgMore.
Variable S : Type.
Variable srv : SqlServer S.
Variable BytebaseDatabase : string.
Variable MigrationHistory : Type.
Variable ToStoredVersion : bool -> string -> string -> result string.
Variable FormatParamNameInNumberedPosition : list string -> string.
Variable NonSemanticPrefix : string.
Variable utilFindMigrationHistoryList :
  string -> list param -> string -> MigrationHistoryFind -> string ->
  M (World S) (list MigrationHistory).

Local Abbreviation W := (World S).
Local Abbreviation update :=
  (updateMigrationHistoryStorageVersion S srv BytebaseDatabase NonSemanticPrefix).
Local Abbreviation FindMigrationHistoryList :=
  (Pg.FindMigrationHistoryList S srv BytebaseDatabase MigrationHistory ToStoredVersion
     FormatParamNameInNumberedPosition NonSemanticPrefix utilFindMigrationHistoryList).

(** In strict mode the backfill has no handle to query. *)
Lemma update_strict_panics (w : W) :
  strictDatabase (driver w) <> "" -> update w = (Panic, w).
Proof.
  intros Hs. unfold updateMigrationHistoryStorageVersion.
  unfold bind at 1. rewrite (strictUseDb_true S w Hs). cbn [negb].
  unfold bind, ret, panic. reflexivity.
Qed.

(** X12. In strict mode the backfill of the stored versions cannot run:
    the handle on which it queries is only set outside strict mode, and
    is nil otherwise.  So when the first query of
    [FindMigrationHistoryList] fails with an error that holds
    [invalid stored version], on a driver in strict mode whose DSN is not
    the one of the metadata database, the call panics: no statement of
    the backfill reaches the server and the query is not run again. *)
Theorem FindMigrationHistoryList_strict_panics
  (find : MigrationHistoryFind) (pn : list string * list param) (w w1 : W) (e : error) :
  findParams ToStoredVersion find = Ok pn ->
  strictDatabase (driver w) <> "" ->
  utilFindMigrationHistoryList
    (historyQuery FormatParamNameInNumberedPosition find (fst pn)) (snd pn)
    (strictDatabase (driver w)) find baseQuery w = (Err e, w1) ->
  Contains e "invalid stored version" = true ->
  isBytebaseDatabase (driver w1) = false ->
  strictDatabase (driver w1) <> "" ->
  FindMigrationHistoryList find w = (Panic, w1).
Proof.
  intros Hpn Hs Hfind Hc Hbb Hs1.
  unfold Pg.FindMigrationHistoryList. unfold bind at 1, liftResult. rewrite Hpn.
  unfold bind at 1. rewrite (strictUseDb_true S w Hs).
  unfold bind at 1, getDriver. cbv iota.
  rewrite Hfind, Hbb, Hc. cbn [negb]. unfold bind.
  rewrite (update_strict_panics w1 Hs1). reflexivity.
Qed.
End StrictBackfillFacts.

(** A driver in strict mode on a table written before versions had a
    prefix. *)
Lemma FindMigrationHistoryList_strict_panics_witness :
  Pg.FindMigrationHistoryList History.Store (History.faulty Samples.noFault) "bytebase"
    Pg.ver Samples.toStored Samples.formatParams Samples.storedPrefix Samples.findHistory
    Samples.allHistory (Samples.storeWorld MoreSamples.strictDriver Samples.oldTable) =
  (Panic, Samples.storeWorld MoreSamples.strictDriver Samples.oldTable).
Proof.
  apply (FindMigrationHistoryList_strict_panics History.Store (History.faulty Samples.noFault)
           "bytebase" Pg.ver Samples.toStored Samples.formatParams Samples.storedPrefix
           Samples.findHistory Samples.allHistory ([], [])
           (Samples.storeWorld MoreSamples.strictDriver Samples.oldTable)
           (Samples.storeWorld MoreSamples.strictDriver Samples.oldTable)
           "invalid stored version, should be in semantic or non-semantic form");
    try reflexivity; discriminate.
Defined.

Section QuoteMoreFacts.
Import GoStrings Quote.
Variable unicodeToUpper : string -> string.
Variable reserved : string -> bool.

Local Abbreviation quoteIdentifier := (Quote.quoteIdentifier unicodeToUpper reserved).
Local Abbreviation needsQuote := (Quote.needsQuote unicodeToUpper reserved).

Lemma escapeQuotes_cons (c : ascii) (r : string) :
  escapeQuotes (String c r) =
  if Ascii.eqb c dquote then String dquote (String dquote (escapeQuotes r))
  else String c (escapeQuotes r).
Proof. unfold escapeQuotes. cbn [ReplaceAll]. destruct (Ascii.eqb c dquote); reflexivity. Qed.

(** Doubling the quotes loses nothing. *)
Lemma escapeQuotes_injective (s1 : string) :
  forall s2, escapeQuotes s1 = escapeQuotes s2 -> s1 = s2.
Proof.
  induction s1 as [|c1 r1 IH]; intros [|c2 r2] H.
  - reflexivity.
  - rewrite escapeQuotes_cons in H. destruct (Ascii.eqb c2 dquote); discriminate.
  - rewrite escapeQuotes_cons in H. destruct (Ascii.eqb c1 dquote); discriminate.
  - rewrite !escapeQuotes_cons in H.
    destruct (Ascii.eqb c1 dquote) eqn:E1; destruct (Ascii.eqb c2 dquote) eqn:E2.
    + apply Ascii.eqb_eq in E1, E2. subst. injection H as H. f_equal. now apply IH.
    + injection H as H1 H2. subst c2. now rewrite Ascii.eqb_refl in E2.
    + injection H as H1 H2. subst c1. now rewrite Ascii.eqb_refl in E1.
    + injection H as H1 H2. subst. f_equal. now apply IH.
Qed.

Lemma length_append_string (a b : string) :
  String.length (a ++ b) = String.length a + String.length b.
Proof. induction a as [|x a IH]; cbn [append String.length]; [reflexivity | now rewrite IH]. Qed.

Lemma append_same_length (a b c : string) :
  (a ++ c)%string = (b ++ c)%string -> a = b.
Proof.
  revert b. induction a as [|x a IH]; intros [|y b] H.
  - reflexivity.
  - exfalso. apply (f_equal String.length) in H. cbn [append String.length] in H.
    rewrite length_append_string in H. lia.
  - exfalso. apply (f_equal String.length) in H. cbn [append String.length] in H.
    rewrite length_append_string in H. lia.
  - cbn [append] in H. injection H as -> H. f_equal. now apply IH.
Qed.

Lemma quoted_injective (s1 s2 : string) : quoted s1 = quoted s2 -> s1 = s2.
Proof.
  unfold quoted, DQ. cbn [append]. intros H. injection H as H.
  apply append_same_length in H. now apply escapeQuotes_injective.
Qed.

(** A string that matches [ident] does not start with a double quote. *)
Lemma ident_no_quote_head (s t : string) : ident_MatchString s = true -> quoted t <> s.
Proof.
  intros Hi Hq. destruct s as [|c r]; [discriminate|].
  unfold quoted, DQ in Hq. cbn [append] in Hq. injection Hq as Hc _. subst c.
  destruct r as [|c2 [|c3 r3]]; vm_compute in Hi; discriminate.
Qed.

Lemma needsQuote_false (s : string) : needsQuote s = false -> ident_MatchString s = true.
Proof.
  unfold Quote.needsQuote. destruct (ident_MatchString s); [reflexivity|].
  cbn [negb]. discriminate.
Qed.

Lemma quoteIdentifier_injective (s1 s2 : string) :
  quoteIdentifier s1 = quoteIdentifier s2 -> s1 = s2.
Proof.
  intros H. unfold Quote.quoteIdentifier in H.
  destruct (needsQuote s1) eqn:E1; destruct (needsQuote s2) eqn:E2.
  - now apply quoted_injective.
  - exfalso. exact (ident_no_quote_head s2 s1 (needsQuote_false s2 E2) H).
  - exfalso. symmetry in H. exact (ident_no_quote_head s1 s2 (needsQuote_false s1 E1) H).
  - exact H.
Qed.

(** X13. [quoteIdentifier] never maps two names to the same text,
    whatever the table of reserved words holds: a name that is left as it
    is starts with a letter, an underscore or a rune that folds to a
    letter, a name that is quoted starts with a double quote, and the
    doubling of the quotes inside the name can be undone. *)
Theorem quoteIdentifier_distinct (s1 s2 : string) :
  s1 <> s2 -> quoteIdentifier s1 <> quoteIdentifier s2.
Proof. intros Hne H. apply Hne. now apply quoteIdentifier_injective. Qed.
End QuoteMoreFacts.

(** A reserved word and the same word in quotes. *)
Lemma quoteIdentifier_distinct_witness :
  Quote.quoteIdentifier Samples.noUnicode Samples.someReserved "select" <>
  Quote.quoteIdentifier Samples.noUnicode Samples.someReserved
    (GoStrings.DQ ++ "select" ++ GoStrings.DQ).
Proof.
  apply (quoteIdentifier_distinct Samples.noUnicode Samples.someReserved "select"
           (GoStrings.DQ ++ "select" ++ GoStrings.DQ)).
  discriminate.
Defined.

Section WebhookMoreFacts.
Import GoStrings Webhook.
Variable Issue : Type.
Variable IssueName : Issue -> string.
Variable WebhookPush : string.
Variable TaskDatabaseSchemaUpdate : string.
Variable IssueDatabaseSchemaUpdate : string.
Variable SYSTEM_BOT_ID : Z.
Variable jsonUnmarshal : string -> called WebhookPushEvent.
Variable FindRepository : string -> called Repository.
Variable isNotFound : error -> bool.
Variable ComposeRepositoryRelationship : Repository -> called Repository.
Variable ParseMigrationInfo : string -> called MigrationInfo.
Variable QueryEscape : string -> string.
Variable gitlabGET : string -> string -> string -> called (called string).
Variable ComposeDatabaseByFind : Z -> string -> called Database.
Variable timeParse : string -> called Z.
Variable CreateIssue : IssueCreate -> Z -> list Issue -> called Issue.

Local Abbreviation handler :=
  (Webhook.handler Issue IssueName WebhookPush TaskDatabaseSchemaUpdate
     IssueDatabaseSchemaUpdate SYSTEM_BOT_ID jsonUnmarshal FindRepository isNotFound
     ComposeRepositoryRelationship ParseMigrationInfo QueryEscape gitlabGET
     ComposeDatabaseByFind timeParse CreateIssue).
Local Abbreviation processAdded :=
  (Webhook.processAdded Issue IssueName TaskDatabaseSchemaUpdate
     IssueDatabaseSchemaUpdate SYSTEM_BOT_ID ParseMigrationInfo QueryEscape gitlabGET
     ComposeDatabaseByFind timeParse CreateIssue).
Local Abbreviation processCommits :=
  (Webhook.processCommits Issue IssueName TaskDatabaseSchemaUpdate
     IssueDatabaseSchemaUpdate SYSTEM_BOT_ID ParseMigrationInfo QueryEscape gitlabGET
     ComposeDatabaseByFind timeParse CreateIssue).
Local Abbreviation createdLine := (Webhook.createdLine Issue IssueName).
Local Abbreviation cases :=
  (processAdded_cases Issue IssueName TaskDatabaseSchemaUpdate IssueDatabaseSchemaUpdate
     SYSTEM_BOT_ID ParseMigrationInfo QueryEscape gitlabGET ComposeDatabaseByFind timeParse
     CreateIssue).

(** The migration paths among the paths that a push has added, in the
    order of the push. *)
Local Abbreviation migrationPaths repository commits :=
  (filter (isMigrationPath repository) (flat_map AddedList commits)).

(** What the loops add to the state is bounded by the migration paths. *)
Lemma addedLoop_bound repository pushEvent commit (paths : list string) st :
  exists created : list Issue,
    snd (fold_left (fun st added => processAdded repository pushEvent commit added st)
           paths st) = (snd st ++ created)%list /\
    List.length created <= List.length (filter (isMigrationPath repository) paths).
Proof.
  revert st. induction paths as [|added rest IH]; intros st; cbn [fold_left filter].
  - exists []. now rewrite app_nil_r.
  - destruct (cases repository pushEvent commit added st) as [H|(Hm & issue & H)]; rewrite H.
    + destruct (IH st) as (created & I1 & I2). exists created. split; [exact I1|].
      destruct (isMigrationPath repository added); cbn [List.length]; lia.
    + destruct (IH ((fst st ++ [createdLine (issue, added)])%list, (snd st ++ [issue])%list))
        as (created & I1 & I2).
      exists (issue :: created). rewrite I1. cbn [snd]. rewrite <- app_assoc. split;
        [reflexivity|]. rewrite Hm. cbn [List.length]. lia.
Qed.

Lemma commitLoop_bound repository pushEvent (commits : list WebhookCommit) st :
  exists created : list Issue,
    snd (fold_left
           (fun st commit =>
              fold_left (fun st added => processAdded repository pushEvent commit added st)
                        (AddedList commit) st)
           commits st) = (snd st ++ created)%list /\
    List.length created <= List.length (migrationPaths repository commits).
Proof.
  revert st. induction commits as [|commit rest IH]; intros st; cbn [fold_left flat_map].
  - exists []. now rewrite app_nil_r.
  - destruct (addedLoop_bound repository pushEvent commit (AddedList commit) st)
      as (c1 & A1 & A2).
    match goal with |- context [fold_left _ rest ?x] =>
      destruct (IH x) as (c2 & B1 & B2) end.
    exists (c1 ++ c2)%list. rewrite B1, A1, <- app_assoc. split; [reflexivity|].
    rewrite filter_app, !length_app. lia.
Qed.

(** X14. The handler answers with one of four status codes, and only a
    reply with status 200 can come with new issues: every error reply
    (400, 404 or 500) leaves the issues as they were.  The reply is 404
    only when the repository of the endpoint is not found, and the issues
    that existed before the request are never touched. *)
Theorem handler_reply_kinds (c : Request) (issues : list Issue) :
  let run := handler c issues in
  ((exists text created, run = (Text 200 text, (issues ++ created)%list)) \/
   (exists code message,
       run = (HTTPError code message, issues) /\ In code [400; 404; 500])) /\
  (status (fst run) = 404 ->
   exists err, FindRepository (endpointId c) = Failed err /\ isNotFound err = true).
Proof.
  cbv zeta. unfold Webhook.handler.
  destruct (body c) as [b|err];
    [|split; [right; do 2 eexists; split; [reflexivity | simpl; auto] | discriminate]].
  destruct (jsonUnmarshal b) as [pushEvent|err];
    [|split; [right; do 2 eexists; split; [reflexivity | simpl; auto] | discriminate]].
  destruct (negb (String.eqb (ObjectKind pushEvent) WebhookPush));
    [split; [right; do 2 eexists; split; [reflexivity | simpl; auto] | discriminate]|].
  destruct (FindRepository (endpointId c)) as [found|err].
  2: { destruct (isNotFound err) eqn:En.
       - split; [right; do 2 eexists; split; [reflexivity | simpl; auto]|].
         intros _. now exists err.
       - split; [right; do 2 eexists; split; [reflexivity | simpl; auto] | discriminate]. }
  destruct (ComposeRepositoryRelationship found) as [repository|err];
    [|split; [right; do 2 eexists; split; [reflexivity | simpl; auto] | discriminate]].
  destruct (negb (String.eqb (gitlabToken c) (SecretToken repository)));
    [split; [right; do 2 eexists; split; [reflexivity | simpl; auto] | discriminate]|].
  destruct (negb (String.eqb (Itoa (ProjectID (Project pushEvent))) (ExternalId repository)));
    [split; [right; do 2 eexists; split; [reflexivity | simpl; auto] | discriminate]|].
  unfold Webhook.processCommits.
  destruct (commitLoop_bound repository pushEvent (CommitList pushEvent) ([], issues))
    as (created & C1 & _).
  destruct (fold_left _ (CommitList pushEvent) ([], issues)) as [msgs issues'].
  cbn [snd] in C1. subst issues'.
  split; [left; now do 2 eexists | discriminate].
Qed.

(** X15. Whatever the services answer, a request creates at most one
    issue for each added path, of all the commits of the push, that
    starts, as a string, with the base directory of the repository and has
    the extension [.sql]. *)
Theorem handler_issue_bound (c : Request) (issues : list Issue)
  (b : string) (pushEvent : WebhookPushEvent) (found repository : Repository) :
  body c = Returned b ->
  jsonUnmarshal b = Returned pushEvent ->
  FindRepository (endpointId c) = Returned found ->
  ComposeRepositoryRelationship found = Returned repository ->
  exists created : list Issue,
    snd (handler c issues) = (issues ++ created)%list /\
    List.length created <=
    List.length (migrationPaths repository (CommitList pushEvent)).
Proof.
  intros Hb Hj Hf Hc. unfold Webhook.handler. rewrite Hb, Hj.
  destruct (negb (String.eqb (ObjectKind pushEvent) WebhookPush));
    [exists []; cbn [snd List.length]; rewrite app_nil_r; split; [reflexivity | lia]|].
  rewrite Hf, Hc.
  destruct (negb (String.eqb (gitlabToken c) (SecretToken repository)));
    [exists []; cbn [snd List.length]; rewrite app_nil_r; split; [reflexivity | lia]|].
  destruct (negb (String.eqb (Itoa (ProjectID (Project pushEvent))) (ExternalId repository)));
    [exists []; cbn [snd List.length]; rewrite app_nil_r; split; [reflexivity | lia]|].
  unfold Webhook.processCommits.
  destruct (commitLoop_bound repository pushEvent (CommitList pushEvent) ([], issues))
    as (created & C1 & C2).
  destruct (fold_left _ (CommitList pushEvent) ([], issues)) as [msgs issues'].
  cbn [snd] in *. subst issues'. now exists created.
Qed.

Section AllServicesAnswer.
Hypothesis parses : forall filename, exists mi, ParseMigrationInfo filename = Returned mi.
Hypothesis fetches : forall url path token,
    exists content, gitlabGET url path token = Returned (Returned content).
Hypothesis finds : forall projectId name,
    exists database, ComposeDatabaseByFind projectId name = Returned database.
Hypothesis creates : forall create creator existing,
    exists issue, CreateIssue create creator existing = Returned issue.

Lemma processAdded_creates repository pushEvent commit added st :
  isMigrationPath repository added = true ->
  exists issue,
    processAdded repository pushEvent commit added st =
    ((fst st ++ [createdLine (issue, added)])%list, (snd st ++ [issue])%list).
Proof.
  intros Hm. destruct st as [msgs issues]. unfold Webhook.processAdded.
  unfold isMigrationPath in Hm. rewrite Hm.
  destruct (parses (Base added)) as [mi Hmi]. rewrite Hmi.
  match goal with |- context [gitlabGET ?u ?p ?t] =>
    destruct (fetches u p t) as [content Hg]; rewrite Hg end.
  match goal with |- context [ComposeDatabaseByFind ?p ?n] =>
    destruct (finds p n) as [database Hd]; rewrite Hd end.
  match goal with |- context [CreateIssue ?a ?u ?l] =>
    destruct (creates a u l) as [issue Hi]; rewrite Hi end.
  exists issue. reflexivity.
Qed.

Lemma addedLoop_creates repository pushEvent commit (paths : list string) st :
  exists created : list (Issue * string),
    fold_left (fun st added => processAdded repository pushEvent commit added st) paths st =
    ((fst st ++ map createdLine created)%list, (snd st ++ map fst created)%list) /\
    map snd created = filter (isMigrationPath repository) paths.
Proof.
  revert st. induction paths as [|added rest IH]; intros st; cbn [fold_left filter].
  - exists []. cbn [map]. rewrite !app_nil_r. now destruct st.
  - destruct (isMigrationPath repository added) eqn:Hm.
    + destruct (processAdded_creates repository pushEvent commit added st Hm) as [issue H].
      rewrite H.
      match goal with |- context [fold_left _ rest ?x] =>
        destruct (IH x) as (created & I1 & I2) end.
      exists ((issue, added) :: created). rewrite I1. cbn [fst snd map].
      rewrite <- !app_assoc, I2. split; reflexivity.
    + destruct (cases repository pushEvent commit added st) as [H|(Hm' & _)];
        [|congruence]. rewrite H. apply IH.
Qed.

Lemma commitLoop_creates repository pushEvent (commits : list WebhookCommit) st :
  exists created : list (Issue * string),
    fold_left
      (fun st commit =>
         fold_left (fun st added => processAdded repository pushEvent commit added st)
                   (AddedList commit) st)
      commits st =
    ((fst st ++ map createdLine created)%list, (snd st ++ map fst created)%list) /\
    map snd created = migrationPaths repository commits.
Proof.
  revert st. induction commits as [|commit rest IH]; intros st; cbn [fold_left flat_map].
  - exists []. cbn [map]. rewrite !app_nil_r. now destruct st.
  - destruct (addedLoop_creates repository pushEvent commit (AddedList commit) st)
      as (c1 & A1 & A2). rewrite A1.
    match goal with |- context [fold_left _ rest ?x] =>
      destruct (IH x) as (c2 & B1 & B2) end.
    exists (c1 ++ c2)%list. rewrite B1. cbn [fst snd].
    rewrite !map_app, <- !app_assoc, filter_app, A2, B2. split; reflexivity.
Qed.

(** X16. When the push event passes the checks of the handler and the
    services it calls all answer (every file name parses, every file is
    fetched, every database is found and every issue is created), the
    handler creates exactly one issue for each added path that starts, as
    a string, with the base directory (so also for a file beside that
    directory, such as [sqlx.sql] or [sql_archive/x.sql] for the base
    directory [sql]) and has the extension [.sql], in the order of the
    push, and reports them in that order. *)
Theorem handler_one_issue_per_migration_path (c : Request) (issues : list Issue)
  (b : string) (pushEvent : WebhookPushEvent) (found repository : Repository) :
  body c = Returned b ->
  jsonUnmarshal b = Returned pushEvent ->
  ObjectKind pushEvent = WebhookPush ->
  FindRepository (endpointId c) = Returned found ->
  ComposeRepositoryRelationship found = Returned repository ->
  gitlabToken c = SecretToken repository ->
  Itoa (ProjectID (Project pushEvent)) = ExternalId repository ->
  exists created : list (Issue * string),
    handler c issues =
    (Text 200 (Join (map createdLine created) newlineS), (issues ++ map fst created)%list) /\
    map snd created = migrationPaths repository (CommitList pushEvent).
Proof.
  intros Hb Hj Hk Hf Hc Ht Hp.
  unfold Webhook.handler. rewrite Hb, Hj, Hk, String.eqb_refl. cbn [negb].
  rewrite Hf, Hc, Ht, String.eqb_refl. cbn [negb]. rewrite Hp, String.eqb_refl. cbn [negb].
  unfold Webhook.processCommits.
  destruct (commitLoop_creates repository pushEvent (CommitList pushEvent) ([], issues))
    as (created & C1 & C2).
  rewrite C1. cbn [fst snd app]. now exists created.
Qed.
End AllServicesAnswer.
End WebhookMoreFacts.

(** A push with one migration file and one other file. *)
Lemma handler_issue_bound_witness :
  exists created : list string,
    snd (Samples.handlerOn (Samples.pushRequest "s3cret") []) = ([] ++ created)%list /\
    List.length created <=
    List.length (filter (Webhook.isMigrationPath Samples.repository)
                   (flat_map Webhook.AddedList (Webhook.CommitList Samples.pushEvent))).
Proof.
  exact (handler_issue_bound string (fun name => name) "push"
           "bb.task.database.schema.update" "bb.issue.database.schema.update" 1
           Samples.unmarshal Samples.findRepository Samples.notFound Samples.compose
           Samples.parseInfo Samples.escape Samples.fetch Samples.findDatabase
           Samples.parseTime Samples.createIssue
           (Samples.pushRequest "s3cret") [] "{push}" Samples.pushEvent
           Samples.repository Samples.repository eq_refl eq_refl eq_refl eq_refl).
Defined.

(** The same push, with services that all answer. *)
Lemma handler_one_issue_per_migration_path_witness :
  exists created : list (string * string),
    Samples.handlerOn (Samples.pushRequest "s3cret") [] =
    (Webhook.Text 200
       (GoStrings.Join (map (Webhook.createdLine string (fun name => name)) created)
                       GoStrings.newlineS),
     ([] ++ map fst created)%list) /\
    map snd created = ["sql/0004__add_col.sql"].
Proof.
  refine (handler_one_issue_per_migration_path string (fun name => name) "push"
            "bb.task.database.schema.update" "bb.issue.database.schema.update" 1
            Samples.unmarshal Samples.findRepository Samples.notFound Samples.compose
            Samples.parseInfo Samples.escape Samples.fetch Samples.findDatabase
            Samples.parseTime Samples.createIssue _ _ _ _
            (Samples.pushRequest "s3cret") [] "{push}" Samples.pushEvent
            Samples.repository Samples.repository
            eq_refl eq_refl eq_refl eq_refl eq_refl eq_refl eq_refl);
    intros; eexists; reflexivity.
Defined.

Section InboxListFacts.
Import GoStrings InboxList.
Variable S : Type.
Variable Inbox : Type.
Variable sdb : DB S Inbox.
Variable FormatError : error -> error.
Variable ENOTFOUND : string.
Variable ECONFLICT : string.
Variable bytebaseError : string -> string -> error.
Variable showFind : InboxFind -> string.

Local Abbreviation W := (World S).
Local Abbreviation findInboxList := (InboxList.findInboxList S Inbox sdb FormatError).
Local Abbreviation FindInboxList := (InboxList.FindInboxList S Inbox sdb FormatError).
Local Abbreviation FindInbox :=
  (InboxList.FindInbox S Inbox sdb FormatError ENOTFOUND ECONFLICT bytebaseError showFind).

(** The query has one placeholder for each argument. *)
Lemma listQuery_placeholders (find : InboxFind) :
  countByte "?"%char (listQuery find) = List.length (snd (whereArgs find)) /\
  snd (whereArgs find) = setFilters find.
Proof.
  destruct find as [[i|] [r|] [t|]]; split; vm_compute; reflexivity.
Qed.

(** The inner function asks the database one question and nothing else. *)
Lemma findInboxList_events (find : InboxFind) (w : W) :
  events (snd (findInboxList find w)) =
  (events w ++ [EQuery (listQuery find) (snd (whereArgs find))])%list.
Proof.
  unfold InboxList.findInboxList, bind, formatErr, call, liftResult.
  destruct (dbQuery sdb (listQuery find) (snd (whereArgs find)) (database w)) as [r s'].
  destruct r as [[rows e]| |]; cbn [fst snd events]; try reflexivity.
  destruct (scanRows Inbox FormatError rows []); cbn [fst snd events]; try reflexivity.
  destruct e; reflexivity.
Qed.

(** X17. [FindInboxList] asks the database one query, inside a
    transaction that it never commits: the calls are the begin, the query
    and the rollback, or the begin alone when it fails.  The text of the
    query holds exactly one placeholder for each argument it is run with,
    and the arguments are the filters that are set, in the order id,
    receiver, time. *)
Theorem FindInboxList_one_query (find : InboxFind) (w : W) :
  let run := FindInboxList find w in
  (events (snd run) = (events w ++ [EBegin])%list /\ (forall l, fst run <> Ok l) \/
   exists query args,
     events (snd run) = (events w ++ [EBegin; EQuery query args; ERollback])%list /\
     countByte "?"%char query = List.length args /\
     args = setFilters find).
Proof.
  cbv zeta. unfold InboxList.FindInboxList, bind, formatErr.
  unfold call. destruct (dbBegin sdb (database w)) as [rb sb].
  destruct rb as [[]|e|]; cbn [fst snd events].
  - right. unfold deferRollback.
    match goal with |- context [findInboxList find ?x] =>
      pose proof (findInboxList_events find x) as E;
      destruct (findInboxList find x) as [r w1] end.
    cbn [fst snd events] in *. exists (listQuery find), (snd (whereArgs find)).
    rewrite E, <- !app_assoc. split; [reflexivity|]. apply listQuery_placeholders.
  - left. split; [reflexivity | discriminate].
  - left. split; [reflexivity | discriminate].
Qed.

(** X18. [FindInbox] makes the calls of [FindInboxList] and leaves the
    database as [FindInboxList] does; it returns an inbox exactly when
    [FindInboxList] returns a list of that one inbox; an empty list is the
    error with the code [ENOTFOUND], a list of more than one inbox the
    error with the code [ECONFLICT] and their number; and an error of
    [FindInboxList] is returned as it is. *)
Theorem FindInbox_exactly_one (find : InboxFind) (w : W) :
  let one := FindInbox find w in
  let all := FindInboxList find w in
  snd one = snd all /\
  (forall inbox, fst one = Ok inbox <-> fst all = Ok [inbox]) /\
  (fst all = Ok [] ->
   fst one = Err (bytebaseError ENOTFOUND ("inbox not found: " ++ showFind find))) /\
  (forall l, fst all = Ok l -> 1 < List.length l ->
   fst one = Err (bytebaseError ECONFLICT
                    ("found " ++ Itoa (Z.of_nat (List.length l)) ++
                     " inboxes with filter " ++ showFind find ++ ", expect 1"))) /\
  (forall e, fst all = Err e -> fst one = Err e).
Proof.
  cbv zeta. unfold InboxList.FindInbox, InboxList.FindInboxList, bind, formatErr.
  unfold call. destruct (dbBegin sdb (database w)) as [rb sb].
  destruct rb as [[]|e|]; cbn [fst snd].
  2: { repeat split; try discriminate. intros e0 H. injection H as <-. reflexivity. }
  2: { repeat split; discriminate. }
  unfold deferRollback.
  match goal with |- context [findInboxList find ?x] =>
    destruct (findInboxList find x) as [r w1] end.
  destruct r as [l|e|]; cbn [fst snd].
  - destruct l as [|x [|y l]]; cbn [List.length Nat.eqb Nat.ltb Nat.leb fail ret fst snd].
    + repeat split; try discriminate. intros l H. injection H as <-. cbn. lia.
    + repeat split; try discriminate.
      * intros H. injection H as ->. reflexivity.
      * intros H. injection H as ->. reflexivity.
      * intros l H. injection H as <-. cbn. lia.
    + repeat split; try discriminate.
      intros l0 H _. injection H as <-. reflexivity.
  - repeat split; try discriminate. intros e0 H. injection H as <-. reflexivity.
  - repeat split; discriminate.
Qed.
End InboxListFacts.

Section SyncFacts.
Import GoStrings Pg PgMore PgSync.
Variable S : Type.
Variable Extension : Type.
Variable srv : SqlServer S.
Variable cat : Catalog S Extension.
Variable quoteQ : string -> string.

Local Abbreviation W := (World S).
Local Abbreviation syncDatabase := (PgSync.syncDatabase S Extension srv cat quoteQ).
Local Abbreviation syncEach := (PgSync.syncEach S Extension srv cat quoteQ).
Local Abbreviation SyncSchema := (PgSync.SyncSchema S Extension srv cat quoteQ).
Local Abbreviation opensOnly := (PgSync.opensOnly S).

Lemma opensOnly_silent {A} (base : string) (P : string -> Prop) (m : M W A) :
  (forall w, events (snd (m w)) = events w /\ driver (snd (m w)) = driver w) ->
  opensOnly base P m.
Proof.
  intros H w Hb. destruct (H w) as [E D]. exists []. rewrite E, D, app_nil_r.
  repeat split; [constructor | exact Hb].
Qed.

Lemma opensOnly_one {A} (base : string) (P : string -> Prop) (m : M W A) (ev : W -> event) :
  (forall w, events (snd (m w)) = (events w ++ [ev w])%list /\ driver (snd (m w)) = driver w) ->
  (forall w, opensOf [ev w] = []) ->
  opensOnly base P m.
Proof.
  intros H Hev w Hb. destruct (H w) as [E D]. exists [ev w]. rewrite E, D, Hev.
  repeat split; [constructor | exact Hb].
Qed.

Lemma opensOnly_ret {A} (base : string) (P : string -> Prop) (a : A) :
  opensOnly base P (ret a).
Proof. apply opensOnly_silent. intros w. split; reflexivity. Qed.

Lemma opensOnly_bind {A B} (base : string) (P : string -> Prop)
  (m : M W A) (k : A -> M W B) :
  opensOnly base P m -> (forall a, opensOnly base P (k a)) -> opensOnly base P (bind m k).
Proof.
  intros Hm Hk w Hb. destruct (Hm w Hb) as (e1 & E1 & F1 & B1). unfold bind.
  destruct (m w) as [r w1]. cbn [snd] in *. destruct r as [a|e|].
  - destruct (Hk a w1 B1) as (e2 & E2 & F2 & B2). exists (e1 ++ e2)%list.
    rewrite E2, E1, app_assoc, opensOf_app. repeat split; [|exact B2].
    apply Forall_app. now split.
  - exists e1. now repeat split.
  - exists e1. now repeat split.
Qed.

Lemma opensOnly_mapErr {A} (base : string) (P : string -> Prop) (f : error -> error)
  (m : M W A) :
  opensOnly base P m -> opensOnly base P (mapErr S f m).
Proof.
  intros Hm w Hb. destruct (Hm w Hb) as (e1 & E1 & F1 & B1). exists e1.
  unfold mapErr. destruct (m w) as [r w1]. destruct r; now repeat split.
Qed.

Lemma opensOnly_weaken {A} (base : string) (P Q : string -> Prop) (m : M W A) :
  (forall d, P d -> Q d) -> opensOnly base P m -> opensOnly base Q m.
Proof.
  intros HPQ Hm w Hb. destruct (Hm w Hb) as (e1 & E1 & F1 & B1). exists e1.
  repeat split; try assumption. eapply Forall_impl; [exact HPQ | exact F1].
Qed.

Lemma opensOnly_deferRollback {A} (base : string) (P : string -> Prop) (m : M W A) :
  opensOnly base P m -> opensOnly base P (deferRollback S m).
Proof.
  intros Hm w Hb. destruct (Hm w Hb) as (e1 & E1 & F1 & B1).
  unfold deferRollback, txRollback. destruct (m w) as [r w1]. cbn [snd] in *.
  destruct (txn w1).
  - exists (e1 ++ [ERollback])%list. cbn [events driver]. rewrite E1, app_assoc, opensOf_app.
    repeat split; [|exact B1]. apply Forall_app. split; [exact F1 | constructor].
  - exists e1. now repeat split.
Qed.

Lemma opensOnly_txRead {A} (base : string) (P : string -> Prop)
  (op : string -> S -> result A * S) :
  opensOnly base P (txRead S op).
Proof.
  apply opensOnly_silent. intros w. unfold txRead.
  destruct (txn w) as [[dsn wk]|]; [|split; reflexivity].
  destruct (op dsn wk). split; reflexivity.
Qed.

Lemma opensOnly_dbRead {A} (base : string) (P : string -> Prop)
  (op : string -> S -> result A * S) :
  opensOnly base P (dbRead S op).
Proof.
  apply opensOnly_silent. intros w. unfold dbRead, withDb.
  destruct (db (driver w)) as [dsn|]; [|split; reflexivity].
  destruct (op dsn (server w)). split; reflexivity.
Qed.

Lemma opensOnly_BeginTx (base : string) (P : string -> Prop) :
  opensOnly base P (BeginTx S srv).
Proof.
  intros w Hb. unfold BeginTx, withDb. destruct (db (driver w)) as [dsn|].
  - destruct (sqlBegin srv dsn (server w)) as [r s']. exists [EBegin dsn].
    repeat split; [constructor | exact Hb].
  - exists []. cbn [snd]. rewrite app_nil_r. repeat split; [constructor | exact Hb].
Qed.

Lemma opensOnly_txCommit (base : string) (P : string -> Prop) :
  opensOnly base P (txCommit S srv).
Proof.
  intros w Hb. unfold txCommit. destruct (txn w) as [[dsn wk]|].
  - destruct (sqlCommit srv dsn wk); exists [ECommit];
      repeat split; try constructor; exact Hb.
  - exists []. cbn [snd]. rewrite app_nil_r. repeat split; [constructor | exact Hb].
Qed.

Lemma opensOnly_getDatabases (base : string) (P : string -> Prop) :
  opensOnly base P (getDatabases S srv).
Proof.
  intros w Hb. unfold getDatabases, withDb, call. destruct (db (driver w)) as [dsn|].
  - destruct (sqlQueryDatabases srv dsn (server w)) as [r s']. exists [EQueryDatabases dsn].
    repeat split; [constructor | exact Hb].
  - exists []. cbn [snd]. rewrite app_nil_r. repeat split; [constructor | exact Hb].
Qed.

(** A switch opens a handle on the database it is asked for, and on
    nothing else. *)
Lemma opensOnly_GetDbConnection (base dbName : string) :
  opensOnly base (eq (base ++ " dbname=" ++ dbName)%string) (GetDbConnection S srv dbName).
Proof.
  intros w Hb.
  unfold GetDbConnection, switchDatabase, bind, getDriver, setDriver, call, ret.
  cbn [driver server events txn fst snd]. rewrite Hb.
  destruct (db (driver w)) as [old|].
  - destruct (sqlClose srv old (server w)) as [rc sc]. destruct rc as [[]|e|];
      cbn [driver server events txn fst snd].
    + destruct (sqlOpen srv (base ++ " dbname=" ++ dbName) sc) as [ro so].
      exists [EClose old; EOpen (base ++ " dbname=" ++ dbName)%string].
      destruct ro as [[]|e|]; cbn [driver server events txn fst snd baseDSN];
        rewrite <- ?app_assoc; repeat split; try (repeat constructor); exact Hb.
    + exists [EClose old]. repeat split; [constructor | exact Hb].
    + exists [EClose old]. repeat split; [constructor | exact Hb].
  - destruct (sqlOpen srv (base ++ " dbname=" ++ dbName) (server w)) as [ro so].
    exists [EOpen (base ++ " dbname=" ++ dbName)%string].
    destruct ro as [[]|e|]; cbn [driver server events txn fst snd baseDSN];
      repeat split; try (repeat constructor); exact Hb.
Qed.

Lemma syncDatabase_opens (base : string) (database : pgDatabaseSchema) :
  opensOnly base (eq (base ++ " dbname=" ++ name database)%string) (syncDatabase database).
Proof.
  unfold PgSync.syncDatabase.
  apply opensOnly_bind; [apply opensOnly_mapErr, opensOnly_GetDbConnection|]. intros _.
  apply opensOnly_bind; [apply opensOnly_BeginTx|]. intros _.
  apply opensOnly_deferRollback.
  apply opensOnly_bind; [apply opensOnly_mapErr, opensOnly_txRead|]. intros indices.
  apply opensOnly_bind; [apply opensOnly_mapErr, opensOnly_txRead|]. intros tables.
  apply opensOnly_bind; [apply opensOnly_mapErr, opensOnly_txRead|]. intros views.
  apply opensOnly_bind;
    [apply opensOnly_silent; intros w; split; reflexivity|]. intros now.
  apply opensOnly_bind; [apply opensOnly_mapErr, opensOnly_txRead|]. intros extensions.
  apply opensOnly_bind; [apply opensOnly_txCommit|]. intros _.
  apply opensOnly_ret.
Qed.

Lemma syncEach_opens (base : string) (databases : list pgDatabaseSchema) :
  forall schemaList,
    opensOnly base
      (fun dsn => exists n, excludedDatabaseList n = false /\
                            dsn = (base ++ " dbname=" ++ n)%string)
      (syncEach databases schemaList).
Proof.
  induction databases as [|database rest IH]; intros schemaList; cbn [PgSync.syncEach].
  - apply opensOnly_ret.
  - destruct (excludedDatabaseList (name database)) eqn:Ex; [apply IH|].
    apply opensOnly_bind; [|intros schema; apply IH].
    eapply opensOnly_weaken; [|apply syncDatabase_opens].
    intros d <-. now exists (name database).
Qed.

Lemma append_inv_head (a x y : string) : (a ++ x)%string = (a ++ y)%string -> x = y.
Proof.
  induction a as [|c a IH]; cbn [append]; intros H; [exact H|].
  injection H as H. now apply IH.
Qed.

(** X19. Whatever the server and the catalog answer, [SyncSchema] opens
    no handle on a database it excludes: not on the database of Bytebase,
    not on [rdsadmin] or [cloudsql], and not on a template database. *)
Theorem SyncSchema_skips_excluded (w : W) :
  exists evs,
    events (snd (SyncSchema w)) = (events w ++ evs)%list /\
    forall n, excludedDatabaseList n = true ->
              ~ In (baseDSN (driver w) ++ " dbname=" ++ n)%string (opensOf evs).
Proof.
  assert (H : opensOnly (baseDSN (driver w))
                (fun dsn => exists n, excludedDatabaseList n = false /\
                                      dsn = (baseDSN (driver w) ++ " dbname=" ++ n)%string)
                SyncSchema).
  { unfold PgSync.SyncSchema.
    apply opensOnly_bind; [apply opensOnly_dbRead|]. intros userList.
    apply opensOnly_bind; [apply opensOnly_mapErr, opensOnly_getDatabases|]. intros databases.
    apply opensOnly_bind; [apply syncEach_opens|]. intros schemaList.
    apply opensOnly_ret. }
  destruct (H w eq_refl) as (evs & E & F & _). exists evs. split; [exact E|].
  intros n Hn Hin. rewrite Forall_forall in F. destruct (F _ Hin) as (n' & Hn' & Heq).
  apply append_inv_head, append_inv_head in Heq. subst n'. congruence.
Qed.

Lemma deferRollback_Ok {A} (m : M W A) (w w' : W) (a : A) :
  deferRollback S m w = (Ok a, w') -> exists w1, m w = (Ok a, w1) /\ w' = txRollback S w1.
Proof.
  unfold deferRollback. destruct (m w) as [r w1]. intros H. injection H as -> <-.
  now exists w1.
Qed.

Lemma syncDatabase_schema (database : pgDatabaseSchema) (w w' : W) (schema : Schema Extension) :
  syncDatabase database w = (Ok schema, w') ->
  Schema_Name schema = name database /\
  Schema_CharacterSet schema = encoding database /\
  Schema_Collation schema = collate database.
Proof.
  unfold PgSync.syncDatabase. intros H.
  apply bind_Ok in H. destruct H as (_ & w1 & _ & H).
  apply bind_Ok in H. destruct H as (_ & w2 & _ & H).
  apply deferRollback_Ok in H. destruct H as (w3 & H & _).
  apply bind_Ok in H. destruct H as (indices & w4 & _ & H).
  apply bind_Ok in H. destruct H as (tables & w5 & _ & H).
  apply bind_Ok in H. destruct H as (views & w6 & _ & H).
  apply bind_Ok in H. destruct H as (now & w7 & _ & H).
  apply bind_Ok in H. destruct H as (extensions & w8 & _ & H).
  apply bind_Ok in H. destruct H as (_ & w9 & _ & H).
  injection H as <- _. repeat split.
Qed.

Local Abbreviation schemaHead :=
  (fun s : Schema Extension => (Schema_Name s, Schema_CharacterSet s, Schema_Collation s)).
Local Abbreviation databaseHead :=
  (fun d : pgDatabaseSchema => (name d, encoding d, collate d)).

Lemma syncEach_schemas (databases : list pgDatabaseSchema) :
  forall (schemaList result_ : list (Schema Extension)) (w w' : W),
    syncEach databases schemaList w = (Ok result_, w') ->
    map schemaHead result_ =
    (map schemaHead schemaList ++
     map databaseHead
       (filter (fun d => negb (excludedDatabaseList (name d))) databases))%list.
Proof.
  induction databases as [|database rest IH]; intros schemaList result_ w w' H;
    cbn [PgSync.syncEach filter] in *.
  - injection H as <- _. cbn [map]. now rewrite app_nil_r.
  - destruct (excludedDatabaseList (name database)); cbn [negb]; [now apply IH in H|].
    apply bind_Ok in H. destruct H as (schema & w1 & Hs & H).
    apply IH in H. rewrite H, map_app. cbn [map]. rewrite <- app_assoc. cbn [app].
    destruct (syncDatabase_schema database w w1 schema Hs) as (-> & -> & ->).
    reflexivity.
Qed.

Lemma mapErr_Ok {A} (f : error -> error) (m : M W A) (w w' : W) (a : A) :
  mapErr S f m w = (Ok a, w') -> m w = (Ok a, w').
Proof. unfold mapErr. destruct (m w) as [[x|e|] w1]; intros H; try discriminate; exact H. Qed.

(** X20. When [SyncSchema] succeeds, the users it returns are those of
    the user query, and the schemas it returns are those of the databases
    of the catalog that are not excluded, one for each, in the order of the
    catalog, with the name, the character set and the collation that the
    catalog gives. *)
Theorem SyncSchema_schemas (w w' : W) (userList : list User)
  (schemaList : list (Schema Extension)) :
  SyncSchema w = (Ok (userList, schemaList), w') ->
  exists (w1 w2 : W) (databases : list pgDatabaseSchema),
    dbRead S (readUserList cat) w = (Ok userList, w1) /\
    getDatabases S srv w1 = (Ok databases, w2) /\
    map schemaHead schemaList =
    map databaseHead (filter (fun d => negb (excludedDatabaseList (name d))) databases).
Proof.
  unfold PgSync.SyncSchema. intros H.
  apply bind_Ok in H. destruct H as (users & w1 & Hu & H).
  apply bind_Ok in H. destruct H as (databases & w2 & Hd & H).
  apply bind_Ok in H. destruct H as (schemas & w3 & Hs & H).
  injection H as <- <- _. apply mapErr_Ok in Hd.
  exists w1, w2, databases. repeat split; try assumption.
  apply syncEach_schemas in Hs. exact Hs.
Qed.

Lemma indicesMapOf_fold (indices : list indexSchema) :
  forall (m : string -> list indexSchema) (key : string),
    fold_left
      (fun (indicesMap : string -> list indexSchema) idx =>
         fun key =>
           if String.eqb key (indexKey idx) then (indicesMap key ++ [idx])%list
           else indicesMap key)
      indices m key =
    (m key ++ filter (fun idx => String.eqb key (indexKey idx)) indices)%list.
Proof.
  induction indices as [|idx rest IH]; intros m key; cbn [fold_left filter].
  - now rewrite app_nil_r.
  - rewrite IH. destruct (String.eqb key (indexKey idx)); [|reflexivity].
    now rewrite <- app_assoc.
Qed.

Lemma indexEntries_positions (idx : indexSchema) (exprs : list string) :
  forall i : Z,
    map Index_Expression (indexEntries idx i exprs) = exprs /\
    map Index_Position (indexEntries idx i exprs) =
    map (fun k => (i + Z.of_nat k)%Z) (seq 1 (List.length exprs)).
Proof.
  induction exprs as [|colExp rest IH]; intros i; cbn [indexEntries map List.length seq].
  - split; reflexivity.
  - destruct (IH (i + 1)%Z) as [E1 E2]. rewrite E1, E2. split; [reflexivity|].
    f_equal; try lia. rewrite <- (seq_shift (List.length rest) 1), map_map.
    apply map_ext. intros k. lia.
Qed.

(** X21. The index list of a table holds the indices whose key (schema
    and table name) is the name of the table, all of them and in the order
    in which they were read, and for each of them one entry for each of
    its column expressions, in their order, numbered from 1. *)
Theorem table_index_list (indices : list indexSchema) (tbl : tableSchema) :
  let table := toTable (indicesMapOf indices) tbl in
  Table_IndexList table =
    flat_map (fun idx => indexEntries idx 0 (columnExpressions idx))
             (filter (fun idx => String.eqb (Table_Name table) (indexKey idx)) indices) /\
  forall idx,
    map Index_Expression (indexEntries idx 0 (columnExpressions idx)) =
      columnExpressions idx /\
    map Index_Position (indexEntries idx 0 (columnExpressions idx)) =
      map Z.of_nat (seq 1 (List.length (columnExpressions idx))).
Proof.
  cbv zeta. split.
  - unfold toTable, indicesMapOf. cbn [Table_IndexList Table_Name].
    rewrite indicesMapOf_fold. reflexivity.
  - intros idx. destruct (indexEntries_positions idx (columnExpressions idx) 0) as [E1 E2].
    split; [exact E1|]. rewrite E2. apply map_ext. intros k. lia.
Qed.
End SyncFacts.

(** A sync on a server whose catalog holds a template, [postgres] and
    [app], with an empty catalog in each database. *)
Lemma SyncSchema_schemas_witness :
  exists (w1 w2 : Pg.World unit) (databases : list Pg.pgDatabaseSchema),
    PgSync.dbRead unit (PgSync.readUserList PgSync.emptyCatalog)
      (MoreSamples.unitWorld Samples.appDriver) =
      (Ok [{| PgSync.User_Name := "admin"; PgSync.User_Grant := "superuser" |}], w1) /\
    Pg.getDatabases unit MoreSamples.onlyPostgres w1 = (Ok databases, w2) /\
    [("postgres", "UTF8", "C"); ("app", "UTF8", "C")] =
    map (fun d => (Pg.name d, Pg.encoding d, Pg.collate d))
        (filter (fun d => negb (PgSync.excludedDatabaseList (Pg.name d))) databases).
Proof.
  refine (SyncSchema_schemas unit string MoreSamples.onlyPostgres PgSync.emptyCatalog
            Samples.quoteQ (MoreSamples.unitWorld Samples.appDriver)
            (snd (PgSync.SyncSchema unit string MoreSamples.onlyPostgres PgSync.emptyCatalog
                    Samples.quoteQ (MoreSamples.unitWorld Samples.appDriver)))
            [{| PgSync.User_Name := "admin"; PgSync.User_Grant := "superuser" |}]
            [{| PgSync.Schema_Name := "postgres"; PgSync.Schema_CharacterSet := "UTF8";
                PgSync.Schema_Collation := "C"; PgSync.Schema_TableList := [];
                PgSync.Schema_ViewList := []; PgSync.Schema_ExtensionList := [] |};
             {| PgSync.Schema_Name := "app"; PgSync.Schema_CharacterSet := "UTF8";
                PgSync.Schema_Collation := "C"; PgSync.Schema_TableList := [];
                PgSync.Schema_ViewList := []; PgSync.Schema_ExtensionList := [] |}] _).
  vm_compute. reflexivity.
Defined.

Section QualifiedNameFacts.
Import GoStrings Quote.
Variable unicodeToUpper : string -> string.
Variable reserved : string -> bool.

Local Abbreviation quoteIdentifier := (Quote.quoteIdentifier unicodeToUpper reserved).
Local Abbreviation needsQuote := (Quote.needsQuote unicodeToUpper reserved).

(** A byte that is neither a dot nor a double quote. *)
Local Abbreviation plain :=
  (fun c : ascii => negb (Ascii.eqb c "."%char) && negb (Ascii.eqb c dquote)).

Lemma string_app_assoc (a b c : string) : ((a ++ b) ++ c)%string = (a ++ b ++ c)%string.
Proof. induction a as [|x a IH]; cbn [append]; [reflexivity | now rewrite IH]. Qed.

Lemma identByte_plain (c : ascii) : identByte c = true -> plain c = true.
Proof.
  destruct c as [[] [] [] [] [] [] [] []]; vm_compute; intros H;
    first [reflexivity | discriminate].
Qed.

Lemma identStartByte_plain (c : ascii) : identStartByte c = true -> plain c = true.
Proof.
  intros H. apply identByte_plain. unfold identByte. now rewrite H.
Qed.

Lemma code_inj_at (c : ascii) (n : nat) : Nat.eqb (code c) n = true -> c = byte n.
Proof.
  intros H. apply Nat.eqb_eq in H. unfold code, byte in *. rewrite <- H.
  symmetry. apply ascii_nat_embedding.
Qed.

Lemma isFold2_plain (c1 c2 : ascii) :
  isFold2 c1 c2 = true -> plain c1 = true /\ plain c2 = true.
Proof.
  unfold isFold2. intros H. apply andb_prop in H. destruct H as [H1 H2].
  apply code_inj_at in H1, H2. subst. split; vm_compute; reflexivity.
Qed.

Lemma isFold3_plain (c1 c2 c3 : ascii) :
  isFold3 c1 c2 c3 = true -> plain c1 = true /\ plain c2 = true /\ plain c3 = true.
Proof.
  unfold isFold3. intros H. apply andb_prop in H. destruct H as [H H3].
  apply andb_prop in H. destruct H as [H1 H2].
  apply code_inj_at in H1, H2, H3. subst. repeat split; vm_compute; reflexivity.
Qed.

(** The runes of an identifier that is left unquoted are made of plain
    bytes. *)
Lemma identRest_plain (n : nat) :
  forall s, String.length s <= n -> identRest s = true -> forallbS plain s = true.
Proof.
  induction n as [|n IH]; intros s Hn H.
  - destruct s; [reflexivity | cbn [String.length] in Hn; lia].
  - destruct s as [|c r]; [reflexivity|]. cbn [String.length] in Hn.
    cbn [identRest] in H. cbn [forallbS].
    destruct (identByte c) eqn:Eb.
    + rewrite (identByte_plain c Eb). cbn [andb]. apply IH; [lia | exact H].
    + destruct r as [|c2 r2]; [discriminate|]. cbn [String.length] in Hn.
      destruct (isFold2 c c2) eqn:E2.
      * destruct (isFold2_plain c c2 E2) as [P1 P2]. rewrite P1. cbn [andb forallbS].
        rewrite P2. cbn [andb]. apply IH; [lia | exact H].
      * destruct r2 as [|c3 r3]; [discriminate|]. cbn [String.length] in Hn.
        destruct (isFold3 c c2 c3) eqn:E3; [|discriminate].
        destruct (isFold3_plain c c2 c3 E3) as (P1 & P2 & P3).
        rewrite P1. cbn [andb forallbS]. rewrite P2. cbn [andb]. rewrite P3. cbn [andb].
        apply IH; [lia | exact H].
Qed.

Lemma ident_plain (s : string) :
  ident_MatchString s = true -> s <> EmptyString /\ forallbS plain s = true.
Proof.
  intros H. destruct s as [|c r]; [discriminate|]. split; [discriminate|].
  cbn [ident_MatchString] in H. cbn [forallbS].
  destruct (identStartByte c) eqn:Eb.
  - rewrite (identStartByte_plain c Eb). cbn [andb].
    apply (identRest_plain (String.length r)); [lia | exact H].
  - destruct r as [|c2 r2]; [discriminate|].
    destruct (isFold2 c c2) eqn:E2.
    + destruct (isFold2_plain c c2 E2) as [P1 P2]. rewrite P1. cbn [andb forallbS].
      rewrite P2. cbn [andb]. apply (identRest_plain (String.length r2)); [lia | exact H].
    + destruct r2 as [|c3 r3]; [discriminate|].
      destruct (isFold3 c c2 c3) eqn:E3; [|discriminate].
      destruct (isFold3_plain c c2 c3 E3) as (P1 & P2 & P3).
      rewrite P1. cbn [andb forallbS]. rewrite P2. cbn [andb]. rewrite P3. cbn [andb].
      apply (identRest_plain (String.length r3)); [lia | exact H].
Qed.

(** Two plain strings before a dot. *)
Lemma plain_split (s1 : string) :
  forall s2 r1 r2,
    forallbS plain s1 = true -> forallbS plain s2 = true ->
    (s1 ++ "." ++ r1)%string = (s2 ++ "." ++ r2)%string -> s1 = s2 /\ r1 = r2.
Proof.
  induction s1 as [|c1 t1 IH]; intros [|c2 t2] r1 r2 P1 P2 H; cbn [append forallbS] in *.
  - injection H as ->. now split.
  - injection H as <- _. apply andb_prop in P2. destruct P2 as [P2 _].
    vm_compute in P2. discriminate.
  - injection H as -> _. apply andb_prop in P1. destruct P1 as [P1 _].
    vm_compute in P1. discriminate.
  - injection H as -> H. apply andb_prop in P1, P2.
    destruct P1 as [_ P1], P2 as [_ P2].
    destruct (IH t2 r1 r2 P1 P2 H) as [-> ->]. now split.
Qed.

Lemma escapeQuotes_nil : escapeQuotes EmptyString = EmptyString.
Proof. reflexivity. Qed.

(** Two quoted names before a dot. *)
Lemma escaped_split (s1 : string) :
  forall s2 r1 r2,
    (escapeQuotes s1 ++ DQ ++ "." ++ r1)%string = (escapeQuotes s2 ++ DQ ++ "." ++ r2)%string ->
    s1 = s2 /\ r1 = r2.
Proof.
  induction s1 as [|c1 t1 IH]; intros [|c2 t2] r1 r2 H.
  - rewrite !escapeQuotes_nil in H. unfold DQ in H. cbn [append] in H.
    injection H as ->. now split.
  - rewrite escapeQuotes_cons, escapeQuotes_nil in H. unfold DQ in H.
    destruct (Ascii.eqb c2 dquote) eqn:E2; cbn [append] in H.
    + injection H as H _. vm_compute in H. discriminate.
    + injection H as H _. subst c2. now rewrite Ascii.eqb_refl in E2.
  - rewrite escapeQuotes_cons, escapeQuotes_nil in H. unfold DQ in H.
    destruct (Ascii.eqb c1 dquote) eqn:E1; cbn [append] in H.
    + injection H as H _. vm_compute in H. discriminate.
    + injection H as H _. subst c1. now rewrite Ascii.eqb_refl in E1.
  - rewrite !escapeQuotes_cons in H.
    destruct (Ascii.eqb c1 dquote) eqn:E1; destruct (Ascii.eqb c2 dquote) eqn:E2;
      cbn [append] in H.
    + apply Ascii.eqb_eq in E1, E2. subst. injection H as H.
      destruct (IH t2 r1 r2 H) as [-> ->]. now split.
    + injection H as H1 H2. subst c2. now rewrite Ascii.eqb_refl in E2.
    + injection H as H1 H2. subst c1. now rewrite Ascii.eqb_refl in E1.
    + injection H as -> H. destruct (IH t2 r1 r2 H) as [-> ->]. now split.
Qed.

Lemma quoteIdentifier_split (s1 s2 r1 r2 : string) :
  (quoteIdentifier s1 ++ "." ++ r1)%string = (quoteIdentifier s2 ++ "." ++ r2)%string ->
  s1 = s2 /\ r1 = r2.
Proof.
  unfold Quote.quoteIdentifier.
  destruct (needsQuote s1) eqn:E1; destruct (needsQuote s2) eqn:E2; intros H.
  - unfold quoted in H. rewrite !string_app_assoc in H.
    apply (append_inv_head DQ) in H. now apply escaped_split.
  - exfalso. destruct (ident_plain s2 (needsQuote_false unicodeToUpper reserved s2 E2))
      as [Hne Hp].
    destruct s2 as [|c t]; [now apply Hne|].
    unfold quoted, DQ in H. cbn [append forallbS] in *. injection H as <- _.
    apply andb_prop in Hp. destruct Hp as [Hp _]. vm_compute in Hp. discriminate.
  - exfalso. destruct (ident_plain s1 (needsQuote_false unicodeToUpper reserved s1 E1))
      as [Hne Hp].
    destruct s1 as [|c t]; [now apply Hne|].
    unfold quoted, DQ in H. cbn [append forallbS] in *. injection H as -> _.
    apply andb_prop in Hp. destruct Hp as [Hp _]. vm_compute in Hp. discriminate.
  - destruct (ident_plain s1 (needsQuote_false unicodeToUpper reserved s1 E1)) as [_ P1].
    destruct (ident_plain s2 (needsQuote_false unicodeToUpper reserved s2 E2)) as [_ P2].
    now apply plain_split.
Qed.

(** X22. The key under which the driver files the indices and the
    constraints of a table, and under which it looks them up, is the
    quoted schema name, a dot, and the quoted table name.  Two tables
    never share a key: a name that is left unquoted holds neither a dot
    nor a double quote, and in a quoted name every double quote is
    doubled, so the key can be read back in one way only. *)
Theorem qualified_name_distinct (schema1 table1 schema2 table2 : string) :
  (schema1, table1) <> (schema2, table2) ->
  (quoteIdentifier schema1 ++ "." ++ quoteIdentifier table1)%string <>
  (quoteIdentifier schema2 ++ "." ++ quoteIdentifier table2)%string.
Proof.
  intros Hne H. apply Hne. apply quoteIdentifier_split in H. destruct H as [-> H].
  apply quoteIdentifier_injective in H. now subst.
Qed.
End QualifiedNameFacts.

(** A table with a dot in its name and a table in a schema with a dot in
    its name. *)
Lemma qualified_name_distinct_witness :
  (Quote.quoteIdentifier Samples.noUnicode Samples.someReserved "a.b" ++ "." ++
   Quote.quoteIdentifier Samples.noUnicode Samples.someReserved "c")%string <>
  (Quote.quoteIdentifier Samples.noUnicode Samples.someReserved "a" ++ "." ++
   Quote.quoteIdentifier Samples.noUnicode Samples.someReserved "b.c")%string.
Proof.
  apply (qualified_name_distinct Samples.noUnicode Samples.someReserved "a.b" "c" "a" "b.c").
  discriminate.
Defined.

Section CreateDatabaseFacts.
Import GoStrings Pg PgMore.
Variable unicodeFields : string -> list string.

Local Abbreviation getDatabaseInCreateDatabaseStatement :=
  (Pg.getDatabaseInCreateDatabaseStatement unicodeFields).

(** A byte of a token: an ASCII byte that is not white space and not a
    semicolon. *)
Local Abbreviation tokenByte :=
  (fun c : ascii => Nat.ltb (code c) 128 && negb (asciiSpace c) &&
                    negb (Ascii.eqb c (byte 59))).

Lemma TrimRight_keep (a b : string) (cutset : list ascii) :
  TrimRight b cutset <> EmptyString ->
  TrimRight (a ++ b) cutset = (a ++ TrimRight b cutset)%string.
Proof.
  intros Hb. induction a as [|c a IH]; cbn [append TrimRight]; [reflexivity|].
  rewrite IH. destruct (a ++ TrimRight b cutset)%string eqn:E; [|reflexivity].
  exfalso. destruct a; cbn [append] in E; [now apply Hb | discriminate].
Qed.

Lemma TrimRight_one (s : string) (x : ascii) :
  forallbS (fun c => negb (Ascii.eqb c x)) s = true ->
  TrimRight (s ++ String x EmptyString) [x] = s.
Proof.
  induction s as [|c r IH]; cbn [append TrimRight forallbS existsb]; intros H.
  - rewrite Ascii.eqb_refl. reflexivity.
  - apply andb_prop in H. destruct H as [Hc Hr]. rewrite (IH Hr).
    destruct r; [|reflexivity].
    apply negb_true_iff in Hc. rewrite Hc. reflexivity.
Qed.

Lemma TrimRight_none (s : string) (x : ascii) :
  forallbS (fun c => negb (Ascii.eqb c x)) s = true -> TrimRight s [x] = s.
Proof.
  induction s as [|c r IH]; cbn [TrimRight forallbS existsb]; intros H; [reflexivity|].
  apply andb_prop in H. destruct H as [Hc Hr]. rewrite (IH Hr).
  destruct r; [|reflexivity].
  apply negb_true_iff in Hc. rewrite Hc. reflexivity.
Qed.

Lemma substring_all (s : string) : substring 0 (String.length s) s = s.
Proof. induction s as [|c r IH]; cbn [substring String.length]; [reflexivity | now rewrite IH]. Qed.

Lemma TrimPrefix_append (p x : string) : TrimPrefix (p ++ x) p = x.
Proof.
  unfold TrimPrefix. rewrite prefix_append.
  induction p as [|c p IH]; cbn [append String.length substring Nat.sub].
  - rewrite Nat.sub_0_r. apply substring_all.
  - exact IH.
Qed.

Lemma fieldsASCII_word (s : string) :
  forall cur,
    forallbS (fun c => negb (asciiSpace c)) s = true ->
    fieldsASCII s cur =
    match (rev cur ++ list_ascii_of_string s)%list with
    | [] => []
    | l => [string_of_list_ascii l]
    end.
Proof.
  induction s as [|c r IH]; intros cur H; cbn [fieldsASCII list_ascii_of_string forallbS] in *.
  - rewrite app_nil_r. destruct cur as [|x cur]; [reflexivity|].
    destruct (rev (x :: cur)) eqn:E; [|reflexivity].
    apply (f_equal (@List.length ascii)) in E. rewrite length_rev in E. discriminate.
  - apply andb_prop in H. destruct H as [Hc Hr]. apply negb_true_iff in Hc. rewrite Hc.
    rewrite (IH (c :: cur) Hr). cbn [rev]. rewrite <- app_assoc. reflexivity.
Qed.

Lemma forallbS_impl (p q : ascii -> bool) (s : string) :
  (forall c, p c = true -> q c = true) -> forallbS p s = true -> forallbS q s = true.
Proof.
  intros Hpq. induction s as [|c r IH]; cbn [forallbS]; [reflexivity|].
  intros H. apply andb_prop in H. destruct H as [Hc Hr]. now rewrite (Hpq c Hc), IH.
Qed.

Lemma forallbS_app (p : ascii -> bool) (a b : string) :
  forallbS p (a ++ b) = forallbS p a && forallbS p b.
Proof.
  induction a as [|c a IH]; cbn [append forallbS]; [reflexivity|].
  now rewrite IH, andb_assoc.
Qed.

(** The statement [CREATE DATABASE token;] is cut down to its token. *)
Lemma create_database_token (t : string) :
  t <> EmptyString -> forallbS tokenByte t = true ->
  getDatabaseInCreateDatabaseStatement ("CREATE DATABASE " ++ t ++ ";") =
  Ok (TrimRight (TrimLeft t [dquote]) [dquote]).
Proof.
  intros Hne Ht. unfold Pg.getDatabaseInCreateDatabaseStatement.
  assert (H59 : forallbS (fun c => negb (Ascii.eqb c (byte 59))) t = true).
  { eapply forallbS_impl; [|exact Ht]. intros c H. apply andb_prop in H. tauto. }
  assert (Hsp : forallbS (fun c => negb (asciiSpace c)) t = true).
  { eapply forallbS_impl; [|exact Ht]. intros c H. apply andb_prop in H. destruct H as [H _].
    apply andb_prop in H. tauto. }
  assert (Has : forallbS (fun c => Nat.ltb (code c) 128) t = true).
  { eapply forallbS_impl; [|exact Ht]. intros c H. apply andb_prop in H. destruct H as [H _].
    apply andb_prop in H. tauto. }
  assert (E1 : TrimRight ("CREATE DATABASE " ++ t ++ ";") [byte 59] =
               ("CREATE DATABASE" ++ " " ++ t)%string).
  { change ("CREATE DATABASE " ++ t ++ ";")%string
      with ("CREATE DATABASE " ++ (t ++ String (byte 59) EmptyString))%string.
    rewrite TrimRight_keep; rewrite (TrimRight_one t (byte 59) H59);
      [reflexivity | exact Hne]. }
  rewrite E1, TrimPrefix_append.
  unfold Fields. 
  assert (E2 : isASCII (" " ++ t) = true).
  { unfold isASCII. cbn [append forallbS]. rewrite Has. reflexivity. }
  rewrite E2. cbn [append fieldsASCII].
  change (asciiSpace " "%char) with true. cbv iota. cbn [app].
  rewrite (fieldsASCII_word t [] Hsp). cbn [rev app].
  destruct (list_ascii_of_string t) eqn:El.
  - exfalso. apply Hne. rewrite <- (string_of_list_ascii_of_string t), El. reflexivity.
  - rewrite <- El, string_of_list_ascii_of_string. reflexivity.
Qed.

(** X23. [getDatabaseInCreateDatabaseStatement] reads the name back from
    the statement that creates a database, with the name as it is or in
    double quotes, when the name is made of ASCII bytes that are not white
    space, double quotes or semicolons; and a statement without a name is
    an error. *)
Theorem create_database_name_read_back (name_ : string) :
  name_ <> EmptyString -> forallbS plainNameByte name_ = true ->
  getDatabaseInCreateDatabaseStatement ("CREATE DATABASE " ++ name_ ++ ";") = Ok name_ /\
  getDatabaseInCreateDatabaseStatement ("CREATE DATABASE " ++ DQ ++ name_ ++ DQ ++ ";") =
    Ok name_ /\
  getDatabaseInCreateDatabaseStatement "CREATE DATABASE;" = Err "database name not found".
Proof.
  intros Hne Hp.
  assert (Ht : forallbS tokenByte name_ = true).
  { eapply forallbS_impl; [|exact Hp]. intros c H. unfold plainNameByte in H.
    apply andb_prop in H. destruct H as [H H4]. apply andb_prop in H. destruct H as [H _].
    rewrite H, H4. reflexivity. }
  assert (Hq : forallbS (fun c => negb (Ascii.eqb c dquote)) name_ = true).
  { eapply forallbS_impl; [|exact Hp]. intros c H. unfold plainNameByte in H.
    apply andb_prop in H. destruct H as [H _]. apply andb_prop in H. tauto. }
  assert (Hl : TrimLeft name_ [dquote] = name_).
  { destruct name_ as [|c r]; [reflexivity|]. cbn [TrimLeft existsb forallbS] in *.
    apply andb_prop in Hq. destruct Hq as [Hc _]. apply negb_true_iff in Hc.
    rewrite Hc. reflexivity. }
  split; [|split].
  - rewrite (create_database_token name_ Hne Ht), Hl. f_equal. now apply TrimRight_none.
  - assert (E : ("CREATE DATABASE " ++ DQ ++ name_ ++ DQ ++ ";")%string =
                ("CREATE DATABASE " ++ (DQ ++ name_ ++ DQ) ++ ";")%string)
      by (rewrite !string_app_assoc; reflexivity).
    rewrite E, create_database_token.
    + unfold DQ at 1. cbn [append TrimLeft existsb]. rewrite Ascii.eqb_refl. cbn [orb].
      assert (Hl2 : TrimLeft (name_ ++ DQ) [dquote] = (name_ ++ DQ)%string).
      { destruct name_ as [|c r]; [now elim Hne|]. cbn [append TrimLeft existsb forallbS] in *.
        apply andb_prop in Hq. destruct Hq as [Hc _]. apply negb_true_iff in Hc.
        rewrite Hc. reflexivity. }
      rewrite Hl2. f_equal. unfold DQ. now apply TrimRight_one.
    + unfold DQ. discriminate.
    + unfold DQ. cbn [append forallbS]. rewrite forallbS_app, Ht. reflexivity.
  - vm_compute. reflexivity.
Qed.
End CreateDatabaseFacts.

(** The statement that creates the database [app]. *)
Lemma create_database_name_read_back_witness :
  Pg.getDatabaseInCreateDatabaseStatement Samples.uniFields "CREATE DATABASE app;" = Ok "app".
Proof.
  refine (proj1 (create_database_name_read_back Samples.uniFields "app" _ _));
    [discriminate | reflexivity].
Defined.

Section ExecuteBucketFacts.
Import GoStrings Pg PgMore.
Variable S : Type.
Variable srv : SqlServer S.
Variable quoteQ : string -> string.
Variable unicodeFields : string -> list string.
Variable splitStatements : string -> list string * option error.
Variable wrapStatementError : string -> error -> error.

Local Abbreviation W := (World S).
Local Abbreviation executeStmt := (Pg.executeStmt S srv quoteQ unicodeFields).
Local Abbreviation ApplyMultiStatements :=
  (@Pg.ApplyMultiStatements S splitStatements wrapStatementError (list string)).
Local Abbreviation Execute :=
  (Pg.Execute S srv quoteQ unicodeFields splitStatements wrapStatementError).
Local Abbreviation getDatabaseInCreateDatabaseStatement :=
  (Pg.getDatabaseInCreateDatabaseStatement unicodeFields).

Lemma TrimRight_absorb (w tail : string) (x : ascii) :
  forallbS (fun c => Ascii.eqb c x) tail = true ->
  TrimRight (w ++ tail) [x] = TrimRight w [x].
Proof.
  intros Htail. induction w as [|c r IH]; cbn [append TrimRight].
  - induction tail as [|d t IHt]; cbn [TrimRight forallbS existsb] in *; [reflexivity|].
    apply andb_prop in Htail. destruct Htail as [Hd Ht]. rewrite (IHt Ht), Hd. reflexivity.
  - rewrite IH. reflexivity.
Qed.

Lemma TrimRight_head (c : ascii) (r : string) (x : ascii) :
  Ascii.eqb c x = false -> exists r', TrimRight (String c r) [x] = String c r'.
Proof.
  intros Hc. cbn [TrimRight existsb]. rewrite Hc. cbn [orb].
  destruct (TrimRight r [x]); eexists; reflexivity.
Qed.

Lemma TrimRight_forallbS (p : ascii -> bool) (s : string) (cutset : list ascii) :
  forallbS p s = true -> forallbS p (TrimRight s cutset) = true.
Proof.
  induction s as [|c r IH]; cbn [TrimRight forallbS]; intros H; [reflexivity|].
  apply andb_prop in H. destruct H as [Hc Hr]. specialize (IH Hr).
  destruct (TrimRight r cutset).
  - destruct (existsb (Ascii.eqb c) cutset); cbn [forallbS]; [reflexivity|].
    now rewrite Hc.
  - cbn [forallbS] in *. now rewrite Hc, IH.
Qed.

Lemma fieldsASCII_first_word (t : string) (c : ascii) (r : string) :
  forall cur,
    forallbS (fun c => negb (asciiSpace c)) t = true ->
    asciiSpace c = true ->
    fieldsASCII (t ++ String c r) cur =
    (match (rev cur ++ list_ascii_of_string t)%list with
     | [] => []
     | l => [string_of_list_ascii l]
     end ++ fieldsASCII r [])%list.
Proof.
  induction t as [|x t IH]; intros cur Ht Hc;
    cbn [append fieldsASCII list_ascii_of_string forallbS] in *.
  - rewrite Hc, app_nil_r. destruct cur as [|y cur]; [reflexivity|].
    destruct (rev (y :: cur)) eqn:E; [|reflexivity].
    apply (f_equal (@List.length ascii)) in E. rewrite length_rev in E. discriminate.
  - apply andb_prop in Ht. destruct Ht as [Hx Ht]. apply negb_true_iff in Hx. rewrite Hx.
    rewrite (IH (x :: cur) Ht Hc). cbn [rev]. rewrite <- app_assoc. reflexivity.
Qed.

Lemma fieldsASCII_skip (gap s : string) :
  forallbS asciiSpace gap = true -> fieldsASCII (gap ++ s) [] = fieldsASCII s [].
Proof.
  induction gap as [|c r IH]; cbn [append fieldsASCII forallbS]; intros H; [reflexivity|].
  apply andb_prop in H. destruct H as [Hc Hr]. rewrite Hc. cbn [app]. now apply IH.
Qed.

Lemma space_not_semicolon (c : ascii) : asciiSpace c = true -> Ascii.eqb c (byte 59) = false.
Proof.
  intros H. destruct (Ascii.eqb c (byte 59)) eqn:E; [|reflexivity].
  apply Ascii.eqb_eq in E. subst c. vm_compute in H. discriminate.
Qed.

Lemma space_is_ascii (c : ascii) : asciiSpace c = true -> Nat.ltb (code c) 128 = true.
Proof.
  destruct c as [[] [] [] [] [] [] [] []]; vm_compute; intros H;
    first [reflexivity | discriminate].
Qed.

Lemma append_not_empty (a b : string) : b <> EmptyString -> (a ++ b)%string <> EmptyString.
Proof. intros Hb. destruct a; cbn [append]; [exact Hb | discriminate]. Qed.

(** The name that [getDatabaseInCreateDatabaseStatement] reads is the
    first word after [CREATE DATABASE], without the double quotes at its
    ends. *)
Lemma create_database_word (gap t tail : string) :
  whiteSpace gap = true ->
  t <> EmptyString -> forallbS wordByte t = true -> afterWord t tail = true ->
  getDatabaseInCreateDatabaseStatement ("CREATE DATABASE " ++ gap ++ t ++ tail) =
  Ok (unquoteWord t).
Proof.
  intros Hgap Hne Ht Htail. unfold Pg.getDatabaseInCreateDatabaseStatement.
  unfold whiteSpace in Hgap.
  assert (Hsp : forallbS (fun c => negb (asciiSpace c)) t = true).
  { eapply forallbS_impl; [|exact Ht]. intros c H. unfold wordByte in H.
    apply andb_prop in H. tauto. }
  assert (Has : forallbS (fun c => Nat.ltb (code c) 128) t = true).
  { eapply forallbS_impl; [|exact Ht]. intros c H. unfold wordByte in H.
    apply andb_prop in H. tauto. }
  assert (Hgas : forallbS (fun c => Nat.ltb (code c) 128) gap = true).
  { eapply forallbS_impl; [|exact Hgap]. exact space_is_ascii. }
  assert (Hl : list_ascii_of_string t <> []).
  { intros El. apply Hne. rewrite <- (string_of_list_ascii_of_string t), El. reflexivity. }
  assert (Hsp1 : forallbS asciiSpace (" " ++ gap) = true).
  { cbn [append forallbS]. rewrite Hgap. reflexivity. }
  unfold afterWord in Htail. apply orb_prop in Htail. destruct Htail as [Hsemi|Hspace].
  - apply andb_prop in Hsemi. destruct Hsemi as [Hsemi Hend].
    apply String.eqb_eq in Hend.
    assert (E0 : TrimRight (t ++ tail) [byte 59] = t)
      by (rewrite (TrimRight_absorb t tail (byte 59) Hsemi); exact Hend).
    assert (E1 : TrimRight ("CREATE DATABASE " ++ gap ++ t ++ tail) [byte 59] =
                 ("CREATE DATABASE" ++ (" " ++ gap) ++ t)%string).
    { change ("CREATE DATABASE " ++ gap ++ t ++ tail)%string
        with ("CREATE DATABASE " ++ (gap ++ (t ++ tail)))%string.
      assert (E : TrimRight (gap ++ (t ++ tail)) [byte 59] = (gap ++ t)%string)
        by (rewrite TrimRight_keep; rewrite E0; [reflexivity | exact Hne]).
      rewrite TrimRight_keep; rewrite E; [reflexivity|].
      now apply append_not_empty. }
    rewrite E1, TrimPrefix_append. unfold Fields.
    assert (E2 : isASCII ((" " ++ gap) ++ t) = true).
    { unfold isASCII. rewrite forallbS_app. cbn [append forallbS]. rewrite Hgas, Has.
      reflexivity. }
    rewrite E2, (fieldsASCII_skip (" " ++ gap) t Hsp1), (fieldsASCII_word t [] Hsp).
    cbn [rev app].
    destruct (list_ascii_of_string t) eqn:El; [now elim Hl|].
    rewrite <- El, string_of_list_ascii_of_string. reflexivity.
  - destruct tail as [|c r]; [discriminate|].
    apply andb_prop in Hspace. destruct Hspace as [Hc Hascii].
    destruct (TrimRight_head c r (byte 59) (space_not_semicolon c Hc)) as [r' Hr'].
    assert (Hascii' : isASCII (String c r') = true).
    { rewrite <- Hr'. unfold isASCII. now apply TrimRight_forallbS. }
    assert (E0 : TrimRight (t ++ String c r) [byte 59] = (t ++ String c r')%string)
      by (rewrite TrimRight_keep; rewrite Hr'; [reflexivity | discriminate]).
    assert (E1 : TrimRight ("CREATE DATABASE " ++ gap ++ t ++ String c r) [byte 59] =
                 ("CREATE DATABASE" ++ (" " ++ gap) ++ t ++ String c r')%string).
    { change ("CREATE DATABASE " ++ gap ++ t ++ String c r)%string
        with ("CREATE DATABASE " ++ (gap ++ (t ++ String c r)))%string.
      assert (E : TrimRight (gap ++ (t ++ String c r)) [byte 59] =
                  (gap ++ t ++ String c r')%string).
      { rewrite TrimRight_keep; rewrite E0; [reflexivity|].
        apply append_not_empty. discriminate. }
      rewrite TrimRight_keep; rewrite E; [reflexivity|].
      apply append_not_empty, append_not_empty. discriminate. }
    rewrite E1, TrimPrefix_append. unfold Fields.
    assert (E2 : isASCII ((" " ++ gap) ++ t ++ String c r') = true).
    { unfold isASCII in *. rewrite !forallbS_app, Has, Hascii'. cbn [append forallbS].
      rewrite Hgas. reflexivity. }
    rewrite E2, (fieldsASCII_skip (" " ++ gap) _ Hsp1),
      (fieldsASCII_first_word t c r' [] Hsp Hc).
    cbn [rev app].
    destruct (list_ascii_of_string t) eqn:El; [now elim Hl|].
    rewrite <- El, string_of_list_ascii_of_string. reflexivity.
Qed.

Lemma unquoteWord_plain (n : string) :
  forallbS (fun c => negb (Ascii.eqb c dquote)) n = true ->
  unquoteWord n = n /\ unquoteWord (DQ ++ n ++ DQ) = n.
Proof.
  intros Hq. unfold unquoteWord.
  assert (Hl : TrimLeft n [dquote] = n).
  { destruct n as [|c r]; [reflexivity|]. cbn [TrimLeft existsb forallbS] in *.
    apply andb_prop in Hq. destruct Hq as [Hc _]. apply negb_true_iff in Hc.
    rewrite Hc. reflexivity. }
  split.
  - rewrite Hl. now apply TrimRight_none.
  - unfold DQ at 1. cbn [append TrimLeft existsb]. rewrite Ascii.eqb_refl. cbn [orb].
    destruct n as [|c r].
    + vm_compute. reflexivity.
    + assert (Hl2 : TrimLeft (String c r ++ DQ) [dquote] = (String c r ++ DQ)%string).
      { cbn [append TrimLeft existsb forallbS] in *.
        apply andb_prop in Hq. destruct Hq as [Hc _]. apply negb_true_iff in Hc.
        rewrite Hc. reflexivity. }
      rewrite Hl2. unfold DQ. now apply TrimRight_one.
Qed.

End ExecuteBucketFacts.


